(** * iprPy: static structure refinement (calc_refine_structure_static.py)

    A shallow embedding of [quick_a_Cij] and [calc_cij], the refinement
    loop of the refine_structure_static calculation, and the properties
    of the loop that its specification states.

    Conventions of the embedding.
    - Python floats are taken as exact rationals ([Q]); numeric equalities
      are stated with [==].  Rounding, overflow, infinities and NaN are
      outside the model (numpy yields inf or nan on a division by zero,
      [Q] yields 0).
    - atomman's [System] objects are mutable and passed by reference: the
      model keeps a store of cells addressed by object identity, so that
      [deepcopy] and [box_set] act as they do in Python.
    - numpy, atomman and LAMMPS are not part of the repository.
      [np.allclose] follows numpy's documented formula; the LAMMPS run,
      the inverse behind [ElasticConstants.Sij] and the unit conversion
      are variables of the section in which the calculation is embedded. *)

From Stdlib Require Import String QArith Qabs List Bool Arith Lia Lqa.
Import ListNotations.
Local Open Scope Q_scope.

(** ** numpy *)

Module np.

(** numpy's defaults: [allclose(a, b, rtol=1e-05, atol=1e-08)]. *)
Definition atol : Q := 1 # 100000000.

(** [absolute(a - b) <= atol + rtol * absolute(b)] *)
Definition isclose (rtol a b : Q) : bool :=
  Qle_bool (Qabs (a - b)) (atol + rtol * Qabs b).

Fixpoint all2 (p : Q -> Q -> bool) (xs ys : list Q) : bool :=
  match xs, ys with
  | x :: xs', y :: ys' => p x y && all2 p xs' ys'
  | _, _ => true
  end.

Fixpoint all22 (p : Q -> Q -> bool) (xs ys : list (list Q)) : bool :=
  match xs, ys with
  | x :: xs', y :: ys' => all2 p x y && all22 p xs' ys'
  | _, _ => true
  end.

(** [np.allclose(a, b, rtol=rtol)] on two arrays of one shape. *)
Definition allclose (a b : list (list Q)) (rtol : Q) : bool :=
  all22 (isclose rtol) a b.

(** [np.allclose(a, 0.0)]: the scalar is broadcast, rtol is the default
    (and multiplies [absolute(0.0)]). *)
Definition allclose0 (a : list (list Q)) : bool :=
  forallb (forallb (fun x => isclose (1 # 100000) x 0)) a.

End np.

(** ** Arrays *)

Definition matrix := list (list Q).

(** [m[i,j]] and [m[i,j] = v] for indices inside the shape (every index
    of the source is a literal or a loop counter below the dimension). *)
Definition mget (m : matrix) (i j : nat) : Q := nth j (nth i m []) 0.

Fixpoint set_nth {A} (l : list A) (n : nat) (v : A) : list A :=
  match l, n with
  | [], _ => []
  | _ :: t, O => v :: t
  | h :: t, S n' => h :: set_nth t n' v
  end.

Definition mset (m : matrix) (i j : nat) (v : Q) : matrix :=
  set_nth m i (set_nth (nth i m []) j v).

Definition shape (r c : nat) (m : matrix) : Prop :=
  length m = r /\ Forall (fun row => length row = c) m.

(** Lines 199-201:
<<
    for i in xrange(6):
        for j in xrange(i):
            cij[i,j] = cij[j,i] = (cij[i,j] + cij[j,i]) / 2
>>
    The chained assignment evaluates the right-hand side once and stores
    it into [cij[i,j]], then into [cij[j,i]]. *)
Definition symmetrize_at (i : nat) (cij : matrix) (j : nat) : matrix :=
  let v := (mget cij i j + mget cij j i) / 2 in
  mset (mset cij i j v) j i v.

Definition symmetrize_row (cij : matrix) (i : nat) : matrix :=
  fold_left (symmetrize_at i) (seq 0 i) cij.

Definition symmetrize (cij : matrix) : matrix :=
  fold_left symmetrize_row (seq 0 6) cij.

(** The specification's words:
    [Cij[i][j] = Cij[j][i] = (raw[i][j] + raw[j][i]) / 2]. *)
Definition symmetrized_spec (raw : matrix) (i j : nat) : Q :=
  (mget raw i j + mget raw j i) / 2.

(** Two arrays of one shape that agree entry by entry. *)
Definition meq (r c : nat) (m1 m2 : matrix) : Prop :=
  forall i j, (i < r)%nat -> (j < c)%nat -> mget m1 i j == mget m2 i j.

(** ** Exceptions and results *)

(** The exceptions that reach the caller.  The source raises
    [RuntimeError] with a message for every failure of its own (the
    specification calls them DivergenceError, NonConvergenceError and
    EvaluationError); indexing a thermo column that is too short raises
    [IndexError]; [ExternalError] stands for whatever the LAMMPS run (or the
    script generation before it) raises. *)
Inductive exn : Type :=
| RuntimeError (msg : string)
| IndexError
| UnboundLocalError
| ExternalError (msg : string).

Inductive Result (A : Type) : Type :=
| Ok (x : A)
| Raise (e : exn).
Arguments Ok {A} x.
Arguments Raise {A} e.

Definition bindR {A B} (m : Result A) (k : A -> Result B) : Result B :=
  match m with
  | Ok x => k x
  | Raise e => Raise e
  end.

Notation "x <~ m ;; k" := (bindR m (fun x => k))
  (at level 61, m at next level, right associativity).

(** [xs[i]] on a one-dimensional array. *)
Definition item (xs : list Q) (i : nat) : Result Q :=
  match nth_error xs i with
  | Some x => Ok x
  | None => Raise IndexError
  end.

Fixpoint mapR {A B} (f : A -> Result B) (l : list A) : Result (list B) :=
  match l with
  | [] => Ok []
  | x :: l' => y <~ f x ;; ys <~ mapR f l' ;; Ok (y :: ys)
  end.

Definition Qlt_bool (x y : Q) : bool := negb (Qle_bool y x).

(** ** atomman *)

Module am.

(** [am.Box(a=, b=, c=)]: an orthorhombic box.  [quick_a_Cij] is
    documented for orthorhombic cells only and [calc_cij] builds no
    other, so a box is its three lengths. *)
Record Box : Type := { a : Q; b : Q; c : Q }.

Definition vects (box : Box) : matrix :=
  [[a box; 0; 0]; [0; b box; 0]; [0; 0; c box]].

(** [am.tools.ElasticConstants(Cij=cij)]: [C.Cij] is the matrix it was
    built from. *)
Record ElasticConstants : Type := { Cij : matrix }.

End am.

(** The thermo columns of a LAMMPS log, [data.finds(name)]. *)
Record Log : Type := {
  Lx : list Q; Ly : list Q; Lz : list Q;
  Xy : list Q; Xz : list Q; Yz : list Q;
  Pxx : list Q; Pyy : list Q; Pzz : list Q;
  Pxy : list Q; Pxz : list Q; Pyz : list Q;
  peatom : list Q
}.

(** ** The measurement of [calc_cij] (lines 179-201) *)

(** Lines 180-185. *)
Definition strain (u : list Q) (hi lo : nat) (l : list Q) : Result Q :=
  x <~ item u hi ;; y <~ item u lo ;; l0 <~ item l 0 ;; Ok ((x - y) / l0).

Definition calc_strains (lx ly lz xy xz yz : list Q) : Result (list Q) :=
  e0 <~ strain lx 2 1 lx ;;
  e1 <~ strain ly 4 3 ly ;;
  e2 <~ strain lz 6 5 lz ;;
  e3 <~ strain yz 8 7 lz ;;
  e4 <~ strain xz 10 9 lz ;;
  e5 <~ strain xy 12 11 ly ;;
  Ok [e0; e1; e2; e3; e4; e5].

(** Lines 190-197, one turn of the loop: row [i] of the raw estimate. *)
Definition diff (p : list Q) (i : nat) : Result Q :=
  x <~ item p (2 * i + 1) ;; y <~ item p (2 * i + 2) ;; Ok (x - y).

Definition delta_stress (pxx pyy pzz pyz pxz pxy : list Q) (i : nat) : Result (list Q) :=
  d0 <~ diff pxx i ;; d1 <~ diff pyy i ;; d2 <~ diff pzz i ;;
  d3 <~ diff pyz i ;; d4 <~ diff pxz i ;; d5 <~ diff pxy i ;;
  Ok [d0; d1; d2; d3; d4; d5].

Definition cij_row (pxx pyy pzz pyz pxz pxy strains : list Q) (i : nat) : Result (list Q) :=
  ds <~ delta_stress pxx pyy pzz pyz pxz pxy i ;;
  e <~ item strains i ;;
  Ok (map (fun d => d / e) ds).

(** Lines 188-201: the raw estimate, then its symmetrization. *)
Definition raw_cij (pxx pyy pzz pyz pxz pxy strains : list Q) : Result matrix :=
  mapR (cij_row pxx pyy pzz pyz pxz pxy strains) (seq 0 6).

Definition calc_Cij (pxx pyy pzz pyz pxz pxy strains : list Q) : Result matrix :=
  cij <~ raw_cij pxx pyy pzz pyz pxz pxy strains ;;
  Ok (symmetrize cij).

(** Lines 214-224. *)
Definition calc_stress (pxx pyy pzz pxy pxz pyz : list Q) : Result matrix :=
  xx <~ item pxx 0 ;; xy <~ item pxy 0 ;; xz <~ item pxz 0 ;;
  yy <~ item pyy 0 ;; yz <~ item pyz 0 ;; zz <~ item pzz 0 ;;
  Ok [[-1 * xx; -1 * xy; -1 * xz];
      [-1 * xy; -1 * yy; -1 * yz];
      [-1 * xz; -1 * yz; -1 * zz]].

Definition new_dim (Sm : matrix) (i : nat) (dim s_xx s_yy s_zz : Q) : Q :=
  dim / (mget Sm i 0 * s_xx + mget Sm i 1 * s_yy + mget Sm i 2 * s_zz + 1).

(** ** The calculation *)

(** What the calculation takes from outside the repository. *)
Class Env : Type := {
  (** The atoms of a cell, in box-relative coordinates: [box_set] with
      [scale=True] keeps them. *)
  Atoms : Type;
  (** What the LAMMPS run depends on besides the cell (executable,
      potential, symbols, strain range, the files on disk), and the run
      itself: [lmp.run] on the script generated for a cell, giving the log
      or the message of the exception it raised. *)
  World : Type;
  lmp_run : Atoms -> am.Box -> World -> (string + Log) * World;
  (** [uc.set_in_units(value, unit)], and the pressure and energy units of
      the potential's LAMMPS unit style. *)
  set_in_units : Q -> string -> Q;
  p_unit : string;
  e_unit : string;
  (** [C.Sij], the inverse of [C.Cij]; [None] when taking it raises. *)
  Sij : am.ElasticConstants -> option matrix
}.

Section Refine.

Context {env : Env}.

(** An [atomman.System] value. *)
Record System : Type := { box : am.Box; atoms : Atoms }.

(** Object identities, and the store of the [System] objects alive. *)
Definition ref := nat.

(** [evals] is a trace kept for the proofs: the cell values [calc_cij]
    has been called on, the latest first. *)
Record State : Type := {
  obj : ref -> System;
  next_id : ref;
  world : World;
  evals : list System
}.

Definition M (A : Type) : Type := State -> Result A * State.

Definition ret {A} (x : A) : M A := fun st => (Ok x, st).

Definition raise {A} (e : exn) : M A := fun st => (Raise e, st).

Definition bind {A B} (m : M A) (k : A -> M B) : M B :=
  fun st =>
    match m st with
    | (Ok x, st') => k x st'
    | (Raise e, st') => (Raise e, st')
    end.

Notation "x <- m ;; k" := (bind m (fun x => k))
  (at level 61, m at next level, right associativity).

Definition lift {A} (r : Result A) : M A := fun st => (r, st).

Definition upd (f : ref -> System) (r : ref) (v : System) : ref -> System :=
  fun r' => if Nat.eqb r' r then v else f r'.

(** Reading an object. *)
Definition deref (r : ref) : M System := fun st => (Ok (obj st r), st).

(** [deepcopy(cell)]: a new object with the value of [cell]. *)
Definition deepcopy (r : ref) : M ref :=
  fun st =>
    (Ok (next_id st),
     {| obj := upd (obj st) (next_id st) (obj st r);
        next_id := S (next_id st);
        world := world st;
        evals := evals st |}).

(** [cell.box_set(vects=box.vects, scale=True)]: the object gets the box,
    in place. *)
Definition box_set (r : ref) (newbox : am.Box) : M unit :=
  fun st =>
    (Ok tt,
     {| obj := upd (obj st) r {| box := newbox; atoms := atoms (obj st r) |};
        next_id := next_id st;
        world := world st;
        evals := evals st |}).

(** Lines 144-154: the script for the cell is generated and run; the
    call is recorded in the trace. *)
Definition run_cij_script (ucell : System) : M Log :=
  fun st =>
    let '(out, w) := lmp_run (atoms ucell) (box ucell) (world st) in
    let st' := {| obj := obj st; next_id := next_id st; world := w;
                  evals := ucell :: evals st |} in
    match out with
    | inr data => (Ok data, st')
    | inl msg => (Raise (ExternalError msg), st')
    end.

(** The dictionary [calc_cij] returns. *)
Record Results : Type := {
  C : am.ElasticConstants;
  stress : matrix;
  ecoh : Q;
  cell_new : ref
}.

Definition in_units (u : string) (xs : list Q) : list Q :=
  map (fun x => set_in_units x u) xs.

(** [calc_cij] (lines 140-233).  The message of line 210 goes on with
    [str(C.Cij)], which is left out. *)
Definition calc_cij (cell : ref) (p_xx p_yy p_zz : Q) : M Results :=
  ucell <- deref cell ;;
  data <- run_cij_script ucell ;;
  let lx := Lx data in
  let ly := Ly data in
  let lz := Lz data in
  let xy := Xy data in
  let xz := Xz data in
  let yz := Yz data in
  let pxx := in_units p_unit (Pxx data) in
  let pyy := in_units p_unit (Pyy data) in
  let pzz := in_units p_unit (Pzz data) in
  let pxy := in_units p_unit (Pxy data) in
  let pxz := in_units p_unit (Pxz data) in
  let pyz := in_units p_unit (Pyz data) in
  let pe := in_units e_unit (peatom data) in
  strains <- lift (calc_strains lx ly lz xy xz yz) ;;
  cij <- lift (calc_Cij pxx pyy pzz pyz pxz pxy strains) ;;
  let C := {| am.Cij := cij |} in
  if np.allclose0 (am.Cij C) then
    raise (RuntimeError "Divergence of elastic constants to <= 0")
  else
    match Sij C with
    | None => raise (RuntimeError "singular C:")
    | Some Sm =>
        stress <- lift (calc_stress pxx pyy pzz pxy pxz pyz) ;;
        let s_xx := mget stress 0 0 + p_xx in
        let s_yy := mget stress 1 1 + p_yy in
        let s_zz := mget stress 2 2 + p_zz in
        ucell <- deref cell ;;
        let new_a := new_dim Sm 0 (am.a (box ucell)) s_xx s_yy s_zz in
        let new_b := new_dim Sm 1 (am.b (box ucell)) s_xx s_yy s_zz in
        let new_c := new_dim Sm 2 (am.c (box ucell)) s_xx s_yy s_zz in
        if Qle_bool new_a 0 || Qle_bool new_b 0 || Qle_bool new_c 0 then
          raise (RuntimeError "Divergence of box dimensions to <= 0")
        else
          let newbox := {| am.a := new_a; am.b := new_b; am.c := new_c |} in
          cell_new <- deepcopy cell ;;
          _ <- box_set cell_new newbox ;;
          pe0 <- lift (item pe 0) ;;
          ret {| C := C; stress := stress; ecoh := pe0; cell_new := cell_new |}
    end.

(** *** [quick_a_Cij] (lines 76-138) *)

(** The variables of [quick_a_Cij] that the loop assigns. *)
Record Locals : Type := {
  converged : bool;
  cell_current : ref;
  cell_old : option ref;
  results : option Results
}.

(** How a turn of the [for] loop ends: at its last statement, or by
    [break]. *)
Inductive ctl : Type := Next | Break.

Definition diverged (x x0 diverge_scale : Q) : bool :=
  Qlt_bool x (x0 / diverge_scale) || Qlt_bool (x0 * diverge_scale) x.

(** Lines 120-132: the [elif] chain after the two convergence tests. *)
Definition divergence_tests (cell : ref) (diverge_scale : Q)
    (v : Locals) (res : Results) : M (ctl * Locals) :=
  new <- deref (cell_new res) ;;
  ini <- deref cell ;;
  if diverged (am.a (box new)) (am.a (box ini)) diverge_scale then
    raise (RuntimeError "Divergence of box dimensions")
  else if diverged (am.b (box new)) (am.b (box ini)) diverge_scale then
    raise (RuntimeError "Divergence of box dimensions")
  else if diverged (am.c (box new)) (am.c (box ini)) diverge_scale then
    raise (RuntimeError "Divergence of box dimensions")
  else if Qeq_bool (ecoh res) 0 then
    raise (RuntimeError "Divergence: cohesive energy is 0")
  else
    ret (Next, {| converged := converged v;
                  cell_current := cell_new res;
                  cell_old := Some (cell_current v);
                  results := Some res |}).

(** Lines 110-118: the branch of the second convergence test. *)
Definition average_and_rerun (p_xx p_yy p_zz : Q)
    (v : Locals) (res : Results) (old_ref : ref) : M (ctl * Locals) :=
  new <- deref (cell_new res) ;;
  old <- deref old_ref ;;
  let box := {| am.a := (am.a (box new) + am.a (box old)) / 2;
                am.b := (am.b (box new) + am.b (box old)) / 2;
                am.c := (am.c (box new) + am.c (box old)) / 2 |} in
  _ <- box_set (cell_current v) box ;;
  res' <- calc_cij (cell_current v) p_xx p_yy p_zz ;;
  ret (Break, {| converged := true;
                 cell_current := cell_current v;
                 cell_old := cell_old v;
                 results := Some res' |}).

(** Lines 99-132: one turn of the loop. *)
Definition cycle (cell : ref) (p_xx p_yy p_zz tol diverge_scale : Q)
    (v : Locals) : M (ctl * Locals) :=
  res <- calc_cij (cell_current v) p_xx p_yy p_zz ;;
  new <- deref (cell_new res) ;;
  cur <- deref (cell_current v) ;;
  if np.allclose (am.vects (box new)) (am.vects (box cur)) tol then
    ret (Break, {| converged := true;
                   cell_current := cell_current v;
                   cell_old := cell_old v;
                   results := Some res |})
  else
    match cell_old v with
    | Some old_ref =>
        old <- deref old_ref ;;
        if np.allclose (am.vects (box new)) (am.vects (box old)) tol then
          average_and_rerun p_xx p_yy p_zz v res old_ref
        else divergence_tests cell diverge_scale v res
    | None => divergence_tests cell diverge_scale v res
    end.

(** [for cycle in xrange(n): body], with [break]. *)
Fixpoint for_xrange (n : nat) (body : Locals -> M (ctl * Locals))
    (v : Locals) : M Locals :=
  match n with
  | O => ret v
  | S n' =>
      r <- body v ;;
      match fst r with
      | Break => ret (snd r)
      | Next => for_xrange n' body (snd r)
      end
  end.

Definition max_cycles : nat := 100.

Definition quick_a_Cij (cell : ref) (p_xx p_yy p_zz tol diverge_scale : Q)
    : M Results :=
  cur <- deepcopy cell ;;
  let v := {| converged := false; cell_current := cur;
              cell_old := None; results := None |} in
  v <- for_xrange max_cycles (cycle cell p_xx p_yy p_zz tol diverge_scale) v ;;
  if converged v then
    match results v with
    | Some res => ret res
    | None => raise UnboundLocalError
    end
  else raise (RuntimeError "Failed to converge after 100 cycles").

End Refine.

(** ** A scripted evaluator

    An instance of the outside world on which the calculation runs inside
    Rocq: LAMMPS answers with the logs of a script, one per run; units are
    the working units; the compliance matrix is the exact inverse. *)

(** Exact Gauss-Jordan inversion, for [numpy.linalg.inv]: [None] when the
    matrix is singular. *)
Definition scale_row (k : Q) (r : list Q) : list Q :=
  map (fun x => Qred (k * x)) r.

Definition eliminate (k : nat) (p r : list Q) : list Q :=
  map (fun xy => Qred (fst xy - nth k r 0 * snd xy)) (combine r p).

Fixpoint find_pivot (k : nat) (rows : matrix) : option (list Q * matrix) :=
  match rows with
  | [] => None
  | r :: rs =>
      if Qeq_bool (nth k r 0) 0 then
        match find_pivot k rs with
        | Some (p, rest) => Some (p, r :: rest)
        | None => None
        end
      else Some (r, rs)
  end.

Fixpoint gauss_jordan (cols : list nat) (done todo : matrix) : option matrix :=
  match cols with
  | [] => Some done
  | k :: cols' =>
      match find_pivot k todo with
      | None => None
      | Some (p, rest) =>
          let p' := scale_row (/ nth k p 0) p in
          gauss_jordan cols' (map (eliminate k p') done ++ [p'])
                       (map (eliminate k p') rest)
      end
  end.

Definition identity (n : nat) : matrix :=
  map (fun i => map (fun j => if Nat.eqb i j then 1 else 0) (seq 0 n)) (seq 0 n).

Definition linalg_inv (m : matrix) : option matrix :=
  let n := length m in
  match gauss_jordan (seq 0 n) [] (map (fun re => fst re ++ snd re) (combine m (identity n))) with
  | Some rows => Some (map (skipn n) rows)
  | None => None
  end.

(** A thermo column of 13 entries: [base] in the undeformed state and in
    every strained state but the pair of direction [k], where it is
    [base + dlt] (negative strain) and [base - dlt] (positive strain). *)
Definition column (base : Q) (k : nat) (dlt : Q) : list Q :=
  map (fun n => if Nat.eqb n (2 * k + 1) then base + dlt
                else if Nat.eqb n (2 * k + 2) then base - dlt
                else base) (seq 0 13).

(** The log of a unit cube of stiffness [c] on the diagonal, under the
    pressure [p] on its three axes, with potential energy [pe] per atom,
    strained by [d = 1e-5]. *)
Definition sample_log (c p pe : Q) : Log :=
  let d := 1 # 100000 in
  {| Lx := column 1 0 (- d); Ly := column 1 1 (- d); Lz := column 1 2 (- d);
     Yz := column 0 3 (- d); Xz := column 0 4 (- d); Xy := column 0 5 (- d);
     Pxx := column p 0 (c * d); Pyy := column p 1 (c * d); Pzz := column p 2 (c * d);
     Pyz := column 0 3 (c * d); Pxz := column 0 4 (c * d); Pxy := column 0 5 (c * d);
     peatom := repeat pe 13 |}.

Definition scripted : Env := {|
  Atoms := unit;
  World := list Log;
  lmp_run := fun _ _ w =>
    match w with
    | [] => (inl "end of script"%string, [])
    | data :: w' => (inr data, w')
    end;
  set_in_units := fun x _ => x;
  p_unit := "bar";
  e_unit := "eV";
  Sij := fun C => linalg_inv (am.Cij C)
|}.

(** A cubic cell of edge [x]. *)
Definition cube (x : Q) : System (env := scripted) :=
  @Build_System scripted {| am.a := x; am.b := x; am.c := x |} tt.

(** A store holding one cubic cell of edge [x], the object 0, before any
    run of the script [w]. *)
Definition one_cell (x : Q) (w : list Log) : State (env := scripted) :=
  {| obj := fun _ => cube x;
     next_id := 1%nat;
     world := w;
     evals := [] |}.

(** The default tolerance and the scripts of the runs below: each log is
    the answer to one call of the evaluator. *)
Definition tol_default : Q := 1 # 10000000000.

Definition refine (script : list Log) : Result Results * State (env := scripted) :=
  quick_a_Cij (env := scripted) 0%nat 0 0 0 tol_default 3 (one_cell 1 script).

(** The first call of the evaluator in that run, and the result in an
    outcome that has one. *)
Definition first_call (script : list Log) : Result Results * State (env := scripted) :=
  bind (deepcopy 0%nat) (fun cur => calc_cij cur 0 0 0) (one_cell 1 script).

Definition result_of (r : Result Results) : Results :=
  match r with
  | Ok res => res
  | Raise _ => {| C := {| am.Cij := [] |}; stress := []; ecoh := 0; cell_new := 0%nat |}
  end.

(** No pressure: the cell is at its equilibrium. *)
Definition script_converged : list Log := [sample_log 70 0 (-3)].

(** The edge goes from 1 to 2 and back to 1. *)
Definition script_alternating : list Log :=
  [sample_log 1 (1 # 2) (-3); sample_log 1 (-1) (-3); sample_log 1 0 (-3)].

(** At equilibrium, and moving to an edge of 2, with a cohesive energy
    of zero. *)
Definition script_zero_energy_converged : list Log := [sample_log 70 0 0].

Definition script_zero_energy_moving : list Log := [sample_log 1 (1 # 2) 0].

(** From the edge [x], [n] logs that double the edge while that keeps it
    below 3 and take it to three quarters otherwise: the edge stays between
    1 and 3 and never takes a value again. *)
Fixpoint wander (n : nat) (x : Q) : list Log :=
  match n with
  | O => []
  | S n' =>
      if Qlt_bool (x * 2) 3 then sample_log 2 1 (-3) :: wander n' (Qred (x * 2))
      else sample_log 3 (-1) (-3) :: wander n' (Qred (x * (3 # 4)))
  end.

Definition script_wandering : list Log := wander 100 1.

(** The edge goes from 1 to 4. *)
Definition script_diverging : list Log := [sample_log 1 (3 # 4) (-3)].

(** No elastic response, a compressive pressure larger than the
    stiffness, and a singular stiffness matrix. *)
Definition script_no_response : list Log := [sample_log 0 0 (-3)].

Definition script_collapse : list Log := [sample_log 1 2 (-3)].

(** A log with an elastic response along x only: the stiffness matrix is
    [c] at [[0][0]] and zero elsewhere. *)
Definition uniaxial_log (c p pe : Q) : Log :=
  let d := 1 # 100000 in
  {| Lx := column 1 0 (- d); Ly := column 1 1 (- d); Lz := column 1 2 (- d);
     Yz := column 0 3 (- d); Xz := column 0 4 (- d); Xy := column 0 5 (- d);
     Pxx := column p 0 (c * d); Pyy := repeat p 13; Pzz := repeat p 13;
     Pyz := repeat 0 13; Pxz := repeat 0 13; Pxy := repeat 0 13;
     peatom := repeat pe 13 |}.

Definition script_singular : list Log := [uniaxial_log 1 0 (-3)].

(** The edge goes to 140/139 under a pressure of 1/2. *)
Definition script_pressed : list Log := [sample_log 70 (1 # 2) (-3)].

Definition matrix_of (r : Result matrix) : matrix :=
  match r with
  | Ok m => m
  | Raise _ => []
  end.

Definition sample_raw : matrix :=
  [[1; 2; 3; 4; 5; 6]; [7; 8; 9; 10; 11; 12]; [13; 14; 15; 16; 17; 18];
   [19; 20; 21; 22; 23; 24]; [25; 26; 27; 28; 29; 30]; [31; 32; 33; 34; 35; 36]].

(** * Properties *)

Lemma Qlt_bool_iff (x y : Q) : Qlt_bool x y = true <-> x < y.
Proof.
  unfold Qlt_bool. rewrite negb_true_iff, <- not_true_iff_false, Qle_bool_iff.
  split; [apply Qnot_le_lt | apply Qlt_not_le].
Qed.

(** ** Symmetrization *)

Lemma shape_rows (m : matrix) :
  shape 6 6 m ->
  exists r0 r1 r2 r3 r4 r5, m = [r0; r1; r2; r3; r4; r5] /\
    length r0 = 6%nat /\ length r1 = 6%nat /\ length r2 = 6%nat /\
    length r3 = 6%nat /\ length r4 = 6%nat /\ length r5 = 6%nat.
Proof.
  intros [Hl Hr].
  do 6 (destruct m as [| ? m]; [discriminate |]).
  destruct m; [| discriminate].
  repeat match goal with H : Forall _ (_ :: _) |- _ => inversion H; clear H; subst end.
  do 6 eexists. split; [reflexivity |]. tauto.
Qed.

Lemma row6 (r : list Q) :
  length r = 6%nat -> exists a b c d e f, r = [a; b; c; d; e; f].
Proof.
  intros H. do 6 (destruct r as [| ? r]; [discriminate |]).
  destruct r; [| discriminate]. do 6 eexists. reflexivity.
Qed.

Ltac explode_matrix m H :=
  let Hs := fresh in
  destruct (shape_rows m H) as (?r & ?r & ?r & ?r & ?r & ?r & -> & Hs);
  repeat match goal with
    | Hs : _ /\ _ |- _ => destruct Hs
    | Hs : length ?r = 6%nat |- _ =>
        destruct (row6 r Hs) as (? & ? & ? & ? & ? & ? & ->); clear Hs
    end.

Ltac index_below i k :=
  lazymatch k with
  | O => exfalso; simpl in *; lia
  | S ?k' => let n := fresh "n" in destruct i as [| n]; [| index_below n k']
  end.

Ltac run_symmetrize :=
  cbv [symmetrized_spec symmetrize symmetrize_row symmetrize_at mget mset set_nth
       fold_left seq nth].

Lemma symmetrize_shape (m : matrix) : shape 6 6 m -> shape 6 6 (symmetrize m).
Proof.
  intros H. explode_matrix m H. run_symmetrize.
  split; [reflexivity |]. repeat constructor.
Qed.

Lemma symmetrize_spec (raw : matrix) (i j : nat) :
  shape 6 6 raw -> (i < 6)%nat -> (j < 6)%nat ->
  mget (symmetrize raw) i j == symmetrized_spec raw i j.
Proof.
  intros H Hi Hj. explode_matrix raw H.
  index_below i 6%nat; index_below j 6%nat; run_symmetrize; field.
Qed.

Lemma symmetrize_symmetric (raw : matrix) (i j : nat) :
  shape 6 6 raw -> (i < 6)%nat -> (j < 6)%nat ->
  mget (symmetrize raw) i j = mget (symmetrize raw) j i.
Proof.
  intros H Hi Hj. explode_matrix raw H.
  index_below i 6%nat; index_below j 6%nat; run_symmetrize; reflexivity.
Qed.

Lemma symmetrize_idempotent (raw : matrix) :
  shape 6 6 raw -> meq 6 6 (symmetrize (symmetrize raw)) (symmetrize raw).
Proof.
  intros H i j Hi Hj.
  pose proof (symmetrize_spec (symmetrize raw) i j (symmetrize_shape raw H) Hi Hj) as E.
  pose proof (symmetrize_symmetric raw i j H Hi Hj) as S.
  revert E S. generalize (symmetrize raw). intros s E S.
  rewrite E. unfold symmetrized_spec. rewrite <- S.
  generalize (mget s i j). intros x. field.
Qed.

(** C8: for every raw 6x6 matrix, the symmetrization leaves
    [(raw[i][j] + raw[j][i]) / 2] at [[i][j]], its result is symmetric, and
    symmetrizing the result again changes no entry. *)
Theorem C8_symmetrization (raw : matrix) :
  shape 6 6 raw ->
  (forall i j, (i < 6)%nat -> (j < 6)%nat ->
     mget (symmetrize raw) i j == (mget raw i j + mget raw j i) / 2) /\
  (forall i j, (i < 6)%nat -> (j < 6)%nat ->
     mget (symmetrize raw) i j = mget (symmetrize raw) j i) /\
  meq 6 6 (symmetrize (symmetrize raw)) (symmetrize raw).
Proof.
  intros H. split; [| split].
  - intros i j Hi Hj. apply (symmetrize_spec raw i j H Hi Hj).
  - intros i j Hi Hj. apply (symmetrize_symmetric raw i j H Hi Hj).
  - apply symmetrize_idempotent, H.
Qed.

(** The raw estimate of [calc_cij] is a 6x6 matrix. *)
Lemma raw_cij_shape pxx pyy pzz pyz pxz pxy strains m :
  raw_cij pxx pyy pzz pyz pxz pxy strains = Ok m -> shape 6 6 m.
Proof.
  unfold raw_cij. cbn [seq mapR].
  assert (Hrow : forall i r, cij_row pxx pyy pzz pyz pxz pxy strains i = Ok r ->
                             length r = 6%nat).
  { intros i r. unfold cij_row, delta_stress.
    repeat (let d := fresh "d" in destruct (diff _ i) as [d |]; [| discriminate]).
    cbn [bindR]. destruct (item strains i); [| discriminate].
    cbn [bindR]. intros [= <-]. reflexivity. }
  repeat (let r := fresh "r" in let E := fresh "E" in
          destruct (cij_row pxx pyy pzz pyz pxz pxy strains _) as [r |] eqn:E;
          [apply Hrow in E | discriminate]; cbn [bindR]).
  intros [= <-]. split; [reflexivity |]. repeat constructor; assumption.
Qed.

(** ** The evaluator, [calc_cij] *)

Section Facts.

Context {env : Env}.

Ltac unfold_M :=
  cbv beta delta [bind ret raise lift deref deepcopy box_set run_cij_script] in *.

(** The exceptions [calc_cij] raises: its three [RuntimeError]s, an
    [IndexError] from a short thermo column, or what the run raised. *)
Definition evaluation_error (e : exn) : Prop :=
  e = RuntimeError "Divergence of elastic constants to <= 0" \/
  e = RuntimeError "singular C:" \/
  e = RuntimeError "Divergence of box dimensions to <= 0" \/
  e = IndexError \/
  exists msg, e = ExternalError msg.

(** The measurement can only fail on an index. *)
Definition index_failure {A} (r : Result A) : Prop :=
  forall e, r = Raise e -> e = IndexError.

Lemma index_failure_Ok {A} (x : A) : index_failure (Ok x).
Proof. intros e H. discriminate. Qed.

Lemma index_failure_item xs i : index_failure (item xs i).
Proof. intros e. unfold item. destruct (nth_error xs i); congruence. Qed.

Lemma index_failure_bind {A B} (m : Result A) (k : A -> Result B) :
  index_failure m -> (forall x, index_failure (k x)) -> index_failure (bindR m k).
Proof.
  intros Hm Hk e. destruct m; simpl; [apply Hk | intros [= <-]; apply Hm; reflexivity].
Qed.

Lemma index_failure_mapR {A B} (f : A -> Result B) l :
  (forall x, index_failure (f x)) -> index_failure (mapR f l).
Proof.
  intros Hf. induction l as [| x l IH]; simpl; [apply index_failure_Ok |].
  apply index_failure_bind; [apply Hf | intros y].
  apply index_failure_bind; [apply IH | intros ys; apply index_failure_Ok].
Qed.

Ltac index_failure :=
  repeat first
    [ apply index_failure_Ok
    | apply index_failure_item
    | apply index_failure_bind; [| intros ?] ].

Lemma calc_strains_error lx ly lz xy xz yz :
  index_failure (calc_strains lx ly lz xy xz yz).
Proof. unfold calc_strains, strain. index_failure. Qed.

Lemma calc_Cij_error pxx pyy pzz pyz pxz pxy strains :
  index_failure (calc_Cij pxx pyy pzz pyz pxz pxy strains).
Proof.
  unfold calc_Cij, raw_cij.
  apply index_failure_bind; [| intros; apply index_failure_Ok].
  apply index_failure_mapR. intros i. unfold cij_row, delta_stress, diff.
  index_failure.
Qed.

Lemma calc_stress_error pxx pyy pzz pxy pxz pyz :
  index_failure (calc_stress pxx pyy pzz pxy pxz pyz).
Proof. unfold calc_stress. index_failure. Qed.

Lemma upd_same f r v : upd f r v r = v.
Proof. unfold upd. rewrite Nat.eqb_refl. reflexivity. Qed.

Lemma upd_other f r v x : x <> r -> upd f r v x = f x.
Proof. unfold upd. intros H. apply Nat.eqb_neq in H. rewrite H. reflexivity. Qed.

(** What a call of [calc_cij] does to the store and the trace: it is
    recorded once, at the value of its cell; no object that exists is
    changed; a result comes with a new object, the candidate. *)
Lemma calc_cij_effect cell p_xx p_yy p_zz st r st' :
  calc_cij cell p_xx p_yy p_zz st = (r, st') ->
  evals st' = obj st cell :: evals st /\
  (forall x, x <> next_id st -> obj st' x = obj st x) /\
  match r with
  | Ok res =>
      cell_new res = next_id st /\ next_id st' = S (next_id st) /\
      atoms (obj st' (next_id st)) = atoms (obj st cell)
  | Raise e =>
      evaluation_error e /\
      (next_id st' = next_id st \/ next_id st' = S (next_id st))
  end.
Proof.
  unfold calc_cij. unfold_M. cbn [obj next_id world evals].
  destruct (lmp_run (atoms (obj st cell)) (box (obj st cell)) (world st))
    as [[msg | data] w] eqn:Erun.
  { intros [= <- <-]. simpl. repeat split; auto.
    unfold evaluation_error. eauto 10. }
  cbv zeta.
  lazymatch goal with |- context [calc_strains ?x1 ?x2 ?x3 ?x4 ?x5 ?x6] =>
    destruct (calc_strains x1 x2 x3 x4 x5 x6) as [strains | e] eqn:Es end.
  2:{ intros [= <- <-]. simpl. repeat split; auto.
      apply calc_strains_error in Es. subst. unfold evaluation_error. tauto. }
  lazymatch goal with |- context [calc_Cij ?x1 ?x2 ?x3 ?x4 ?x5 ?x6 ?x7] =>
    destruct (calc_Cij x1 x2 x3 x4 x5 x6 x7) as [cij | e] eqn:Ec end.
  2:{ intros [= <- <-]. simpl. repeat split; auto.
      apply calc_Cij_error in Ec. subst. unfold evaluation_error. tauto. }
  cbn [am.Cij].
  destruct (np.allclose0 cij).
  { intros [= <- <-]. simpl. repeat split; auto. unfold evaluation_error. tauto. }
  lazymatch goal with |- context [Sij ?c] => destruct (Sij c) as [Sm |] end.
  2:{ intros [= <- <-]. simpl. repeat split; auto. unfold evaluation_error. tauto. }
  lazymatch goal with |- context [calc_stress ?x1 ?x2 ?x3 ?x4 ?x5 ?x6] =>
    destruct (calc_stress x1 x2 x3 x4 x5 x6) as [stress | e] eqn:Est end.
  2:{ intros [= <- <-]. simpl. repeat split; auto.
      apply calc_stress_error in Est. subst. unfold evaluation_error. tauto. }
  cbn [obj].
  lazymatch goal with |- context [if ?c then _ else _] => destruct c end.
  { intros [= <- <-]. simpl. repeat split; auto. unfold evaluation_error. tauto. }
  cbn [obj next_id world evals].
  lazymatch goal with |- context [item ?x1 ?x2] =>
    destruct (item x1 x2) as [pe0 | e] eqn:Ep end.
  - intros [= <- <-]. cbn [obj next_id world evals cell_new].
    repeat split; auto.
    + intros x Hx. rewrite !upd_other by assumption. reflexivity.
    + rewrite !upd_same. reflexivity.
  - intros [= <- <-]. cbn [obj next_id world evals].
    repeat split; auto.
    + intros x Hx. rewrite !upd_other by assumption. reflexivity.
    + apply index_failure_item in Ep. subst. unfold evaluation_error. tauto.
Qed.

(** The symmetrized stiffness matrix that [calc_cij] computes from a log
    (lines 163-201), and the stress of the undeformed state (lines
    214-216). *)
Definition measure (data : Log) : Result matrix :=
  strains <~ calc_strains (Lx data) (Ly data) (Lz data) (Xy data) (Xz data) (Yz data) ;;
  calc_Cij (in_units p_unit (Pxx data)) (in_units p_unit (Pyy data))
           (in_units p_unit (Pzz data)) (in_units p_unit (Pyz data))
           (in_units p_unit (Pxz data)) (in_units p_unit (Pxy data)) strains.

Definition baseline_stress (data : Log) : Result matrix :=
  calc_stress (in_units p_unit (Pxx data)) (in_units p_unit (Pyy data))
              (in_units p_unit (Pzz data)) (in_units p_unit (Pxy data))
              (in_units p_unit (Pxz data)) (in_units p_unit (Pyz data)).

(** The candidate dimensions (lines 218-224). *)
Definition new_box (Sm stress : matrix) (p_xx p_yy p_zz : Q) (old : am.Box) : am.Box :=
  let s_xx := mget stress 0 0 + p_xx in
  let s_yy := mget stress 1 1 + p_yy in
  let s_zz := mget stress 2 2 + p_zz in
  {| am.a := new_dim Sm 0 (am.a old) s_xx s_yy s_zz;
     am.b := new_dim Sm 1 (am.b old) s_xx s_yy s_zz;
     am.c := new_dim Sm 2 (am.c old) s_xx s_yy s_zz |}.

Definition nonpositive (bx : am.Box) : bool :=
  Qle_bool (am.a bx) 0 || Qle_bool (am.b bx) 0 || Qle_bool (am.c bx) 0.

(** [calc_cij], once LAMMPS has returned a log from which the
    stiffness matrix can be computed. *)
Lemma calc_cij_measured cell p_xx p_yy p_zz st data w cij :
  lmp_run (atoms (obj st cell)) (box (obj st cell)) (world st) = (inr data, w) ->
  measure data = Ok cij ->
  fst (calc_cij cell p_xx p_yy p_zz st) =
    if np.allclose0 cij then Raise (RuntimeError "Divergence of elastic constants to <= 0")
    else match Sij {| am.Cij := cij |} with
         | None => Raise (RuntimeError "singular C:")
         | Some Sm =>
             match baseline_stress data with
             | Raise e => Raise e
             | Ok stress =>
                 if nonpositive (new_box Sm stress p_xx p_yy p_zz (box (obj st cell)))
                 then Raise (RuntimeError "Divergence of box dimensions to <= 0")
                 else match item (in_units e_unit (peatom data)) 0 with
                      | Raise e => Raise e
                      | Ok pe0 =>
                          Ok {| C := {| am.Cij := cij |}; stress := stress;
                                ecoh := pe0; cell_new := next_id st |}
                      end
             end
         end.
Proof.
  intros Hrun Hm. unfold calc_cij. unfold_M. cbn [obj next_id world evals].
  rewrite Hrun. cbv zeta. unfold measure in Hm.
  destruct (calc_strains _ _ _ _ _ _) as [strains | e]; [| discriminate].
  cbn [bindR] in Hm. rewrite Hm. cbn [am.Cij].
  destruct (np.allclose0 cij); [reflexivity |].
  destruct (Sij _) as [Sm |]; [| reflexivity].
  fold (baseline_stress data).
  destruct (baseline_stress data) as [stress | e]; [| reflexivity].
  cbn [obj].
  change (Qle_bool _ 0 || Qle_bool _ 0 || Qle_bool _ 0)
    with (nonpositive (new_box Sm stress p_xx p_yy p_zz (box (obj st cell)))).
  destruct (nonpositive _); [reflexivity |].
  destruct (item _ 0); reflexivity.
Qed.

(** A result of [calc_cij]: where it comes from. *)
Lemma calc_cij_Ok cell p_xx p_yy p_zz st res st' :
  calc_cij cell p_xx p_yy p_zz st = (Ok res, st') ->
  exists data w Sm,
    lmp_run (atoms (obj st cell)) (box (obj st cell)) (world st) = (inr data, w) /\
    measure data = Ok (am.Cij (C res)) /\
    np.allclose0 (am.Cij (C res)) = false /\
    Sij (C res) = Some Sm /\
    baseline_stress data = Ok (stress res) /\
    box (obj st' (cell_new res)) =
      new_box Sm (stress res) p_xx p_yy p_zz (box (obj st cell)) /\
    nonpositive (box (obj st' (cell_new res))) = false /\
    item (in_units e_unit (peatom data)) 0 = Ok (ecoh res).
Proof.
  unfold calc_cij. unfold_M. cbn [obj next_id world evals].
  destruct (lmp_run (atoms (obj st cell)) (box (obj st cell)) (world st))
    as [[msg | data] w] eqn:Erun; [discriminate |].
  cbv zeta. unfold measure, baseline_stress.
  destruct (calc_strains _ _ _ _ _ _) as [strains | e] eqn:Es; [| discriminate].
  destruct (calc_Cij _ _ _ _ _ _ _) as [cij | e] eqn:Ec; [| discriminate].
  cbn [am.Cij].
  destruct (np.allclose0 cij) eqn:Ez; [discriminate |].
  destruct (Sij _) as [Sm |] eqn:ES; [| discriminate].
  destruct (calc_stress _ _ _ _ _ _) as [sts | e] eqn:Est; [| discriminate].
  cbn [obj].
  lazymatch goal with |- context [if ?c then _ else _] => destruct c eqn:Epos end;
    [discriminate |].
  cbn [obj next_id world evals].
  destruct (item _ 0) as [pe0 | e] eqn:Ep; [| discriminate].
  intros [= <- <-]. cbn [C stress ecoh cell_new am.Cij obj].
  exists data, w, Sm. rewrite !upd_same. cbn [box bindR].
  repeat split; auto.
  rewrite Es. exact Ec.
Qed.

Lemma item_in_units u xs i y :
  item (in_units u xs) i = Ok y ->
  exists x, nth_error xs i = Some x /\ y = set_in_units x u.
Proof.
  unfold item, in_units. rewrite nth_error_map.
  destruct (nth_error xs i) as [x |]; simpl; [| discriminate].
  intros [= <-]. eauto.
Qed.

(** The stress of the undeformed state is the pressure of the log, in
    working units, with its sign flipped. *)
Lemma baseline_stress_diagonal data sts :
  baseline_stress data = Ok sts ->
  exists pxx0 pyy0 pzz0,
    nth_error (Pxx data) 0 = Some pxx0 /\
    nth_error (Pyy data) 0 = Some pyy0 /\
    nth_error (Pzz data) 0 = Some pzz0 /\
    mget sts 0 0 = -1 * set_in_units pxx0 p_unit /\
    mget sts 1 1 = -1 * set_in_units pyy0 p_unit /\
    mget sts 2 2 = -1 * set_in_units pzz0 p_unit.
Proof.
  unfold baseline_stress, calc_stress.
  destruct (item (in_units p_unit (Pxx data)) 0) as [xx |] eqn:Exx; [| discriminate].
  destruct (item (in_units p_unit (Pxy data)) 0) as [xy |]; [| discriminate].
  destruct (item (in_units p_unit (Pxz data)) 0) as [xz |]; [| discriminate].
  destruct (item (in_units p_unit (Pyy data)) 0) as [yy |] eqn:Eyy; [| discriminate].
  destruct (item (in_units p_unit (Pyz data)) 0) as [yz |]; [| discriminate].
  destruct (item (in_units p_unit (Pzz data)) 0) as [zz |] eqn:Ezz; [| discriminate].
  cbn [bindR]. intros [= <-].
  apply item_in_units in Exx as (pxx0 & Hxx & ->).
  apply item_in_units in Eyy as (pyy0 & Hyy & ->).
  apply item_in_units in Ezz as (pzz0 & Hzz & ->).
  exists pxx0, pyy0, pzz0. repeat split; assumption.
Qed.

(** C7: for each axis, the candidate dimension of a result is the old
    dimension divided by [S[i,0]*s_xx + S[i,1]*s_yy + S[i,2]*s_zz + 1],
    where [S] is the compliance matrix and each [s_jj] is the stress of
    the undeformed state (the pressure of the simulation with its sign
    flipped) plus the target stress of the axis. *)
Theorem C7_new_dimensions cell p_xx p_yy p_zz st res st' :
  calc_cij cell p_xx p_yy p_zz st = (Ok res, st') ->
  exists data w Sm pxx0 pyy0 pzz0,
    lmp_run (atoms (obj st cell)) (box (obj st cell)) (world st) = (inr data, w) /\
    Sij (C res) = Some Sm /\
    nth_error (Pxx data) 0 = Some pxx0 /\
    nth_error (Pyy data) 0 = Some pyy0 /\
    nth_error (Pzz data) 0 = Some pzz0 /\
    let s_xx := - set_in_units pxx0 p_unit + p_xx in
    let s_yy := - set_in_units pyy0 p_unit + p_yy in
    let s_zz := - set_in_units pzz0 p_unit + p_zz in
    let old := box (obj st cell) in
    let new := box (obj st' (cell_new res)) in
    am.a new == am.a old / (mget Sm 0 0 * s_xx + mget Sm 0 1 * s_yy + mget Sm 0 2 * s_zz + 1) /\
    am.b new == am.b old / (mget Sm 1 0 * s_xx + mget Sm 1 1 * s_yy + mget Sm 1 2 * s_zz + 1) /\
    am.c new == am.c old / (mget Sm 2 0 * s_xx + mget Sm 2 1 * s_yy + mget Sm 2 2 * s_zz + 1).
Proof.
  intros H.
  destruct (calc_cij_Ok _ _ _ _ _ _ _ H)
    as (data & w & Sm & Hrun & _ & _ & HS & Hst & Hbox & _).
  destruct (baseline_stress_diagonal _ _ Hst)
    as (pxx0 & pyy0 & pzz0 & Hxx & Hyy & Hzz & Exx & Eyy & Ezz).
  exists data, w, Sm, pxx0, pyy0, pzz0.
  repeat (split; [assumption |]).
  cbv zeta. rewrite Hbox. unfold new_box, new_dim. cbn [am.a am.b am.c].
  rewrite Exx, Eyy, Ezz.
  repeat split; apply Qdiv_comp; try reflexivity; ring.
Qed.

(** ** Closeness *)

(** Component-wise closeness within a relative tolerance alone. *)
Definition within_rtol (rtol : Q) (m1 m2 : matrix) : Prop :=
  Forall2 (Forall2 (fun x y => Qabs (x - y) <= rtol * Qabs y)) m1 m2.

Lemma within_rtol_isclose rtol x y :
  Qabs (x - y) <= rtol * Qabs y -> np.isclose rtol x y = true.
Proof.
  intros H. unfold np.isclose. apply Qle_bool_iff.
  revert H. generalize (Qabs (x - y)) (rtol * Qabs y). intros u w H.
  unfold np.atol. lra.
Qed.

(** Closeness within the relative tolerance passes [np.allclose], whose
    absolute tolerance only adds to the bound. *)
Lemma within_rtol_allclose rtol m1 m2 :
  within_rtol rtol m1 m2 -> np.allclose m1 m2 rtol = true.
Proof.
  unfold within_rtol, np.allclose. induction 1 as [| r1 r2 m1 m2 Hr _ IH]; [reflexivity |].
  simpl. rewrite IH, andb_true_r. clear IH.
  induction Hr as [| x y r1 r2 Hxy _ IH]; [reflexivity |].
  simpl. rewrite IH, andb_true_r. apply within_rtol_isclose, Hxy.
Qed.

(** A matrix of zeros passes [np.allclose(C.Cij, 0.0)]. *)
Lemma zeros_allclose0 (m : matrix) :
  Forall (Forall (fun x => x == 0)) m -> np.allclose0 m = true.
Proof.
  unfold np.allclose0. intros H. apply forallb_forall. intros r Hr.
  rewrite Forall_forall in H. specialize (H r Hr).
  apply forallb_forall. intros x Hx. rewrite Forall_forall in H. specialize (H x Hx).
  unfold np.isclose. apply Qle_bool_iff. rewrite H. vm_compute. discriminate.
Qed.

(** ** The loop of [quick_a_Cij] *)

Section Loop.

Variables (cell : ref) (p_xx p_yy p_zz tol diverge_scale : Q).

Local Abbreviation body := (cycle cell p_xx p_yy p_zz tol diverge_scale).
Local Abbreviation evaluate r := (calc_cij r p_xx p_yy p_zz).

(** The two convergence tests on a result [res] of the evaluator, in the
    store [st] it left: lines 104 and 109. *)
Definition test_A (v : Locals) (res : Results) (st : State) : bool :=
  np.allclose (am.vects (box (obj st (cell_new res))))
              (am.vects (box (obj st (cell_current v)))) tol.

Definition test_B (v : Locals) (res : Results) (st : State) : bool :=
  match cell_old v with
  | Some old => np.allclose (am.vects (box (obj st (cell_new res))))
                            (am.vects (box (obj st old))) tol
  | None => false
  end.

(** Lines 121-126: a dimension of the candidate outside
    [[x0 / diverge_scale, x0 * diverge_scale]], [x0] read from [cell]. *)
Definition out_of_bounds (res : Results) (st : State) : bool :=
  let new := box (obj st (cell_new res)) in
  let ini := box (obj st cell) in
  diverged (am.a new) (am.a ini) diverge_scale
  || diverged (am.b new) (am.b ini) diverge_scale
  || diverged (am.c new) (am.c ini) diverge_scale.

(** The box of lines 111-113. *)
Definition average_box (new old : am.Box) : am.Box :=
  {| am.a := (am.a new + am.a old) / 2;
     am.b := (am.b new + am.b old) / 2;
     am.c := (am.c new + am.c old) / 2 |}.

(** The locals after a turn that ends by [break], and after one that
    reaches line 132. *)
Definition broke (v : Locals) (res : Results) : Locals :=
  {| converged := true; cell_current := cell_current v;
     cell_old := cell_old v; results := Some res |}.

Definition moved_on (v : Locals) (res : Results) : Locals :=
  {| converged := converged v; cell_current := cell_new res;
     cell_old := Some (cell_current v); results := Some res |}.

Lemma cycle_raise v st e st1 :
  evaluate (cell_current v) st = (Raise e, st1) ->
  body v st = (Raise e, st1).
Proof. intros H. unfold cycle, bind. rewrite H. reflexivity. Qed.

Lemma cycle_test_A v st res st1 :
  evaluate (cell_current v) st = (Ok res, st1) ->
  test_A v res st1 = true ->
  body v st = (Ok (Break, broke v res), st1).
Proof.
  intros H HA. unfold cycle, bind. rewrite H. unfold deref at 1 2.
  fold (test_A v res st1). rewrite HA. reflexivity.
Qed.

Lemma cycle_test_B v st res st1 old :
  evaluate (cell_current v) st = (Ok res, st1) ->
  test_A v res st1 = false ->
  cell_old v = Some old ->
  test_B v res st1 = true ->
  body v st =
    match evaluate (cell_current v)
            (snd (box_set (cell_current v)
                    (average_box (box (obj st1 (cell_new res))) (box (obj st1 old))) st1)) with
    | (Ok res', st3) => (Ok (Break, broke v res'), st3)
    | (Raise e, st3) => (Raise e, st3)
    end.
Proof.
  intros H HA Ho HB. unfold cycle, bind. rewrite H. unfold deref at 1 2.
  fold (test_A v res st1). rewrite HA.
  unfold test_B in HB. rewrite Ho in *. unfold deref at 1. rewrite HB.
  unfold average_and_rerun, bind, deref, box_set, ret. cbn [snd].
  fold (average_box (box (obj st1 (cell_new res))) (box (obj st1 old))).
  destruct (calc_cij _ _ _ _ _) as [[res' | e] st3]; reflexivity.
Qed.

Lemma cycle_else v st res st1 :
  evaluate (cell_current v) st = (Ok res, st1) ->
  test_A v res st1 = false ->
  test_B v res st1 = false ->
  body v st =
    if out_of_bounds res st1 then (Raise (RuntimeError "Divergence of box dimensions"), st1)
    else if Qeq_bool (ecoh res) 0 then
      (Raise (RuntimeError "Divergence: cohesive energy is 0"), st1)
    else (Ok (Next, moved_on v res), st1).
Proof.
  intros H HA HB. unfold cycle, bind. rewrite H. unfold deref at 1 2.
  fold (test_A v res st1). rewrite HA.
  assert (E : divergence_tests cell diverge_scale v res st1 =
              if out_of_bounds res st1
              then (Raise (RuntimeError "Divergence of box dimensions"), st1)
              else if Qeq_bool (ecoh res) 0
              then (Raise (RuntimeError "Divergence: cohesive energy is 0"), st1)
              else (Ok (Next, moved_on v res), st1)).
  { unfold divergence_tests, out_of_bounds, bind, deref, raise, ret.
    destruct (diverged (am.a _) _ _); [reflexivity |].
    destruct (diverged (am.b _) _ _); [reflexivity |].
    destruct (diverged (am.c _) _ _); [reflexivity |].
    destruct (Qeq_bool _ _); reflexivity. }
  unfold test_B in HB. destruct (cell_old v) as [old |]; [| exact E].
  unfold deref at 1. rewrite HB. exact E.
Qed.

(** The number of evaluator calls between two states. *)
Definition calls (st st' : State) (n : nat) : Prop :=
  length (evals st') = (n + length (evals st))%nat.

Definition non_convergence : exn :=
  RuntimeError "Failed to converge after 100 cycles".

Lemma evaluation_error_not_non_convergence e :
  evaluation_error e -> e <> non_convergence.
Proof.
  unfold evaluation_error, non_convergence.
  intros [-> | [-> | [-> | [-> | [msg ->]]]]]; discriminate.
Qed.

(** What a turn does: objects older than the call of [quick_a_Cij]
    (below [n0]) keep their value; a turn that moves on has called the
    evaluator once and its candidate, a new object, is the next current
    cell; a turn that breaks has set the flag and a result, after one or
    two calls; a turn that raises does not raise the error of line 138. *)
Lemma cycle_effect v st r st' n0 :
  body v st = (r, st') ->
  (n0 <= cell_current v)%nat -> (n0 <= next_id st)%nat ->
  (forall x, (x < n0)%nat -> obj st' x = obj st x) /\
  (next_id st <= next_id st')%nat /\
  match r with
  | Ok (Next, v') =>
      calls st st' 1 /\ converged v' = converged v /\
      cell_current v' = next_id st /\ cell_old v' = Some (cell_current v) /\
      next_id st' = S (next_id st)
  | Ok (Break, v') =>
      converged v' = true /\ results v' <> None /\ (calls st st' 1 \/ calls st st' 2)
  | Raise e =>
      e <> non_convergence /\ (calls st st' 1 \/ calls st st' 2)
  end.
Proof.
  intros Hb Hcur Hn.
  destruct (evaluate (cell_current v) st) as [[res | e] st1] eqn:He.
  2:{ rewrite (cycle_raise _ _ _ _ He) in Hb. injection Hb as <- <-.
      apply calc_cij_effect in He as (Hev & Hfr & Herr & Hid).
      repeat split.
      - intros x Hx. apply Hfr. lia.
      - lia.
      - apply evaluation_error_not_non_convergence, Herr.
      - left. unfold calls. rewrite Hev. reflexivity. }
  pose proof (calc_cij_effect _ _ _ _ _ _ _ He) as (Hev & Hfr & Hnew & Hid & _).
  assert (Hc1 : calls st st1 1) by (unfold calls; rewrite Hev; reflexivity).
  destruct (test_A v res st1) eqn:HA.
  { rewrite (cycle_test_A _ _ _ _ He HA) in Hb. injection Hb as <- <-.
    repeat split; try (intros x Hx; apply Hfr); try lia; try discriminate; auto. }
  destruct (test_B v res st1) eqn:HB.
  - destruct (cell_old v) as [old |] eqn:Ho; [| unfold test_B in HB; rewrite Ho in HB; discriminate].
    rewrite (cycle_test_B _ _ _ _ _ He HA Ho HB) in Hb.
    destruct (evaluate (cell_current v) _) as [[res' | e] st3] eqn:He2.
    + injection Hb as <- <-.
      apply calc_cij_effect in He2 as (Hev2 & Hfr2 & _ & Hid2 & _).
      unfold box_set in Hev2, Hfr2, Hid2. cbn [snd obj next_id evals] in *.
      repeat split; try discriminate.
      * intros x Hx. rewrite Hfr2 by lia. rewrite upd_other by lia. apply Hfr. lia.
      * lia.
      * right. unfold calls in *. rewrite Hev2. simpl. lia.
    + injection Hb as <- <-.
      apply calc_cij_effect in He2 as (Hev2 & Hfr2 & Herr & Hid2).
      unfold box_set in Hev2, Hfr2, Hid2. cbn [snd obj next_id evals] in *.
      repeat split.
      * intros x Hx. rewrite Hfr2 by lia. rewrite upd_other by lia. apply Hfr. lia.
      * lia.
      * apply evaluation_error_not_non_convergence, Herr.
      * right. unfold calls in *. rewrite Hev2. simpl. lia.
  - rewrite (cycle_else _ _ _ _ He HA HB) in Hb.
    destruct (out_of_bounds res st1); [| destruct (Qeq_bool (ecoh res) 0)];
      injection Hb as <- <-;
      repeat split; try (intros x Hx; apply Hfr); try lia; try discriminate; auto.
Qed.

(** Lines 91-95: the locals and the store when the loop starts. *)
Definition start (st0 : State) : Locals * State :=
  ({| converged := false; cell_current := next_id st0;
      cell_old := None; results := None |},
   snd (deepcopy cell st0)).

(** Lines 135-138. *)
Definition finish (v : Locals) : M Results :=
  if converged v then
    match results v with
    | Some res => ret res
    | None => raise UnboundLocalError
    end
  else raise non_convergence.

Lemma quick_a_Cij_eq st0 :
  quick_a_Cij cell p_xx p_yy p_zz tol diverge_scale st0 =
  bind (for_xrange max_cycles body (fst (start st0))) finish (snd (start st0)).
Proof. reflexivity. Qed.

(** The locals and the store at the start of turn [k] (counted from 0)
    of a loop started in [(v, st)], when the loop gets that far. *)
Fixpoint after (k : nat) (v : Locals) (st : State) : option (Locals * State) :=
  match k with
  | O => Some (v, st)
  | S k' =>
      match body v st with
      | (Ok (Next, v'), st') => after k' v' st'
      | _ => None
      end
  end.

Definition turn (k : nat) (st0 : State) : option (Locals * State) :=
  after k (fst (start st0)) (snd (start st0)).

Lemma for_xrange_after k n v st v' st' :
  after k v st = Some (v', st') ->
  for_xrange (k + n) body v st = for_xrange n body v' st'.
Proof.
  revert v st. induction k as [| k IH]; simpl; intros v st H.
  - injection H as <- <-. reflexivity.
  - unfold bind. destruct (body v st) as [[[[] v1] | e] st1]; try discriminate.
    simpl. apply IH, H.
Qed.

Lemma after_S k v st v' st' :
  after (S k) v st = Some (v', st') <->
  exists v1 st1, after k v st = Some (v1, st1) /\ body v1 st1 = (Ok (Next, v'), st').
Proof.
  revert v st. induction k as [| k IH]; intros v st.
  - simpl. split.
    + intros H. exists v, st. split; [reflexivity |].
      destruct (body v st) as [[[[] v1] | e] st1]; try discriminate.
      injection H as <- <-. reflexivity.
    + intros (v1 & st1 & [= <- <-] & H). rewrite H. reflexivity.
  - change (after (S (S k)) v st) with
      (match body v st with (Ok (Next, w), s) => after (S k) w s | _ => None end).
    change (after (S k) v st) with
      (match body v st with (Ok (Next, w), s) => after k w s | _ => None end).
    destruct (body v st) as [[[[] w] | e] s]; try apply IH;
      split; try discriminate; intros (? & ? & ? & ?); discriminate.
Qed.

(** What holds at the start of every turn. *)
Lemma after_effect k v st v' st' n0 :
  after k v st = Some (v', st') ->
  (n0 <= cell_current v)%nat -> (n0 <= next_id st)%nat ->
  (forall x, (x < n0)%nat -> obj st' x = obj st x) /\
  (n0 <= cell_current v')%nat /\ (next_id st <= next_id st')%nat /\
  calls st st' k /\ converged v' = converged v.
Proof.
  revert v st. induction k as [| k IH]; simpl; intros v st H Hcur Hn.
  - injection H as <- <-. unfold calls. auto.
  - destruct (body v st) as [[[[] v1] | e] st1] eqn:Hb; try discriminate.
    destruct (cycle_effect _ _ _ _ n0 Hb Hcur Hn) as (Hfr & Hid & Hc & Hconv & Hcur1 & _ & Hid1).
    destruct (IH _ _ H) as (Hfr' & Hcur' & Hn' & Hc' & Hconv'); try lia.
    repeat split; try assumption; try congruence; try lia.
    + intros x Hx. rewrite Hfr', Hfr by assumption. reflexivity.
    + unfold calls in *. lia.
Qed.

Lemma start_effect st0 :
  (forall x, (x < next_id st0)%nat -> obj (snd (start st0)) x = obj st0 x) /\
  obj (snd (start st0)) (next_id st0) = obj st0 cell /\
  next_id (snd (start st0)) = S (next_id st0) /\
  evals (snd (start st0)) = evals st0.
Proof.
  unfold start, deepcopy. cbn [snd obj next_id evals world].
  repeat split.
  - intros x Hx. apply upd_other. lia.
  - apply upd_same.
Qed.

Lemma turn_effect k st0 v st :
  turn k st0 = Some (v, st) ->
  (forall x, (x < next_id st0)%nat -> obj st x = obj st0 x) /\
  (next_id st0 <= cell_current v)%nat /\ (next_id st0 < next_id st)%nat /\
  calls st0 st k /\ converged v = false.
Proof.
  unfold turn. intros H.
  destruct (start_effect st0) as (Hfr & _ & Hid & Hev).
  destruct (after_effect _ _ _ _ _ (next_id st0) H) as (Hfr' & Hcur' & Hn' & Hc' & Hconv').
  { simpl. lia. } { lia. }
  split; [intros x Hx; rewrite Hfr', Hfr by assumption; reflexivity |].
  split; [exact Hcur' |]. split; [lia |].
  split; [unfold calls in *; rewrite Hc', Hev; reflexivity | exact Hconv'].
Qed.

(** A turn that does not move on ends the loop, and [quick_a_Cij] with
    it. *)
Lemma run_raise k st0 v st e st' :
  turn k st0 = Some (v, st) -> (k < max_cycles)%nat ->
  body v st = (Raise e, st') ->
  quick_a_Cij cell p_xx p_yy p_zz tol diverge_scale st0 = (Raise e, st').
Proof.
  intros Ht Hk Hb. rewrite quick_a_Cij_eq. unfold bind at 1.
  replace max_cycles with (k + S (max_cycles - S k))%nat by lia.
  rewrite (for_xrange_after _ _ _ _ _ _ Ht).
  cbn [for_xrange]. unfold bind at 1. rewrite Hb. reflexivity.
Qed.

Lemma run_break k st0 v st res st' :
  turn k st0 = Some (v, st) -> (k < max_cycles)%nat ->
  body v st = (Ok (Break, broke v res), st') ->
  quick_a_Cij cell p_xx p_yy p_zz tol diverge_scale st0 = (Ok res, st').
Proof.
  intros Ht Hk Hb. rewrite quick_a_Cij_eq. unfold bind at 1.
  replace max_cycles with (k + S (max_cycles - S k))%nat by lia.
  rewrite (for_xrange_after _ _ _ _ _ _ Ht).
  cbn [for_xrange]. unfold bind at 1. rewrite Hb. reflexivity.
Qed.

Lemma run_exhausted st0 v st :
  turn max_cycles st0 = Some (v, st) ->
  quick_a_Cij cell p_xx p_yy p_zz tol diverge_scale st0 = (Raise non_convergence, st).
Proof.
  intros Ht. rewrite quick_a_Cij_eq. unfold bind at 1.
  replace max_cycles with (max_cycles + 0)%nat at 1 by lia.
  rewrite (for_xrange_after _ _ _ _ _ _ Ht). cbn [for_xrange]. unfold ret.
  apply turn_effect in Ht as (_ & _ & _ & _ & Hconv).
  unfold finish. rewrite Hconv. reflexivity.
Qed.

(** Every way the loop can end. *)
Lemma for_xrange_effect n v st r st' n0 :
  for_xrange n body v st = (r, st') ->
  (n0 <= cell_current v)%nat -> (n0 <= next_id st)%nat ->
  (forall x, (x < n0)%nat -> obj st' x = obj st x) /\
  match r with
  | Ok v' =>
      (converged v' = true /\ results v' <> None /\
       exists m, (m <= n + 1)%nat /\ calls st st' m) \/
      (converged v' = converged v /\ calls st st' n)
  | Raise e =>
      e <> non_convergence /\ exists m, (m <= n + 1)%nat /\ calls st st' m
  end.
Proof.
  revert v st. induction n as [| n IH]; intros v st H Hcur Hn.
  - injection H as <- <-. split; [auto |]. right. unfold calls. auto.
  - cbn [for_xrange] in H. unfold bind in H.
    destruct (body v st) as [[[[] v1] | e] st1] eqn:Hb.
    + cbn [fst snd] in H.
      destruct (cycle_effect _ _ _ _ n0 Hb Hcur Hn) as (Hfr & Hid & Hc & Hconv & Hcur1 & _ & Hid1).
      destruct (IH _ _ H) as (Hfr' & Hr); try lia.
      split; [intros x Hx; rewrite Hfr', Hfr by assumption; reflexivity |].
      unfold calls in *.
      destruct r as [v' | e].
      * destruct Hr as [(Hc1 & Hres & m & Hm & Hcm) | (Hc1 & Hcm)].
        -- left. repeat split; auto. exists (S m). split; lia.
        -- right. split; [congruence | lia].
      * destruct Hr as (Hne & m & Hm & Hcm). split; auto. exists (S m). split; lia.
    + cbn [fst snd] in H. unfold ret in H. injection H as <- <-.
      destruct (cycle_effect _ _ _ _ n0 Hb Hcur Hn) as (Hfr & Hid & Hconv & Hres & Hc).
      split; [assumption |]. left. repeat split; auto.
      destruct Hc; [exists 1%nat | exists 2%nat]; split; auto; lia.
    + injection H as <- <-.
      destruct (cycle_effect _ _ _ _ n0 Hb Hcur Hn) as (Hfr & Hid & Hne & Hc).
      split; [assumption |]. split; auto.
      destruct Hc; [exists 1%nat | exists 2%nat]; split; auto; lia.
Qed.

(** Every way [quick_a_Cij] can end: with the result of a converged loop
    after at most 101 calls, with the error of line 138 after 100 calls,
    or with another error after at most 101 calls; the objects that
    existed before the call keep their value. *)
Lemma quick_a_Cij_effect st0 r st' :
  quick_a_Cij cell p_xx p_yy p_zz tol diverge_scale st0 = (r, st') ->
  (forall x, (x < next_id st0)%nat -> obj st' x = obj st0 x) /\
  ((exists m, (m <= max_cycles + 1)%nat /\ calls st0 st' m /\
              r <> Raise non_convergence) \/
   (r = Raise non_convergence /\ calls st0 st' max_cycles)).
Proof.
  rewrite quick_a_Cij_eq. unfold bind at 1. intros H.
  destruct (start_effect st0) as (Hfr0 & _ & Hid0 & Hev0).
  destruct (for_xrange max_cycles body (fst (start st0)) (snd (start st0)))
    as [[v' | e] st1] eqn:Hf.
  - destruct (for_xrange_effect _ _ _ _ _ (next_id st0) Hf) as (Hfr & Hr);
      [simpl; lia | lia |].
    unfold finish in H.
    destruct Hr as [(Hc & Hres & m & Hm & Hcm) | (Hc & Hcm)].
    + rewrite Hc in H. destruct (results v') as [res |]; [| congruence].
      unfold ret in H. injection H as <- <-.
      split; [intros x Hx; rewrite Hfr, Hfr0 by assumption; reflexivity |].
      left. exists m. unfold calls in *. rewrite Hev0 in Hcm. repeat split; try lia; try congruence; discriminate.
    + cbn [fst converged] in Hc. rewrite Hc in H. unfold raise in H. injection H as <- <-.
      split; [intros x Hx; rewrite Hfr, Hfr0 by assumption; reflexivity |].
      right. unfold calls in *. rewrite Hev0 in Hcm. split; [reflexivity | lia].
  - injection H as <- <-.
    destruct (for_xrange_effect _ _ _ _ _ (next_id st0) Hf) as (Hfr & Hne & m & Hm & Hcm);
      [simpl; lia | lia |].
    split; [intros x Hx; rewrite Hfr, Hfr0 by assumption; reflexivity |].
    left. exists m. unfold calls in *. rewrite Hev0 in Hcm. repeat split; try lia; try congruence.
Qed.

(** *** Convergence to a single size *)

(** Lines 94-100 in the first turn: the copy of the cell is evaluated. *)
Definition first_evaluation : M Results :=
  bind (deepcopy cell) (fun cur => evaluate cur).

Lemma turn_0 st0 : turn 0 st0 = Some (fst (start st0), snd (start st0)).
Proof. reflexivity. Qed.

Lemma first_evaluation_eq st0 :
  first_evaluation st0 = evaluate (cell_current (fst (start st0))) (snd (start st0)).
Proof. reflexivity. Qed.

(** The first call evaluates the value of the caller's cell, and leaves
    the copy it was given as it was. *)
Lemma first_evaluation_effect st0 r st1 :
  first_evaluation st0 = (r, st1) ->
  evals st1 = obj st0 cell :: evals st0 /\
  obj st1 (next_id st0) = obj st0 cell.
Proof.
  rewrite first_evaluation_eq. intros H.
  destruct (start_effect st0) as (_ & Hcopy & Hid & Hev).
  apply calc_cij_effect in H as (Hev1 & Hfr & _).
  cbn [start fst cell_current] in Hev1. rewrite Hcopy, Hev in Hev1.
  split; [exact Hev1 |]. rewrite Hfr by lia. exact Hcopy.
Qed.

(** C1: when the first result of the evaluator carries a next cell
    whose box vectors are within the relative tolerance of those of the
    initial cell, [quick_a_Cij] returns that result, in the state the first
    call left: the evaluator has been called exactly once, on the initial
    cell. *)
Theorem C1_single_point_convergence st0 res st1 :
  first_evaluation st0 = (Ok res, st1) ->
  within_rtol tol (am.vects (box (obj st1 (cell_new res))))
                  (am.vects (box (obj st0 cell))) ->
  quick_a_Cij cell p_xx p_yy p_zz tol diverge_scale st0 = (Ok res, st1) /\
  evals st1 = obj st0 cell :: evals st0.
Proof.
  intros H Hclose.
  destruct (first_evaluation_effect _ _ _ H) as (Hev & Hcur).
  split; [| exact Hev].
  apply (run_break 0 st0 _ _ res st1 (turn_0 st0)); [unfold max_cycles; lia |].
  apply cycle_test_A; [rewrite <- first_evaluation_eq; exact H |].
  unfold test_A. cbn [start fst cell_current]. rewrite Hcur.
  apply within_rtol_allclose, Hclose.
Qed.

(** *** Convergence to two sizes *)

(** The second test fires in turn [k]: the box of the current cell is set
    to the average of the candidate and the old cell, the evaluator is
    called once more, on that cell, and its outcome is that of
    [quick_a_Cij], after [k + 2] calls. *)
Lemma run_test_B k st0 v st old res st1 :
  turn k st0 = Some (v, st) -> (k < max_cycles)%nat ->
  cell_old v = Some old ->
  evaluate (cell_current v) st = (Ok res, st1) ->
  test_A v res st1 = false ->
  test_B v res st1 = true ->
  let new_box := box (obj st1 (cell_new res)) in
  let old_box := box (obj st1 old) in
  let st2 := snd (box_set (cell_current v) (average_box new_box old_box) st1) in
  let final := evaluate (cell_current v) st2 in
  box (obj st2 (cell_current v)) =
    {| am.a := (am.a new_box + am.a old_box) / 2;
       am.b := (am.b new_box + am.b old_box) / 2;
       am.c := (am.c new_box + am.c old_box) / 2 |} /\
  evals (snd final) = obj st2 (cell_current v) :: evals st1 /\
  quick_a_Cij cell p_xx p_yy p_zz tol diverge_scale st0 = final /\
  calls st0 (snd final) (k + 2).
Proof.
  intros Ht Hk Ho He HA HB new_box old_box st2 final.
  pose proof (cycle_test_B _ _ _ _ _ He HA Ho HB) as Hb.
  fold new_box old_box st2 final in Hb.
  destruct final as [r st3] eqn:Hfin.
  pose proof (calc_cij_effect _ _ _ _ _ _ _ Hfin) as (Hev3 & _).
  pose proof (calc_cij_effect _ _ _ _ _ _ _ He) as (Hev1 & _).
  pose proof (turn_effect _ _ _ _ Ht) as (_ & _ & _ & Hc & _).
  split; [unfold st2, box_set; cbn [snd obj]; rewrite upd_same; reflexivity |].
  split; [exact Hev3 |].
  split.
  - destruct r as [res' | e].
    + apply (run_break k st0 v st res' st3 Ht Hk Hb).
    + apply (run_raise k st0 v st e st3 Ht Hk Hb).
  - unfold calls in *. cbn [snd]. rewrite Hev3. unfold st2, box_set. cbn [snd evals length].
    rewrite Hev1. cbn [length]. lia.
Qed.

(** A first turn that moves on. *)
Lemma turn_1 st0 res1 st1 :
  first_evaluation st0 = (Ok res1, st1) ->
  np.allclose (am.vects (box (obj st1 (cell_new res1))))
              (am.vects (box (obj st0 cell))) tol = false ->
  out_of_bounds res1 st1 = false ->
  Qeq_bool (ecoh res1) 0 = false ->
  turn 1 st0 = Some (moved_on (fst (start st0)) res1, st1).
Proof.
  intros H HA Hin He.
  destruct (first_evaluation_effect _ _ _ H) as (_ & Hcur).
  rewrite first_evaluation_eq in H.
  unfold turn. cbn [after].
  rewrite (cycle_else _ _ _ _ H).
  - rewrite Hin, He. reflexivity.
  - unfold test_A. cbn [start fst cell_current]. rewrite Hcur. exact HA.
  - reflexivity.
Qed.

(** An evaluator that alternates: fed the initial cell it returns another
    geometry, which the loop takes as its next cell; fed that one it returns
    the geometry of the initial cell.  The cycle is found at the second
    call, and the third call, on the average, is the last. *)
Lemma run_alternating st0 res1 st1 res2 st2 :
  first_evaluation st0 = (Ok res1, st1) ->
  let A := box (obj st0 cell) in
  let B := box (obj st1 (cell_new res1)) in
  np.allclose (am.vects B) (am.vects A) tol = false ->
  out_of_bounds res1 st1 = false ->
  Qeq_bool (ecoh res1) 0 = false ->
  evaluate (cell_new res1) st1 = (Ok res2, st2) ->
  let A' := box (obj st2 (cell_new res2)) in
  np.allclose (am.vects A') (am.vects B) tol = false ->
  np.allclose (am.vects A') (am.vects A) tol = true ->
  let st3 := snd (box_set (cell_new res1) (average_box A' A) st2) in
  let final := evaluate (cell_new res1) st3 in
  quick_a_Cij cell p_xx p_yy p_zz tol diverge_scale st0 = final /\
  calls st0 (snd final) 3 /\
  evals (snd final) =
    {| box := average_box A' A; atoms := atoms (obj st1 (cell_new res1)) |}
    :: obj st1 (cell_new res1) :: obj st0 cell :: evals st0.
Proof.
  intros H1 A B HA1 Hin He H2 A' HA2 HB2 st3 final.
  pose proof (turn_1 _ _ _ H1 HA1 Hin He) as Ht.
  destruct (first_evaluation_effect _ _ _ H1) as (Hev1 & Hcur).
  pose proof H1 as H1'. rewrite first_evaluation_eq in H1'.
  apply calc_cij_effect in H1' as (_ & _ & Hnew1 & Hid1 & _).
  destruct (start_effect st0) as (_ & _ & Hid0 & _).
  pose proof (calc_cij_effect _ _ _ _ _ _ _ H2) as (Hev2 & Hfr2 & _).
  assert (Hb1 : obj st2 (cell_new res1) = obj st1 (cell_new res1))
    by (apply Hfr2; rewrite Hnew1, Hid1; lia).
  assert (Ha1 : obj st2 (next_id st0) = obj st0 cell)
    by (rewrite Hfr2, Hcur; [reflexivity | rewrite Hid1, Hid0; lia]).
  destruct (run_test_B 1 st0 _ _ (next_id st0) res2 st2 Ht) as (_ & Hev3 & Hq & Hc);
    try assumption; try reflexivity.
  - unfold max_cycles. lia.
  - unfold test_A. cbn [moved_on cell_current]. rewrite Hb1. exact HA2.
  - unfold test_B. cbn [moved_on cell_old start fst cell_current]. rewrite Ha1. exact HB2.
  - cbn [moved_on cell_current] in Hev3, Hq, Hc. rewrite Ha1 in Hev3, Hq, Hc.
    fold A A' st3 final in Hev3, Hq, Hc.
    split; [exact Hq |]. split; [exact Hc |].
    rewrite Hev3, Hev2, Hev1. unfold st3, box_set. cbn [snd obj].
    rewrite upd_same, Hb1. reflexivity.
Qed.

(** C2: whenever the old cell is set and the candidate matches it but
    not the current cell, [quick_a_Cij] sets the box of the current cell to
    the arithmetic means of the dimensions of the candidate and the old
    cell, calls the evaluator exactly once more, on that cell, and ends as
    that call ends: with its result, when there is one.  With an evaluator
    that alternates between two cells the cycle is found at the second
    call, and [quick_a_Cij] makes three. *)
Theorem C2_oscillation_average :
  (forall k st0 v st old res st1,
      turn k st0 = Some (v, st) -> (k < max_cycles)%nat ->
      cell_old v = Some old ->
      evaluate (cell_current v) st = (Ok res, st1) ->
      test_A v res st1 = false ->
      test_B v res st1 = true ->
      let new_box := box (obj st1 (cell_new res)) in
      let old_box := box (obj st1 old) in
      let st2 := snd (box_set (cell_current v) (average_box new_box old_box) st1) in
      let final := evaluate (cell_current v) st2 in
      box (obj st2 (cell_current v)) =
        {| am.a := (am.a new_box + am.a old_box) / 2;
           am.b := (am.b new_box + am.b old_box) / 2;
           am.c := (am.c new_box + am.c old_box) / 2 |} /\
      evals (snd final) = obj st2 (cell_current v) :: evals st1 /\
      quick_a_Cij cell p_xx p_yy p_zz tol diverge_scale st0 = final /\
      calls st0 (snd final) (k + 2)) /\
  (forall st0 res1 st1 res2 st2,
      first_evaluation st0 = (Ok res1, st1) ->
      let A := box (obj st0 cell) in
      let B := box (obj st1 (cell_new res1)) in
      np.allclose (am.vects B) (am.vects A) tol = false ->
      out_of_bounds res1 st1 = false ->
      Qeq_bool (ecoh res1) 0 = false ->
      evaluate (cell_new res1) st1 = (Ok res2, st2) ->
      let A' := box (obj st2 (cell_new res2)) in
      np.allclose (am.vects A') (am.vects B) tol = false ->
      np.allclose (am.vects A') (am.vects A) tol = true ->
      let st3 := snd (box_set (cell_new res1) (average_box A' A) st2) in
      let final := evaluate (cell_new res1) st3 in
      quick_a_Cij cell p_xx p_yy p_zz tol diverge_scale st0 = final /\
      calls st0 (snd final) 3 /\
      evals (snd final) =
        {| box := average_box A' A; atoms := atoms (obj st1 (cell_new res1)) |}
        :: obj st1 (cell_new res1) :: obj st0 cell :: evals st0).
Proof.
  split.
  - intros. eapply run_test_B; eassumption.
  - intros. eapply run_alternating; eassumption.
Qed.

(** *** Divergence *)

(** A dimension [x] outside [[x0 / diverge_scale, x0 * diverge_scale]]. *)
Definition outside (x x0 : Q) : Prop :=
  x < x0 / diverge_scale \/ x0 * diverge_scale < x.

Lemma diverged_iff x x0 : diverged x x0 diverge_scale = true <-> outside x x0.
Proof.
  unfold diverged, outside. rewrite orb_true_iff, !Qlt_bool_iff. reflexivity.
Qed.

(** In a turn where no convergence test fires the divergence tests
    decide. *)
Lemma run_else k st0 v st res st1 :
  turn k st0 = Some (v, st) -> (k < max_cycles)%nat ->
  evaluate (cell_current v) st = (Ok res, st1) ->
  test_A v res st1 = false ->
  test_B v res st1 = false ->
  (out_of_bounds res st1 = true ->
   quick_a_Cij cell p_xx p_yy p_zz tol diverge_scale st0 =
     (Raise (RuntimeError "Divergence of box dimensions"), st1)) /\
  (out_of_bounds res st1 = false -> Qeq_bool (ecoh res) 0 = true ->
   quick_a_Cij cell p_xx p_yy p_zz tol diverge_scale st0 =
     (Raise (RuntimeError "Divergence: cohesive energy is 0"), st1)) /\
  (out_of_bounds res st1 = false -> Qeq_bool (ecoh res) 0 = false ->
   turn (S k) st0 = Some (moved_on v res, st1)) /\
  calls st0 st1 (k + 1).
Proof.
  intros Ht Hk He HA HB.
  pose proof (cycle_else _ _ _ _ He HA HB) as Hb.
  repeat split.
  - intros Ho. rewrite Ho in Hb. apply (run_raise k st0 v st _ _ Ht Hk Hb).
  - intros Ho Hz. rewrite Ho, Hz in Hb. apply (run_raise k st0 v st _ _ Ht Hk Hb).
  - intros Ho Hz. rewrite Ho, Hz in Hb. apply after_S. exists v, st. split; assumption.
  - apply turn_effect in Ht as (_ & _ & _ & Hc & _).
    apply calc_cij_effect in He as (Hev & _).
    unfold calls in *. rewrite Hev. cbn [length]. lia.
Qed.

(** C3, amended: in every turn in which neither convergence test fires
    and the three dimensions of the candidate are within the bounds, a
    cohesive energy of zero makes [quick_a_Cij] raise
    [RuntimeError('Divergence: cohesive energy is 0')], with no further
    call of the evaluator. *)
Theorem C3_zero_energy k st0 v st res st1 :
  turn k st0 = Some (v, st) -> (k < max_cycles)%nat ->
  evaluate (cell_current v) st = (Ok res, st1) ->
  test_A v res st1 = false ->
  test_B v res st1 = false ->
  out_of_bounds res st1 = false ->
  ecoh res == 0 ->
  quick_a_Cij cell p_xx p_yy p_zz tol diverge_scale st0 =
    (Raise (RuntimeError "Divergence: cohesive energy is 0"), st1).
Proof.
  intros Ht Hk He HA HB Ho Hz.
  apply (run_else k st0 v st res st1 Ht Hk He HA HB); [exact Ho |].
  apply Qeq_bool_iff, Hz.
Qed.

(** C5: in every turn in which neither convergence test fires, a
    dimension of the candidate outside
    [[x0 / diverge_scale, x0 * diverge_scale]], with [x0] the dimension of
    the cell [quick_a_Cij] was called on, makes it raise
    [RuntimeError('Divergence of box dimensions')] in that turn: the turns
    so far are all the calls of the evaluator, at most [max_cycles]. *)
Theorem C5_divergence k st0 v st res st1 :
  (cell < next_id st0)%nat ->
  turn k st0 = Some (v, st) -> (k < max_cycles)%nat ->
  evaluate (cell_current v) st = (Ok res, st1) ->
  test_A v res st1 = false ->
  test_B v res st1 = false ->
  let new := box (obj st1 (cell_new res)) in
  let initial := box (obj st0 cell) in
  outside (am.a new) (am.a initial) \/
  outside (am.b new) (am.b initial) \/
  outside (am.c new) (am.c initial) ->
  quick_a_Cij cell p_xx p_yy p_zz tol diverge_scale st0 =
    (Raise (RuntimeError "Divergence of box dimensions"), st1) /\
  calls st0 st1 (k + 1) /\ (k + 1 <= max_cycles)%nat.
Proof.
  intros Hcell Ht Hk He HA HB new initial Hout.
  destruct (run_else k st0 v st res st1 Ht Hk He HA HB) as (Hraise & _ & _ & Hc).
  split; [| split; [exact Hc | lia]].
  apply Hraise.
  pose proof (turn_effect _ _ _ _ Ht) as (Hfr & _ & Hid & _).
  pose proof (calc_cij_effect _ _ _ _ _ _ _ He) as (_ & Hfr1 & _).
  unfold out_of_bounds. rewrite (Hfr1 cell) by lia. rewrite (Hfr cell) by assumption.
  fold new initial. cbv zeta.
  rewrite !orb_true_iff, !diverged_iff. tauto.
Qed.

(** *** Non-convergence *)

(** A turn in which the evaluator returns a result, neither convergence
    test is satisfied and no divergence test triggers. *)
Definition quiet_turn (v : Locals) (st : State) : Prop :=
  exists res st1,
    evaluate (cell_current v) st = (Ok res, st1) /\
    test_A v res st1 = false /\ test_B v res st1 = false /\
    out_of_bounds res st1 = false /\ Qeq_bool (ecoh res) 0 = false.

Lemma quiet_turn_moves v st :
  quiet_turn v st ->
  exists res st1, body v st = (Ok (Next, moved_on v res), st1).
Proof.
  intros (res & st1 & He & HA & HB & Ho & Hz). exists res, st1.
  rewrite (cycle_else _ _ _ _ He HA HB), Ho, Hz. reflexivity.
Qed.

(** The same, decided for [n] turns in a row. *)
Fixpoint quietb (n : nat) (v : Locals) (st : State) : bool :=
  match n with
  | O => true
  | S n' =>
      match evaluate (cell_current v) st with
      | (Ok res, st1) =>
          negb (test_A v res st1) && negb (test_B v res st1)
          && negb (out_of_bounds res st1) && negb (Qeq_bool (ecoh res) 0)
          && quietb n' (moved_on v res) st1
      | _ => false
      end
  end.

Lemma quietb_sound n v st :
  quietb n v st = true ->
  forall k, (k < n)%nat ->
  exists v' st', after k v st = Some (v', st') /\ quiet_turn v' st'.
Proof.
  revert v st. induction n as [| n IH]; intros v st H k Hk; [lia |].
  cbn [quietb] in H.
  destruct (evaluate (cell_current v) st) as [[res | e] st1] eqn:He; [| discriminate].
  rewrite !andb_true_iff, !negb_true_iff in H.
  destruct H as ((((HA & HB) & Ho) & Hz) & Hq).
  destruct k as [| k].
  - exists v, st. split; [reflexivity |]. exists res, st1. auto.
  - destruct (IH _ _ Hq k) as (v' & st' & Ha & Hq'); [lia |].
    exists v', st'. split; [| exact Hq'].
    cbn [after]. rewrite (cycle_else _ _ _ _ He HA HB), Ho, Hz. exact Ha.
Qed.

Lemma quiet_reaches st0 n :
  (forall k, (k < n)%nat -> exists v st, turn k st0 = Some (v, st) /\ quiet_turn v st) ->
  exists v st, turn n st0 = Some (v, st).
Proof.
  induction n as [| n IH]; intros H.
  - eexists _, _. reflexivity.
  - destruct (H n) as (v & st & Ht & Hq); [lia |].
    destruct (quiet_turn_moves _ _ Hq) as (res & st1 & Hb).
    exists (moved_on v res), st1. apply after_S. eauto.
Qed.

(** C4: when in every turn the evaluator returns, neither convergence
    test is satisfied and no divergence test triggers, [quick_a_Cij] raises
    [RuntimeError('Failed to converge after 100 cycles')] after exactly
    [max_cycles = 100] calls of the evaluator; and it never raises that
    error after another number of calls. *)
Theorem C4_non_convergence st0 :
  ((forall k, (k < max_cycles)%nat ->
      exists v st, turn k st0 = Some (v, st) /\ quiet_turn v st) ->
   exists st',
     quick_a_Cij cell p_xx p_yy p_zz tol diverge_scale st0 =
       (Raise (RuntimeError "Failed to converge after 100 cycles"), st') /\
     calls st0 st' 100) /\
  (forall st',
     quick_a_Cij cell p_xx p_yy p_zz tol diverge_scale st0 =
       (Raise (RuntimeError "Failed to converge after 100 cycles"), st') ->
     calls st0 st' 100).
Proof.
  split.
  - intros H. destruct (quiet_reaches st0 max_cycles H) as (v & st & Ht).
    exists st. split; [apply run_exhausted with (v := v); exact Ht |].
    apply turn_effect in Ht as (_ & _ & _ & Hc & _). exact Hc.
  - intros st' H.
    apply quick_a_Cij_effect in H as (_ & [(m & _ & _ & Hne) | (_ & Hc)]).
    + exfalso. apply Hne. reflexivity.
    + exact Hc.
Qed.

(** *** Errors of the evaluator *)

(** C6: [calc_cij] raises when the symmetrized stiffness matrix is all
    zero, when the compliance matrix cannot be taken, and when a new
    dimension is not positive; and an error of [calc_cij], in the loop or
    in the call on the averaged cell, is the error of [quick_a_Cij], which
    ends in the state that call left. *)
Theorem C6_evaluator_errors :
  (forall c st data w cij,
      lmp_run (atoms (obj st c)) (box (obj st c)) (world st) = (inr data, w) ->
      measure data = Ok cij ->
      (Forall (Forall (fun x => x == 0)) cij ->
       fst (evaluate c st) =
         Raise (RuntimeError "Divergence of elastic constants to <= 0")) /\
      (Sij {| am.Cij := cij |} = None ->
       exists msg, fst (evaluate c st) = Raise (RuntimeError msg)) /\
      (forall Sm sts,
         Sij {| am.Cij := cij |} = Some Sm ->
         baseline_stress data = Ok sts ->
         let new := new_box Sm sts p_xx p_yy p_zz (box (obj st c)) in
         am.a new <= 0 \/ am.b new <= 0 \/ am.c new <= 0 ->
         exists msg, fst (evaluate c st) = Raise (RuntimeError msg))) /\
  (forall k st0 v st e st1,
      turn k st0 = Some (v, st) -> (k < max_cycles)%nat ->
      evaluate (cell_current v) st = (Raise e, st1) ->
      quick_a_Cij cell p_xx p_yy p_zz tol diverge_scale st0 = (Raise e, st1)) /\
  (forall k st0 v st old res st1 e st3,
      turn k st0 = Some (v, st) -> (k < max_cycles)%nat ->
      cell_old v = Some old ->
      evaluate (cell_current v) st = (Ok res, st1) ->
      test_A v res st1 = false ->
      test_B v res st1 = true ->
      evaluate (cell_current v)
        (snd (box_set (cell_current v)
                (average_box (box (obj st1 (cell_new res))) (box (obj st1 old))) st1))
        = (Raise e, st3) ->
      quick_a_Cij cell p_xx p_yy p_zz tol diverge_scale st0 = (Raise e, st3)).
Proof.
  split; [| split].
  - intros c st data w cij Hrun Hm.
    pose proof (calc_cij_measured c p_xx p_yy p_zz st data w cij Hrun Hm) as E.
    repeat split.
    + intros Hz. rewrite E, (zeros_allclose0 _ Hz). reflexivity.
    + intros HS. rewrite E, HS. destruct (np.allclose0 cij); eauto.
    + intros Sm sts HS Hst new Hle. rewrite E, HS, Hst.
      destruct (np.allclose0 cij); [eauto |].
      assert (Hn : nonpositive new = true).
      { unfold nonpositive. rewrite !orb_true_iff, !Qle_bool_iff. tauto. }
      fold new. rewrite Hn. eauto.
  - intros k st0 v st e st1 Ht Hk He.
    apply (run_raise k st0 v st e st1 Ht Hk). apply cycle_raise, He.
  - intros k st0 v st old res st1 e st3 Ht Hk Ho He HA HB He2.
    destruct (run_test_B k st0 v st old res st1 Ht Hk Ho He HA HB) as (_ & _ & Hq & _).
    rewrite Hq. exact He2.
Qed.

(** *** The store *)

(** A turn changes no object that existed before it, but the current
    cell when the second convergence test fires. *)
Lemma cycle_frame v st r st' :
  body v st = (r, st') ->
  forall x, (x < next_id st)%nat ->
  x <> cell_current v \/
  (forall res st1, evaluate (cell_current v) st = (Ok res, st1) ->
                   test_A v res st1 = true \/ test_B v res st1 = false) ->
  obj st' x = obj st x.
Proof.
  intros Hb x Hx Hor.
  destruct (evaluate (cell_current v) st) as [[res | e] st1] eqn:He.
  2:{ rewrite (cycle_raise _ _ _ _ He) in Hb. injection Hb as <- <-.
      apply calc_cij_effect in He as (_ & Hfr & _). apply Hfr. lia. }
  pose proof (calc_cij_effect _ _ _ _ _ _ _ He) as (_ & Hfr & _ & Hid & _).
  destruct (test_A v res st1) eqn:HA.
  { rewrite (cycle_test_A _ _ _ _ He HA) in Hb. injection Hb as <- <-. apply Hfr. lia. }
  destruct (test_B v res st1) eqn:HB.
  - destruct Hor as [Hne | Hno];
      [| destruct (Hno res st1 eq_refl); congruence].
    destruct (cell_old v) as [old |] eqn:Ho;
      [| unfold test_B in HB; rewrite Ho in HB; discriminate].
    rewrite (cycle_test_B _ _ _ _ _ He HA Ho HB) in Hb.
    destruct (evaluate (cell_current v) _) as [[res' | e] st3] eqn:He2;
      injection Hb as <- <-;
      apply calc_cij_effect in He2 as (_ & Hfr2 & _);
      unfold box_set in Hfr2; cbn [snd obj next_id] in Hfr2;
      rewrite Hfr2 by lia; rewrite upd_other by assumption; apply Hfr; lia.
  - rewrite (cycle_else _ _ _ _ He HA HB) in Hb.
    destruct (out_of_bounds res st1); [| destruct (Qeq_bool (ecoh res) 0)];
      injection Hb as <- <-; apply Hfr; lia.
Qed.

(** C9, amended: no object that exists when [quick_a_Cij] is called, the
    cell it is called on among them, is changed by it; a call of the
    evaluator changes no object that exists and yields its candidate as a
    new object; and a turn of the loop changes no object that exists,
    except that the averaging step of the second convergence test sets the
    box of the current cell in place. *)
Theorem C9_frame :
  (forall st0 x, (x < next_id st0)%nat ->
      obj (snd (quick_a_Cij cell p_xx p_yy p_zz tol diverge_scale st0)) x = obj st0 x) /\
  (forall c st x, (x < next_id st)%nat ->
      obj (snd (evaluate c st)) x = obj st x) /\
  (forall c st res st', evaluate c st = (Ok res, st') ->
      cell_new res = next_id st /\ next_id st' = S (next_id st)) /\
  (forall v st r st', body v st = (r, st') ->
      forall x, (x < next_id st)%nat ->
      x <> cell_current v \/
      (forall res st1, evaluate (cell_current v) st = (Ok res, st1) ->
                       test_A v res st1 = true \/ test_B v res st1 = false) ->
      obj st' x = obj st x).
Proof.
  split; [| split; [| split]].
  - intros st0 x Hx.
    destruct (quick_a_Cij cell p_xx p_yy p_zz tol diverge_scale st0) as [r st'] eqn:H.
    apply quick_a_Cij_effect in H as (Hfr & _). apply Hfr, Hx.
  - intros c st x Hx. destruct (evaluate c st) as [r st'] eqn:H.
    apply calc_cij_effect in H as (_ & Hfr & _). apply Hfr. lia.
  - intros c st res st' H.
    apply calc_cij_effect in H as (_ & _ & Hnew & Hid & _). split; assumption.
  - apply cycle_frame.
Qed.

(** *** Termination *)

(** C10: [quick_a_Cij] calls the evaluator at most 101 times, the 100
    turns of the loop and the call on the averaged cell, and ends with a
    result or with an error. *)
Theorem C10_bounded_calls st0 :
  let final := quick_a_Cij cell p_xx p_yy p_zz tol diverge_scale st0 in
  (exists m, (m <= 101)%nat /\ calls st0 (snd final) m) /\
  ((exists res, fst final = Ok res) \/ (exists e, fst final = Raise e)).
Proof.
  intros final. destruct final as [r st'] eqn:H. unfold final in H.
  apply quick_a_Cij_effect in H as (_ & [(m & Hm & Hc & _) | (_ & Hc)]).
  - split; [exists m; split; [exact Hm | exact Hc] |].
    destruct r; [left | right]; eexists; reflexivity.
  - split; [exists max_cycles; split; [unfold max_cycles; lia | exact Hc] |].
    destruct r; [left | right]; eexists; reflexivity.
Qed.

End Loop.

End Facts.

(** * The properties on the scripted evaluator *)

Ltac by_running := vm_compute; reflexivity.

Ltac close_enough :=
  repeat constructor; apply Qle_bool_iff; by_running.

(** C1 on [script_converged]: one call, whose result is returned. *)
Lemma C1_witness :
  let run1 := first_call script_converged in
  refine script_converged = (Ok (result_of (fst run1)), snd run1) /\
  evals (snd run1) = [cube 1].
Proof.
  cbv zeta.
  apply (C1_single_point_convergence (env := scripted) 0%nat 0 0 0 tol_default 3
           (one_cell 1 script_converged)).
  - by_running.
  - close_enough.
Defined.

(** C2 on [script_alternating]: the edge goes from 1 to 2 and back; the
    second call finds the cycle, the third, on the average of the candidate
    and the old cell, is the last. *)
Lemma C2_witness :
  let st0 := one_cell 1 script_alternating in
  let run1 := first_call script_alternating in
  let res1 := result_of (fst run1) in
  let run2 := calc_cij (env := scripted) (cell_new res1) 0 0 0 (snd run1) in
  let res2 := result_of (fst run2) in
  let A := box (obj st0 0%nat) in
  let A' := box (obj (snd run2) (cell_new res2)) in
  let st3 := snd (box_set (cell_new res1) (average_box A' A) (snd run2)) in
  let final := calc_cij (env := scripted) (cell_new res1) 0 0 0 st3 in
  refine script_alternating = final /\ calls st0 (snd final) 3.
Proof.
  cbv zeta.
  destruct (proj2 (C2_oscillation_average (env := scripted) 0%nat 0 0 0 tol_default 3)
              (one_cell 1 script_alternating)
              (result_of (fst (first_call script_alternating)))
              (snd (first_call script_alternating))
              (result_of (fst (calc_cij (env := scripted)
                 (cell_new (result_of (fst (first_call script_alternating)))) 0 0 0
                 (snd (first_call script_alternating)))))
              (snd (calc_cij (env := scripted)
                 (cell_new (result_of (fst (first_call script_alternating)))) 0 0 0
                 (snd (first_call script_alternating)))))
    as (Hq & Hc & _); try by_running.
  split; [exact Hq | exact Hc].
Defined.

(** C3, as amended, on [script_zero_energy_moving]: the candidate is
    neither the current cell nor out of bounds, and its energy is zero. *)
Lemma C3_witness :
  refine script_zero_energy_moving =
    (Raise (RuntimeError "Divergence: cohesive energy is 0"),
     snd (first_call script_zero_energy_moving)).
Proof.
  apply (C3_zero_energy (env := scripted) 0%nat 0 0 0 tol_default 3 0
           (one_cell 1 script_zero_energy_moving) _ _
           (result_of (fst (first_call script_zero_energy_moving)))
           (snd (first_call script_zero_energy_moving))
           (turn_0 0%nat 0 0 0 tol_default 3 _));
    try by_running.
  unfold max_cycles. lia.
Defined.

(** C3 as stated fails on [script_zero_energy_converged]: the first
    result has a cohesive energy of zero, its candidate matches the current
    cell, and [quick_a_Cij] returns it. *)
Lemma C3_counterexample :
  exists res,
    fst (first_call script_zero_energy_converged) = Ok res /\
    ecoh res == 0 /\
    fst (refine script_zero_energy_converged) = Ok res.
Proof.
  exists (result_of (fst (first_call script_zero_energy_converged))).
  repeat split; by_running.
Qed.

(** C4 on [script_wandering]: a hundred turns, none of which converges
    or diverges. *)
Lemma C4_witness :
  exists st',
    refine script_wandering =
      (Raise (RuntimeError "Failed to converge after 100 cycles"), st') /\
    calls (one_cell 1 script_wandering) st' 100.
Proof.
  apply (proj1 (C4_non_convergence (env := scripted) 0%nat 0 0 0 tol_default 3
                  (one_cell 1 script_wandering))).
  intros k Hk.
  apply (quietb_sound (env := scripted) 0%nat 0 0 0 tol_default 3 max_cycles);
    [by_running | exact Hk].
Defined.

(** C5 on [script_diverging]: the candidate has an edge of 4, more than
    three times the initial edge. *)
Lemma C5_witness :
  refine script_diverging =
    (Raise (RuntimeError "Divergence of box dimensions"),
     snd (first_call script_diverging)) /\
  calls (one_cell 1 script_diverging) (snd (first_call script_diverging)) 1 /\
  (1 <= max_cycles)%nat.
Proof.
  apply (C5_divergence (env := scripted) 0%nat 0 0 0 tol_default 3 0
           (one_cell 1 script_diverging)
           (fst (start 0%nat (one_cell 1 script_diverging)))
           (snd (start 0%nat (one_cell 1 script_diverging)))
           (result_of (fst (first_call script_diverging)))
           (snd (first_call script_diverging))).
  - simpl. lia.
  - apply turn_0.
  - unfold max_cycles. lia.
  - by_running.
  - by_running.
  - by_running.
  - left. right. apply Qlt_bool_iff. by_running.
Defined.

(** C6 on three scripts: no elastic response; a singular stiffness
    matrix; a pressure that would turn the cell inside out, whose error is
    the one [quick_a_Cij] ends with. *)
Lemma C6_witness :
  fst (calc_cij (env := scripted) 0%nat 0 0 0 (one_cell 1 script_no_response)) =
    Raise (RuntimeError "Divergence of elastic constants to <= 0") /\
  (exists msg,
     fst (calc_cij (env := scripted) 0%nat 0 0 0 (one_cell 1 script_singular)) =
       Raise (RuntimeError msg)) /\
  (exists msg,
     fst (calc_cij (env := scripted) 0%nat 0 0 0 (one_cell 1 script_collapse)) =
       Raise (RuntimeError msg)) /\
  refine script_collapse =
    (Raise (RuntimeError "Divergence of box dimensions to <= 0"),
     snd (first_call script_collapse)).
Proof.
  pose proof (C6_evaluator_errors (env := scripted) 0%nat 0 0 0 tol_default 3)
    as (Heval & Hloop & _).
  split; [| split; [| split]].
  - apply (proj1 (Heval 0%nat (one_cell 1 script_no_response)
                    (sample_log 0 0 (-3)) []
                    (matrix_of (measure (env := scripted) (sample_log 0 0 (-3))))
                    eq_refl ltac:(by_running))).
    vm_compute. repeat constructor.
  - apply (proj1 (proj2 (Heval 0%nat (one_cell 1 script_singular)
                    (uniaxial_log 1 0 (-3)) []
                    (matrix_of (measure (env := scripted) (uniaxial_log 1 0 (-3))))
                    eq_refl ltac:(by_running)))).
    by_running.
  - apply (proj2 (proj2 (Heval 0%nat (one_cell 1 script_collapse)
                    (sample_log 1 2 (-3)) []
                    (matrix_of (measure (env := scripted) (sample_log 1 2 (-3))))
                    eq_refl ltac:(by_running)))
             (identity 6)
             (matrix_of (baseline_stress (env := scripted) (sample_log 1 2 (-3))))).
    + by_running.
    + by_running.
    + left. apply Qle_bool_iff. by_running.
  - apply (Hloop 0%nat (one_cell 1 script_collapse) _ _ _ _
             (turn_0 0%nat 0 0 0 tol_default 3 _)).
    + unfold max_cycles. lia.
    + by_running.
Defined.

(** C7 on [script_pressed]: a pressure of 1/2 on a cube of stiffness
    70. *)
Lemma C7_witness :
  let st := one_cell 1 script_pressed in
  let run := calc_cij (env := scripted) 0%nat 0 0 0 st in
  exists Sm,
    @Sij scripted (C (result_of (fst run))) = Some Sm /\
    am.a (box (obj (snd run) (cell_new (result_of (fst run))))) ==
      1 / (mget Sm 0 0 * (- (1 # 2) + 0) + mget Sm 0 1 * (- (1 # 2) + 0)
           + mget Sm 0 2 * (- (1 # 2) + 0) + 1).
Proof.
  cbv zeta.
  destruct (C7_new_dimensions (env := scripted) 0%nat 0 0 0
              (one_cell 1 script_pressed)
              (result_of (fst (calc_cij (env := scripted) 0%nat 0 0 0
                                 (one_cell 1 script_pressed))))
              (snd (calc_cij (env := scripted) 0%nat 0 0 0 (one_cell 1 script_pressed))))
    as (data & w & Sm & pxx0 & pyy0 & pzz0 & Hrun & HS & Hx & Hy & Hz & Ha & _);
    [by_running |].
  vm_compute in Hrun. injection Hrun as <- <-.
  vm_compute in Hx. injection Hx as <-.
  vm_compute in Hy. injection Hy as <-.
  vm_compute in Hz. injection Hz as <-.
  exists Sm. split; [exact HS | exact Ha].
Defined.

(** C8 on [sample_raw]. *)
Lemma C8_witness :
  (forall i j, (i < 6)%nat -> (j < 6)%nat ->
     mget (symmetrize sample_raw) i j
     == (mget sample_raw i j + mget sample_raw j i) / 2) /\
  (forall i j, (i < 6)%nat -> (j < 6)%nat ->
     mget (symmetrize sample_raw) i j = mget (symmetrize sample_raw) j i) /\
  meq 6 6 (symmetrize (symmetrize sample_raw)) (symmetrize sample_raw).
Proof.
  apply (C8_symmetrization sample_raw).
  split; [reflexivity | repeat constructor].
Defined.

(** C9 as stated fails on [script_alternating]: the candidate that the
    first call returns, an object of edge 2, is the current cell of the
    second turn, whose averaging step sets its box in place: when
    [quick_a_Cij] ends, the same object has an edge of 1. *)
Lemma C9_counterexample :
  let run1 := first_call script_alternating in
  exists res1,
    fst run1 = Ok res1 /\
    (cell_new res1 < next_id (snd run1))%nat /\
    am.a (box (obj (snd run1) (cell_new res1))) == 2 /\
    am.a (box (obj (snd (refine script_alternating)) (cell_new res1))) == 1.
Proof.
  exists (result_of (fst (first_call script_alternating))).
  split; [by_running |]. split; [vm_compute; lia |]. split; by_running.
Qed.

(** C9, as amended, on [script_alternating]: the cell of the caller is
    as it was. *)
Lemma C9_witness :
  obj (snd (refine script_alternating)) 0%nat = obj (one_cell 1 script_alternating) 0%nat.
Proof.
  apply (proj1 (C9_frame (env := scripted) 0%nat 0 0 0 tol_default 3)
           (one_cell 1 script_alternating) 0%nat).
  simpl. lia.
Defined.

(** * Further properties of the calculation *)

(** X9: the symmetrization keeps the diagonal as it is, and changes no
    entry of a matrix that is symmetric already. *)
Theorem symmetrize_of_symmetric (raw : matrix) :
  shape 6 6 raw ->
  (forall i, (i < 6)%nat -> mget (symmetrize raw) i i = mget raw i i) /\
  ((forall i j, (i < 6)%nat -> (j < 6)%nat -> mget raw i j == mget raw j i) ->
   meq 6 6 (symmetrize raw) raw).
Proof.
  intros H. split.
  - intros i Hi. explode_matrix raw H. index_below i 6%nat; reflexivity.
  - intros Hs i j Hi Hj. rewrite (symmetrize_spec raw i j H Hi Hj).
    unfold symmetrized_spec. rewrite (Hs j i Hj Hi).
    generalize (mget raw i j). intros x. field.
Qed.

Section Evaluator.

Context {env : Env}.

Lemma bindR_Ok {A B} (m : Result A) (k : A -> Result B) (y : B) :
  bindR m k = Ok y -> exists x, m = Ok x /\ k x = Ok y.
Proof. destruct m as [x | e]; simpl; [eauto | discriminate]. Qed.

Lemma measure_symmetrized (data : Log) (cij : matrix) :
  measure data = Ok cij -> exists raw, shape 6 6 raw /\ cij = symmetrize raw.
Proof.
  unfold measure, calc_Cij. intros H.
  apply bindR_Ok in H as (strains & _ & H).
  apply bindR_Ok in H as (raw & Hraw & [= <-]).
  exists raw. split; [eapply raw_cij_shape; exact Hraw | reflexivity].
Qed.

(** X1: the stiffness matrix of every result of [calc_cij] is a 6x6
    matrix, symmetric, and not close to zero in all its entries. *)
Theorem calc_cij_stiffness cell p_xx p_yy p_zz st res st' :
  calc_cij cell p_xx p_yy p_zz st = (Ok res, st') ->
  shape 6 6 (am.Cij (C res)) /\
  (forall i j, (i < 6)%nat -> (j < 6)%nat ->
     mget (am.Cij (C res)) i j = mget (am.Cij (C res)) j i) /\
  np.allclose0 (am.Cij (C res)) = false.
Proof.
  intros H.
  destruct (calc_cij_Ok _ _ _ _ _ _ _ H) as (data & w & Sm & _ & Hm & Hz & _).
  destruct (measure_symmetrized _ _ Hm) as (raw & Hraw & E).
  rewrite E in *. split; [apply symmetrize_shape, Hraw |]. split; [| exact Hz].
  intros i j Hi Hj. apply symmetrize_symmetric; assumption.
Qed.

(** A box whose three lengths are positive. *)
Definition positive (bx : am.Box) : Prop :=
  0 < am.a bx /\ 0 < am.b bx /\ 0 < am.c bx.

Lemma nonpositive_false (bx : am.Box) : nonpositive bx = false <-> positive bx.
Proof.
  unfold nonpositive, positive. rewrite !orb_false_iff.
  rewrite <- !not_true_iff_false, !Qle_bool_iff.
  split.
  - intros ((Ha & Hb) & Hc). repeat split; apply Qnot_le_lt; assumption.
  - intros (Ha & Hb & Hc). repeat split; apply Qlt_not_le; assumption.
Qed.

Lemma calc_cij_positive cell p_xx p_yy p_zz st res st' :
  calc_cij cell p_xx p_yy p_zz st = (Ok res, st') ->
  positive (box (obj st' (cell_new res))).
Proof.
  intros H.
  destruct (calc_cij_Ok _ _ _ _ _ _ _ H) as (_ & _ & _ & _ & _ & _ & _ & _ & _ & Hpos & _).
  apply nonpositive_false, Hpos.
Qed.

(** X2: the candidate of every result of [calc_cij] has positive
    lengths and the atoms of the cell that was evaluated. *)
Theorem calc_cij_candidate cell p_xx p_yy p_zz st res st' :
  calc_cij cell p_xx p_yy p_zz st = (Ok res, st') ->
  positive (box (obj st' (cell_new res))) /\
  atoms (obj st' (cell_new res)) = atoms (obj st cell).
Proof.
  intros H.
  destruct (calc_cij_effect _ _ _ _ _ _ _ H) as (_ & _ & Hnew & _ & Hat).
  split; [eapply calc_cij_positive; exact H | rewrite Hnew; exact Hat].
Qed.

(** X3: the stress of every result of [calc_cij] is a symmetric 3x3
    matrix. *)
Theorem calc_cij_stress cell p_xx p_yy p_zz st res st' :
  calc_cij cell p_xx p_yy p_zz st = (Ok res, st') ->
  shape 3 3 (stress res) /\
  (forall i j, (i < 3)%nat -> (j < 3)%nat ->
     mget (stress res) i j = mget (stress res) j i).
Proof.
  intros H.
  destruct (calc_cij_Ok _ _ _ _ _ _ _ H) as (data & _ & _ & _ & _ & _ & _ & Hst & _).
  unfold baseline_stress, calc_stress in Hst.
  repeat (apply bindR_Ok in Hst as (? & _ & Hst)).
  injection Hst as <-. split.
  - split; [reflexivity | repeat constructor].
  - intros i j Hi Hj. index_below i 3%nat; index_below j 3%nat; reflexivity.
Qed.

(** *** Short logs *)

(** The thermo rows that [calc_cij] reads: the undeformed state and the
    pair of strained states of each direction, 13 rows in all, of which the
    lengths are read up to the pair of their own direction. *)
Definition enough_rows (data : Log) : Prop :=
  (3 <= length (Lx data))%nat /\ (5 <= length (Ly data))%nat /\
  (7 <= length (Lz data))%nat /\ (9 <= length (Yz data))%nat /\
  (11 <= length (Xz data))%nat /\ (13 <= length (Xy data))%nat /\
  (13 <= length (Pxx data))%nat /\ (13 <= length (Pyy data))%nat /\
  (13 <= length (Pzz data))%nat /\ (13 <= length (Pyz data))%nat /\
  (13 <= length (Pxz data))%nat /\ (13 <= length (Pxy data))%nat.

Lemma item_lt xs i : (i < length xs)%nat -> item xs i = Ok (nth i xs 0).
Proof.
  intros H. unfold item. rewrite (nth_error_nth' xs 0 H). reflexivity.
Qed.

Lemma item_Ok_lt xs i x : item xs i = Ok x -> (i < length xs)%nat.
Proof.
  unfold item. destruct (nth_error xs i) eqn:E; [| discriminate].
  intros _. apply nth_error_Some. congruence.
Qed.

Lemma in_units_length u xs : length (in_units u xs) = length xs.
Proof. apply length_map. Qed.

Lemma measure_enough (data : Log) :
  enough_rows data -> exists cij, measure data = Ok cij.
Proof.
  intros (Hlx & Hly & Hlz & Hyz & Hxz & Hxy & Hpxx & Hpyy & Hpzz & Hpyz & Hpxz & Hpxy).
  unfold measure, calc_strains, strain.
  rewrite !item_lt by lia. cbn [bindR].
  unfold calc_Cij, raw_cij. cbn [seq mapR].
  unfold cij_row, delta_stress, diff. cbn [Nat.mul Nat.add].
  rewrite !item_lt by (rewrite ?in_units_length; simpl; lia).
  cbn [bindR]. eexists. reflexivity.
Qed.

Ltac invert_bindR H :=
  cbv beta in H;
  lazymatch type of H with
  | bindR _ _ = Ok _ =>
      let x := fresh "x" in
      let E := fresh "E" in
      apply bindR_Ok in H as (x & E & H); invert_bindR E; invert_bindR H
  | item _ _ = Ok _ => apply item_Ok_lt in H
  | _ => idtac
  end.

Lemma measure_Ok_enough (data : Log) (cij : matrix) :
  measure data = Ok cij -> enough_rows data.
Proof.
  unfold measure, calc_strains, strain, calc_Cij, raw_cij. cbn [seq mapR].
  unfold cij_row, delta_stress, diff. intros H.
  invert_bindR H.
  rewrite ?in_units_length in *.
  unfold enough_rows. repeat split; lia.
Qed.

(** X4: [calc_cij] needs the 13 thermo rows of a completed run.  When a
    column of the log is shorter than the rows read from it, [calc_cij]
    raises [IndexError] and creates no cell; when the columns are long
    enough and there is a potential energy, it does not raise
    [IndexError]. *)
Theorem calc_cij_rows cell p_xx p_yy p_zz st data w :
  lmp_run (atoms (obj st cell)) (box (obj st cell)) (world st) = (inr data, w) ->
  (~ enough_rows data ->
   fst (calc_cij cell p_xx p_yy p_zz st) = Raise IndexError /\
   next_id (snd (calc_cij cell p_xx p_yy p_zz st)) = next_id st) /\
  (enough_rows data -> (1 <= length (peatom data))%nat ->
   fst (calc_cij cell p_xx p_yy p_zz st) <> Raise IndexError).
Proof.
  intros Hrun. split.
  - intros Hshort.
    assert (Hm : measure data = Raise IndexError).
    { destruct (measure data) as [cij | e] eqn:Hm.
      - exfalso. apply Hshort. eapply measure_Ok_enough. exact Hm.
      - f_equal. unfold measure in Hm.
        destruct (calc_strains _ _ _ _ _ _) as [strains | e'] eqn:Es.
        + cbn [bindR] in Hm. apply calc_Cij_error in Hm. exact Hm.
        + cbn [bindR] in Hm. injection Hm as <-. apply calc_strains_error in Es. exact Es. }
    unfold calc_cij, bind, deref, run_cij_script, lift. cbn [obj next_id world evals].
    rewrite Hrun. cbv zeta. unfold measure in Hm.
    destruct (calc_strains _ _ _ _ _ _) as [strains | e']; cbn [bindR] in Hm.
    + rewrite Hm. split; reflexivity.
    + injection Hm as ->. split; reflexivity.
  - intros Hrows Hpe.
    destruct (measure_enough data Hrows) as (cij & Hm).
    rewrite (calc_cij_measured cell p_xx p_yy p_zz st data w cij Hrun Hm).
    destruct (np.allclose0 cij); [discriminate |].
    destruct (Sij _) as [Sm |]; [| discriminate].
    unfold baseline_stress, calc_stress.
    destruct Hrows as (_ & _ & _ & _ & _ & _ & Hpxx & Hpyy & Hpzz & Hpyz & Hpxz & Hpxy).
    rewrite !item_lt by (rewrite ?in_units_length; lia). cbn [bindR].
    destruct (nonpositive _); discriminate.
Qed.

End Evaluator.
Section Refinement.

Context {env : Env}.

Variables (cell : ref) (p_xx p_yy p_zz tol diverge_scale : Q).

Local Abbreviation body := (cycle cell p_xx p_yy p_zz tol diverge_scale).
Local Abbreviation evaluate r := (calc_cij r p_xx p_yy p_zz).
Local Abbreviation refine_from st0 :=
  (quick_a_Cij cell p_xx p_yy p_zz tol diverge_scale st0).

(** The store after the averaging step of lines 111-114. *)
Definition averaged (v : Locals) (res : Results) (old : ref) (st : State) : State :=
  snd (box_set (cell_current v)
         (average_box (box (obj st (cell_new res))) (box (obj st old))) st).

(** The ways a turn of the loop can go. *)
Inductive turn_outcome (v : Locals) (st : State) :
    Result (ctl * Locals) -> State -> Prop :=
| evaluator_raised e st1 :
    evaluate (cell_current v) st = (Raise e, st1) ->
    turn_outcome v st (Raise e) st1
| converged_to_one res st1 :
    evaluate (cell_current v) st = (Ok res, st1) ->
    test_A tol v res st1 = true ->
    turn_outcome v st (Ok (Break, broke v res)) st1
| converged_to_two res0 st1 old res st3 :
    evaluate (cell_current v) st = (Ok res0, st1) ->
    test_A tol v res0 st1 = false ->
    cell_old v = Some old ->
    test_B tol v res0 st1 = true ->
    evaluate (cell_current v) (averaged v res0 old st1) = (Ok res, st3) ->
    turn_outcome v st (Ok (Break, broke v res)) st3
| average_raised res0 st1 old e st3 :
    evaluate (cell_current v) st = (Ok res0, st1) ->
    test_A tol v res0 st1 = false ->
    cell_old v = Some old ->
    test_B tol v res0 st1 = true ->
    evaluate (cell_current v) (averaged v res0 old st1) = (Raise e, st3) ->
    turn_outcome v st (Raise e) st3
| dimensions_diverged res st1 :
    evaluate (cell_current v) st = (Ok res, st1) ->
    test_A tol v res st1 = false ->
    test_B tol v res st1 = false ->
    out_of_bounds cell diverge_scale res st1 = true ->
    turn_outcome v st (Raise (RuntimeError "Divergence of box dimensions")) st1
| energy_diverged res st1 :
    evaluate (cell_current v) st = (Ok res, st1) ->
    test_A tol v res st1 = false ->
    test_B tol v res st1 = false ->
    out_of_bounds cell diverge_scale res st1 = false ->
    Qeq_bool (ecoh res) 0 = true ->
    turn_outcome v st (Raise (RuntimeError "Divergence: cohesive energy is 0")) st1
| went_on res st1 :
    evaluate (cell_current v) st = (Ok res, st1) ->
    test_A tol v res st1 = false ->
    test_B tol v res st1 = false ->
    out_of_bounds cell diverge_scale res st1 = false ->
    Qeq_bool (ecoh res) 0 = false ->
    turn_outcome v st (Ok (Next, moved_on v res)) st1.

Lemma cycle_outcome v st r st' :
  body v st = (r, st') -> turn_outcome v st r st'.
Proof.
  intros Hb.
  destruct (evaluate (cell_current v) st) as [[res | e] st1] eqn:He.
  2:{ rewrite (cycle_raise _ _ _ _ _ _ _ _ _ _ He) in Hb. injection Hb as <- <-.
      apply evaluator_raised, He. }
  destruct (test_A tol v res st1) eqn:HA.
  { rewrite (cycle_test_A _ _ _ _ _ _ _ _ _ _ He HA) in Hb. injection Hb as <- <-.
    apply converged_to_one; assumption. }
  destruct (test_B tol v res st1) eqn:HB.
  - destruct (cell_old v) as [old |] eqn:Ho;
      [| unfold test_B in HB; rewrite Ho in HB; discriminate].
    rewrite (cycle_test_B _ _ _ _ _ _ _ _ _ _ _ He HA Ho HB) in Hb.
    fold (averaged v res old st1) in Hb.
    destruct (evaluate (cell_current v) (averaged v res old st1))
      as [[res' | e] st3] eqn:He2; injection Hb as <- <-.
    + eapply converged_to_two; eassumption.
    + eapply average_raised; eassumption.
  - rewrite (cycle_else _ _ _ _ _ _ _ _ _ _ He HA HB) in Hb.
    destruct (out_of_bounds cell diverge_scale res st1) eqn:Ho;
      [| destruct (Qeq_bool (ecoh res) 0) eqn:Hz]; injection Hb as <- <-.
    + eapply dimensions_diverged; eassumption.
    + eapply energy_diverged; eassumption.
    + eapply went_on; eassumption.
Qed.

(** The ways the loop can end: in a turn that breaks or raises, or after
    its last turn. *)
Lemma for_xrange_ends n v st r st' :
  for_xrange n body v st = (r, st') ->
  (exists k vk stk,
      (k < n)%nat /\
      after cell p_xx p_yy p_zz tol diverge_scale k v st = Some (vk, stk) /\
      ((exists v', body vk stk = (Ok (Break, v'), st') /\ r = Ok v') \/
       (exists e, body vk stk = (Raise e, st') /\ r = Raise e))) \/
  (exists v',
      after cell p_xx p_yy p_zz tol diverge_scale n v st = Some (v', st') /\ r = Ok v').
Proof.
  revert v st. induction n as [| n IH]; intros v st H.
  - injection H as <- <-. right. exists v. split; reflexivity.
  - cbn [for_xrange] in H. unfold bind in H.
    destruct (body v st) as [[[[] v1] | e] st1] eqn:Hb; cbn [fst snd] in H.
    + destruct (IH _ _ H) as [(k & vk & stk & Hk & Ha & Hend) | (v' & Ha & Hr)].
      * left. exists (S k), vk, stk. split; [lia |]. split; [| exact Hend].
        cbn [after]. rewrite Hb. exact Ha.
      * right. exists v'. split; [| exact Hr]. cbn [after]. rewrite Hb. exact Ha.
    + injection H as <- <-. left. exists 0%nat, v, st.
      split; [lia |]. split; [reflexivity |]. left. eauto.
    + injection H as <- <-. left. exists 0%nat, v, st.
      split; [lia |]. split; [reflexivity |]. right. eauto.
Qed.

Lemma break_broke v st v' st' :
  turn_outcome v st (Ok (Break, v')) st' -> exists res, v' = broke v res.
Proof. intros H. inversion H; subst; eauto. Qed.

Lemma next_went_on v st v' st' :
  turn_outcome v st (Ok (Next, v')) st' ->
  exists res,
    evaluate (cell_current v) st = (Ok res, st') /\
    out_of_bounds cell diverge_scale res st' = false /\
    v' = moved_on v res.
Proof. intros H. inversion H; subst; eauto. Qed.

(** The ways [quick_a_Cij] can end: with the outcome of a turn that
    breaks or raises, or, after the last turn, with the error of line
    138. *)
Lemma quick_a_Cij_ends st0 r st' :
  refine_from st0 = (r, st') ->
  (exists k v st rb,
      (k < max_cycles)%nat /\
      turn cell p_xx p_yy p_zz tol diverge_scale k st0 = Some (v, st) /\
      turn_outcome v st rb st' /\
      ((exists res, rb = Ok (Break, broke v res) /\ r = Ok res) \/
       (exists e, rb = Raise e /\ r = Raise e))) \/
  (exists v,
      turn cell p_xx p_yy p_zz tol diverge_scale max_cycles st0 = Some (v, st') /\
      r = Raise non_convergence).
Proof.
  rewrite quick_a_Cij_eq. unfold bind at 1. intros H.
  destruct (for_xrange max_cycles body (fst (start cell st0)) (snd (start cell st0)))
    as [[v' | e] st1] eqn:Hf.
  - apply for_xrange_ends in Hf
      as [(k & vk & stk & Hk & Ha & [(w & Hb & [= <-]) | (e & _ & [=])]) | (w & Ha & [= <-])].
    + pose proof (cycle_outcome _ _ _ _ Hb) as Ho.
      destruct (break_broke _ _ _ _ Ho) as (res & ->).
      unfold finish, ret in H. cbn [broke converged results] in H.
      injection H as <- <-.
      left. exists k, vk, stk, (Ok (Break, broke vk res)).
      split; [exact Hk |]. split; [exact Ha |]. split; [exact Ho |].
      left. exists res. split; reflexivity.
    + right. exists v'. 
      assert (Hc : converged v' = false).
      { apply turn_effect in Ha. tauto. }
      unfold finish, raise in H. rewrite Hc in H. injection H as <- <-.
      split; [exact Ha | reflexivity].
  - injection H as <- <-.
    apply for_xrange_ends in Hf
      as [(k & vk & stk & Hk & Ha & [(w & _ & [=]) | (e' & Hb & [= <-])]) | (w & _ & [=])].
    pose proof (cycle_outcome _ _ _ _ Hb) as Ho.
    left. exists k, vk, stk, (Raise e). split; [exact Hk |]. split; [exact Ha |].
    split; [exact Ho |]. right. eauto.
Qed.

(** X5: the errors of [quick_a_Cij] are those of the evaluator (its
    three [RuntimeError]s, an [IndexError], what the run raised), the two
    divergence errors and the error of line 138; in particular [results] is
    never read before it is bound. *)
Theorem quick_a_Cij_errors st0 e st' :
  refine_from st0 = (Raise e, st') ->
  (evaluation_error e \/
   e = RuntimeError "Divergence of box dimensions" \/
   e = RuntimeError "Divergence: cohesive energy is 0" \/
   e = RuntimeError "Failed to converge after 100 cycles") /\
  e <> UnboundLocalError.
Proof.
  intros H.
  assert (Hcases : evaluation_error e \/
                   e = RuntimeError "Divergence of box dimensions" \/
                   e = RuntimeError "Divergence: cohesive energy is 0" \/
                   e = RuntimeError "Failed to converge after 100 cycles").
  { apply quick_a_Cij_ends in H
      as [(k & v & st & rb & _ & _ & Ho & [(res & _ & [=]) | (e' & -> & [= <-])])
         | (v & _ & [= ->])].
    - inversion Ho as [e1 st1 He | | | res0 st1 old e1 st3 _ _ _ _ He | | |]; subst;
        try (apply calc_cij_effect in He as (_ & _ & Herr & _)); tauto.
    - tauto. }
  split; [exact Hcases |].
  destruct Hcases as [[-> | [-> | [-> | [-> | [msg ->]]]]] | [-> | [-> | ->]]];
    discriminate.
Qed.

(** X6: [quick_a_Cij] returns a result only from a turn in which one of
    the two convergence tests held: either the result of that turn's call,
    whose candidate matches the cell that was evaluated, or the result of
    the call on the averaged cell, after a candidate that matches the old
    cell. *)
Theorem quick_a_Cij_converged st0 res st' :
  refine_from st0 = (Ok res, st') ->
  exists k v st,
    (k < max_cycles)%nat /\
    turn cell p_xx p_yy p_zz tol diverge_scale k st0 = Some (v, st) /\
    ((evaluate (cell_current v) st = (Ok res, st') /\ test_A tol v res st' = true) \/
     (exists res0 st1 old,
         cell_old v = Some old /\
         evaluate (cell_current v) st = (Ok res0, st1) /\
         test_A tol v res0 st1 = false /\
         test_B tol v res0 st1 = true /\
         evaluate (cell_current v) (averaged v res0 old st1) = (Ok res, st'))).
Proof.
  intros H.
  apply quick_a_Cij_ends in H
    as [(k & v & st & rb & Hk & Ht & Ho & [(res' & -> & [= <-]) | (e & _ & [=])])
       | (v & _ & [=])].
  exists k, v, st. split; [exact Hk |]. split; [exact Ht |].
  inversion Ho; subst.
  - left. split; assumption.
  - right. eexists _, _, _. repeat split; eassumption.
Qed.

(** *** Positive lengths *)

(** The current and the old cell are objects of the store, of positive
    lengths. *)
Definition good (v : Locals) (st : State) : Prop :=
  (cell_current v < next_id st)%nat /\
  positive (box (obj st (cell_current v))) /\
  (forall old, cell_old v = Some old ->
     (old < next_id st)%nat /\ positive (box (obj st old))).

Lemma average_positive (b1 b2 : am.Box) :
  positive b1 -> positive b2 -> positive (average_box b1 b2).
Proof.
  unfold positive, average_box. cbn [am.a am.b am.c].
  intros (Ha1 & Hb1 & Hc1) (Ha2 & Hb2 & Hc2).
  repeat split; apply Qlt_shift_div_l; lra.
Qed.

Lemma turn_positive v st r st' :
  turn_outcome v st r st' -> good v st ->
  (exists l, evals st' = l ++ evals st /\ l <> [] /\
             Forall (fun c => positive (box c)) l) /\
  (forall v', r = Ok (Next, v') -> good v' st').
Proof.
  intros Ho (Hcur & Hpos & Hold).
  assert (Hfirst : forall r1 st1, evaluate (cell_current v) st = (r1, st1) ->
            evals st1 = [obj st (cell_current v)] ++ evals st /\
            Forall (fun c => positive (box c)) [obj st (cell_current v)]).
  { intros r1 st1 He. apply calc_cij_effect in He as (Hev & _).
    split; [exact Hev | constructor; [exact Hpos | constructor]]. }
  assert (Hsecond : forall res0 st1 old r3 st3,
            evaluate (cell_current v) st = (Ok res0, st1) ->
            cell_old v = Some old ->
            evaluate (cell_current v) (averaged v res0 old st1) = (r3, st3) ->
            exists l, evals st3 = l ++ evals st /\ l <> [] /\
                      Forall (fun c => positive (box c)) l).
  { intros res0 st1 old r3 st3 He Ho' He2.
    pose proof (calc_cij_positive _ _ _ _ _ _ _ He) as Hnew.
    pose proof (calc_cij_effect _ _ _ _ _ _ _ He) as (Hev & Hfr & _).
    apply calc_cij_effect in He2 as (Hev2 & _).
    destruct (Hold old Ho') as (Holdlt & Holdpos).
    unfold averaged, box_set in Hev2. cbn [snd obj evals] in Hev2.
    rewrite upd_same in Hev2.
    eexists [_; _]. split; [rewrite Hev2, Hev; reflexivity |].
    split; [discriminate |].
    constructor; [| constructor; [exact Hpos | constructor]].
    cbn [box]. apply average_positive; [exact Hnew |].
    rewrite Hfr by lia. exact Holdpos. }
  inversion Ho as [e st1 He | res st1 He HA | res0 st1 old res st3 He HA Ho' HB He2
                  | res0 st1 old e st3 He HA Ho' HB He2 | res st1 He HA HB Hout
                  | res st1 He HA HB Hout Hz | res st1 He HA HB Hout Hz]; subst.
  - destruct (Hfirst _ _ He). split; [eexists; repeat split; eauto; discriminate | discriminate].
  - destruct (Hfirst _ _ He). split; [eexists; repeat split; eauto; discriminate | discriminate].
  - split; [eapply Hsecond; eassumption | discriminate].
  - split; [eapply Hsecond; eassumption | discriminate].
  - destruct (Hfirst _ _ He). split; [eexists; repeat split; eauto; discriminate | discriminate].
  - destruct (Hfirst _ _ He). split; [eexists; repeat split; eauto; discriminate | discriminate].
  - destruct (Hfirst _ _ He). split; [eexists; repeat split; eauto; discriminate |].
    intros v' [= <-].
    pose proof (calc_cij_positive _ _ _ _ _ _ _ He) as Hnew.
    pose proof (calc_cij_effect _ _ _ _ _ _ _ He) as (_ & Hfr & Hid & Hnext & _).
    unfold good. cbn [moved_on cell_current cell_old].
    split; [lia |]. split; [exact Hnew |].
    intros old [= <-]. split; [lia |]. rewrite Hfr by lia. exact Hpos.
Qed.

Lemma after_positive k v st v' st' :
  after cell p_xx p_yy p_zz tol diverge_scale k v st = Some (v', st') ->
  good v st ->
  good v' st' /\
  exists l, evals st' = l ++ evals st /\ Forall (fun c => positive (box c)) l.
Proof.
  revert v st. induction k as [| k IH]; intros v st H Hg.
  - injection H as <- <-. split; [exact Hg |]. exists []. split; [reflexivity | constructor].
  - cbn [after] in H.
    destruct (body v st) as [[[[] v1] | e] st1] eqn:Hb; try discriminate.
    destruct (turn_positive _ _ _ _ (cycle_outcome _ _ _ _ Hb) Hg)
      as ((l1 & Hev1 & _ & Hl1) & Hnext).
    destruct (IH _ _ H (Hnext _ eq_refl)) as (Hg' & l2 & Hev2 & Hl2).
    split; [exact Hg' |]. exists (l2 ++ l1).
    split; [rewrite Hev2, Hev1, app_assoc; reflexivity |].
    apply Forall_app. split; assumption.
Qed.

Lemma start_good st0 :
  positive (box (obj st0 cell)) -> good (fst (start cell st0)) (snd (start cell st0)).
Proof.
  intros Hpos. destruct (start_effect cell st0) as (_ & Hcopy & Hid & _).
  unfold good.
  change (cell_current (fst (start cell st0))) with (next_id st0).
  change (cell_old (fst (start cell st0))) with (@None ref).
  split; [rewrite Hid; lia |]. split; [rewrite Hcopy; exact Hpos | discriminate].
Qed.

(** X7: when [quick_a_Cij] is called on a cell of positive lengths,
    every cell it calls the evaluator on has positive lengths, the averaged
    cell included; it makes at least one call; and the candidate of the
    result it returns has positive lengths. *)
Theorem quick_a_Cij_positive st0 r st' :
  positive (box (obj st0 cell)) ->
  refine_from st0 = (r, st') ->
  (exists l, evals st' = l ++ evals st0 /\ l <> [] /\
             Forall (fun c => positive (box c)) l) /\
  (forall res, r = Ok res -> positive (box (obj st' (cell_new res)))).
Proof.
  intros Hpos H.
  pose proof (start_good st0 Hpos) as Hg.
  destruct (start_effect cell st0) as (_ & _ & _ & Hev0).
  apply quick_a_Cij_ends in H
    as [(k & v & st & rb & Hk & Ht & Ho & Hr) | (v & Ht & ->)].
  - destruct (after_positive _ _ _ _ _ Ht Hg) as (Hg' & l1 & Hev1 & Hl1).
    destruct (turn_positive _ _ _ _ Ho Hg') as ((l2 & Hev2 & Hne & Hl2) & _).
    split.
    + exists (l2 ++ l1). rewrite Hev2, Hev1, Hev0, app_assoc.
      split; [reflexivity |]. split; [| apply Forall_app; split; assumption].
      destruct l2; [congruence | discriminate].
    + intros res ->. destruct Hr as [(res' & -> & [= <-]) | (e & _ & [=])].
      inversion Ho; subst; eapply calc_cij_positive; eassumption.
  - split; [| discriminate].
    destruct (after_positive _ _ _ _ _ Ht Hg) as (_ & l & Hev & Hl).
    exists l. rewrite Hev, Hev0. split; [reflexivity |]. split; [| exact Hl].
    apply turn_effect in Ht as (_ & _ & _ & Hc & _).
    unfold calls in Hc. rewrite Hev, Hev0, length_app in Hc.
    intros ->. unfold max_cycles in Hc. simpl in Hc. lia.
Qed.

(** *** A scale below one *)

Lemma diverged_below_one x x0 :
  0 < diverge_scale -> diverge_scale < 1 -> 0 < x0 ->
  diverged x x0 diverge_scale = true.
Proof.
  intros Hs0 Hs1 Hx0. unfold diverged. apply orb_true_iff. rewrite !Qlt_bool_iff.
  assert (Hlo : x0 * diverge_scale < x0) by nra.
  assert (Hhi : x0 < x0 / diverge_scale) by (apply Qlt_shift_div_l; assumption).
  destruct (Qlt_le_dec x (x0 / diverge_scale)) as [Hlt | Hge]; [left; exact Hlt |].
  right. lra.
Qed.

(** X8: with a [diverge_scale] between 0 and 1 the bounds of the
    divergence test exclude every length, so that a candidate that does
    not match the first cell is divergent: [quick_a_Cij] ends in its first
    turn, after one call of the evaluator. *)
Theorem quick_a_Cij_scale_below_one st0 r st' :
  0 < diverge_scale -> diverge_scale < 1 ->
  (cell < next_id st0)%nat ->
  0 < am.a (box (obj st0 cell)) ->
  refine_from st0 = (r, st') ->
  calls st0 st' 1 /\
  (forall res, r = Ok res ->
     first_evaluation cell p_xx p_yy p_zz st0 = (Ok res, st')) /\
  r <> Raise non_convergence.
Proof.
  intros Hs0 Hs1 Hcell Ha H.
  assert (Hout : forall res st1,
             evaluate (cell_current (fst (start cell st0))) (snd (start cell st0))
               = (Ok res, st1) ->
             out_of_bounds cell diverge_scale res st1 = true).
  { intros res st1 He. unfold out_of_bounds.
    apply calc_cij_effect in He as (_ & Hfr & _).
    destruct (start_effect cell st0) as (Hfr0 & _ & Hid & _).
    rewrite (Hfr cell) by lia. rewrite (Hfr0 cell) by assumption.
    rewrite diverged_below_one by assumption. reflexivity. }
  assert (Hstuck : forall k v st,
             turn cell p_xx p_yy p_zz tol diverge_scale (S k) st0 = Some (v, st) -> False).
  { intros k v st Ht. unfold turn in Ht. cbn [after] in Ht.
    destruct (body (fst (start cell st0)) (snd (start cell st0)))
      as [[[[] v1] | e] st1] eqn:Hb; try discriminate.
    apply cycle_outcome, next_went_on in Hb as (res & He & Hin & _).
    rewrite (Hout _ _ He) in Hin. discriminate. }
  apply quick_a_Cij_ends in H
    as [(k & v & st & rb & Hk & Ht & Ho & Hr) | (v & Ht & ->)].
  2:{ exfalso. apply (Hstuck _ _ _ Ht). }
  destruct k as [| k]; [| exfalso; apply (Hstuck _ _ _ Ht)].
  rewrite turn_0 in Ht. injection Ht as <- <-.
  destruct (start_effect cell st0) as (_ & _ & _ & Hev0).
  assert (Hone : forall r1 st1,
             evaluate (cell_current (fst (start cell st0))) (snd (start cell st0))
               = (r1, st1) -> calls st0 st1 1).
  { intros r1 st1 He. apply calc_cij_effect in He as (Hev & _).
    unfold calls. rewrite Hev, Hev0. reflexivity. }
  assert (Hno : forall old, cell_old (fst (start cell st0)) = Some old -> False)
    by (intros old E; discriminate E).
  destruct Hr as [(res & -> & ->) | (e & -> & ->)].
  - inversion Ho; subst;
      try (exfalso; eapply Hno; eassumption).
    split; [eapply Hone; eassumption |]. split; [| discriminate].
    intros res1 [= <-]. rewrite first_evaluation_eq. assumption.
  - split; [| split; [discriminate |]].
    + inversion Ho; subst; try (exfalso; eapply Hno; eassumption);
        eapply Hone; eassumption.
    + inversion Ho; subst; try (exfalso; eapply Hno; eassumption);
        try discriminate.
      intros [= ->].
      match goal with E : calc_cij _ _ _ _ _ = (Raise _, _) |- _ =>
        apply calc_cij_effect in E as (_ & _ & Herr & _) end.
      apply evaluation_error_not_non_convergence in Herr. apply Herr. reflexivity.
Qed.

End Refinement.

(** ** On the scripted evaluator *)

(** A log cut after its first [n] thermo rows. *)
Definition cut_log (n : nat) (data : Log) : Log :=
  {| Lx := firstn n (Lx data); Ly := firstn n (Ly data); Lz := firstn n (Lz data);
     Xy := firstn n (Xy data); Xz := firstn n (Xz data); Yz := firstn n (Yz data);
     Pxx := firstn n (Pxx data); Pyy := firstn n (Pyy data); Pzz := firstn n (Pzz data);
     Pxy := firstn n (Pxy data); Pxz := firstn n (Pxz data); Pyz := firstn n (Pyz data);
     peatom := firstn n (peatom data) |}.

(** A run that stopped in the last pair of strained states. *)
Definition script_cut : list Log := [cut_log 12 (sample_log 70 0 (-3))].

Definition evaluation (script : list Log) : Result Results * State (env := scripted) :=
  calc_cij (env := scripted) 0%nat 0 0 0 (one_cell 1 script).

Lemma calc_cij_stiffness_witness :
  let res := result_of (fst (evaluation script_pressed)) in
  shape 6 6 (am.Cij (C res)) /\
  (forall i j, (i < 6)%nat -> (j < 6)%nat ->
     mget (am.Cij (C res)) i j = mget (am.Cij (C res)) j i) /\
  np.allclose0 (am.Cij (C res)) = false.
Proof.
  apply (calc_cij_stiffness (env := scripted) 0%nat 0 0 0 (one_cell 1 script_pressed)
           _ (snd (evaluation script_pressed))).
  by_running.
Defined.

Lemma calc_cij_candidate_witness :
  let run := evaluation script_pressed in
  positive (box (obj (snd run) (cell_new (result_of (fst run))))) /\
  atoms (obj (snd run) (cell_new (result_of (fst run)))) = tt.
Proof.
  apply (calc_cij_candidate (env := scripted) 0%nat 0 0 0 (one_cell 1 script_pressed)
           _ (snd (evaluation script_pressed))).
  by_running.
Defined.

Lemma calc_cij_stress_witness :
  let res := result_of (fst (evaluation script_pressed)) in
  shape 3 3 (stress res) /\
  (forall i j, (i < 3)%nat -> (j < 3)%nat ->
     mget (stress res) i j = mget (stress res) j i).
Proof.
  apply (calc_cij_stress (env := scripted) 0%nat 0 0 0 (one_cell 1 script_pressed)
           _ (snd (evaluation script_pressed))).
  by_running.
Defined.

Lemma calc_cij_rows_witness :
  (fst (evaluation script_cut) = Raise IndexError /\
   next_id (snd (evaluation script_cut)) = 1%nat) /\
  fst (evaluation script_pressed) <> Raise IndexError.
Proof.
  split.
  - apply (proj1 (calc_cij_rows (env := scripted) 0%nat 0 0 0 (one_cell 1 script_cut)
                    (cut_log 12 (sample_log 70 0 (-3))) [] eq_refl)).
    intros (_ & _ & _ & _ & _ & H & _). simpl in H. lia.
  - apply (proj2 (calc_cij_rows (env := scripted) 0%nat 0 0 0 (one_cell 1 script_pressed)
                    (sample_log 70 (1 # 2) (-3)) [] eq_refl)).
    + unfold enough_rows. simpl. lia.
    + simpl. lia.
Defined.

Lemma quick_a_Cij_errors_witness :
  (evaluation_error (RuntimeError "Divergence of box dimensions") \/
   RuntimeError "Divergence of box dimensions" = RuntimeError "Divergence of box dimensions" \/
   RuntimeError "Divergence of box dimensions"
     = RuntimeError "Divergence: cohesive energy is 0" \/
   RuntimeError "Divergence of box dimensions"
     = RuntimeError "Failed to converge after 100 cycles") /\
  RuntimeError "Divergence of box dimensions" <> UnboundLocalError.
Proof.
  apply (quick_a_Cij_errors (env := scripted) 0%nat 0 0 0 tol_default 3
           (one_cell 1 script_diverging) _ (snd (refine script_diverging))).
  by_running.
Defined.

Lemma quick_a_Cij_converged_witness :
  exists k v st,
    (k < max_cycles)%nat /\
    turn (env := scripted) 0%nat 0 0 0 tol_default 3 k (one_cell 1 script_alternating)
      = Some (v, st) /\
    ((calc_cij (cell_current v) 0 0 0 st
        = (Ok (result_of (fst (refine script_alternating))),
           snd (refine script_alternating)) /\
      test_A tol_default v (result_of (fst (refine script_alternating)))
        (snd (refine script_alternating)) = true) \/
     (exists res0 st1 old,
         cell_old v = Some old /\
         calc_cij (cell_current v) 0 0 0 st = (Ok res0, st1) /\
         test_A tol_default v res0 st1 = false /\
         test_B tol_default v res0 st1 = true /\
         calc_cij (cell_current v) 0 0 0 (averaged v res0 old st1)
           = (Ok (result_of (fst (refine script_alternating))),
              snd (refine script_alternating)))).
Proof.
  apply (quick_a_Cij_converged (env := scripted) 0%nat 0 0 0 tol_default 3
           (one_cell 1 script_alternating)).
  by_running.
Defined.

Lemma quick_a_Cij_positive_witness :
  let st0 := one_cell 1 script_alternating in
  let run := refine script_alternating in
  (exists l,
      evals (snd run) = l ++ evals st0 /\ l <> [] /\
      Forall (fun c => positive (box c)) l) /\
  (forall res, fst run = Ok res ->
     positive (box (obj (snd run) (cell_new res)))).
Proof.
  cbv zeta.
  apply (quick_a_Cij_positive (env := scripted) 0%nat 0 0 0 tol_default 3
           (one_cell 1 script_alternating)
           (fst (refine script_alternating)) (snd (refine script_alternating))).
  - unfold positive. vm_compute. repeat split.
  - by_running.
Defined.

Lemma quick_a_Cij_scale_below_one_witness :
  let st0 := one_cell 1 script_alternating in
  let run := quick_a_Cij (env := scripted) 0%nat 0 0 0 tol_default (1 # 2) st0 in
  calls st0 (snd run) 1 /\
  (forall res, fst run = Ok res ->
     first_evaluation (env := scripted) 0%nat 0 0 0 st0 = (Ok res, snd run)) /\
  fst run <> Raise non_convergence.
Proof.
  cbv zeta.
  apply (quick_a_Cij_scale_below_one (env := scripted) 0%nat 0 0 0 tol_default (1 # 2)
           (one_cell 1 script_alternating)
           (fst (quick_a_Cij (env := scripted) 0%nat 0 0 0 tol_default (1 # 2)
                   (one_cell 1 script_alternating)))
           (snd (quick_a_Cij (env := scripted) 0%nat 0 0 0 tol_default (1 # 2)
                   (one_cell 1 script_alternating)))).
  - reflexivity.
  - reflexivity.
  - simpl. lia.
  - reflexivity.
  - by_running.
Defined.

Lemma symmetrize_of_symmetric_witness :
  (forall i, (i < 6)%nat -> mget (symmetrize sample_raw) i i = mget sample_raw i i) /\
  ((forall i j, (i < 6)%nat -> (j < 6)%nat ->
      mget sample_raw i j == mget sample_raw j i) ->
   meq 6 6 (symmetrize sample_raw) sample_raw).
Proof.
  apply (symmetrize_of_symmetric sample_raw).
  split; [reflexivity | repeat constructor].
Defined.

From Stdlib Require Import Ascii.

(** * The load string of the data models *)

(** [data_model] of both calculations records the file of the system it
    loaded from the input term [load], a style and a path that one space
    separates: [load.split(' ')], [' '.join(...)] and [os.path.basename]
    (of [posixpath]). *)

Module str.

(** [s.split(sep)] for a separator of one character. *)
Fixpoint split (sep : ascii) (s : string) : list string :=
  match s with
  | EmptyString => [EmptyString]
  | String x s' =>
      if Ascii.eqb x sep then EmptyString :: split sep s'
      else match split sep s' with
           | w :: ws => String x w :: ws
           | [] => [String x EmptyString]
           end
  end.

(** [sep.join(l)]. *)
Fixpoint join (sep : string) (l : list string) : string :=
  match l with
  | [] => EmptyString
  | [w] => w
  | w :: ws => (w ++ sep ++ join sep ws)%string
  end.

(** [s.rfind(x)]: the index of the last [x] in [s], -1 when there is
    none. *)
Fixpoint rfind (x : ascii) (s : string) : Z :=
  match s with
  | EmptyString => (-1)%Z
  | String y s' =>
      let r := rfind x s' in
      if (0 <=? r)%Z then (r + 1)%Z
      else if Ascii.eqb y x then 0%Z else (-1)%Z
  end.

(** [s[i:]]. *)
Fixpoint from (i : nat) (s : string) : string :=
  match i, s with
  | O, _ => s
  | S i', String _ s' => from i' s'
  | S _, EmptyString => EmptyString
  end.

(** [x in s]. *)
Fixpoint contains (x : ascii) (s : string) : bool :=
  match s with
  | EmptyString => false
  | String y s' => Ascii.eqb y x || contains x s'
  end.

End str.

Module os_path.

(** [posixpath.basename]: [i = p.rfind('/') + 1; return p[i:]]. *)
Definition basename (p : string) : string :=
  str.from (Z.to_nat (str.rfind "/" p + 1)) p.

End os_path.

(** [system_load[0]]. *)
Definition first_item (l : list string) : Result string :=
  match l with
  | w :: _ => Ok w
  | [] => Raise IndexError
  end.

(** Lines 257-261 of the refinement's [data_model], 237-241 of the point
    defect's: the file and the format of the artifact. *)
Definition artifact (load : string) : Result (string * string) :=
  let system_load := str.split " " load in
  let file := os_path.basename (str.join " " (tl system_load)) in
  format <~ first_item system_load ;;
  Ok (file, format).

(** ** Properties *)

Lemma split_cons (sep : ascii) (s : string) :
  exists w ws, str.split sep s = w :: ws /\ str.contains sep w = false.
Proof.
  induction s as [| x s (w & ws & E & Hw)]; simpl.
  - eauto.
  - destruct (Ascii.eqb x sep) eqn:Ex.
    + eauto.
    + rewrite E. exists (String x w), ws. simpl. rewrite Ex, Hw. split; reflexivity.
Qed.

Lemma join_split (sep : ascii) (s : string) :
  str.join (String sep EmptyString) (str.split sep s) = s.
Proof.
  induction s as [| x s IH]; simpl; [reflexivity |].
  destruct (split_cons sep s) as (w & ws & E & _).
  destruct (Ascii.eqb x sep) eqn:Ex.
  - apply Ascii.eqb_eq in Ex as ->. rewrite E in *.
    simpl. f_equal. exact IH.
  - rewrite E in *. destruct ws; simpl in *; f_equal; exact IH.
Qed.

Lemma split_app (sep : ascii) (w rest : string) :
  str.contains sep w = false ->
  str.split sep (w ++ String sep rest) = w :: str.split sep rest.
Proof.
  induction w as [| x w IH]; simpl; intros H.
  - rewrite Ascii.eqb_refl. reflexivity.
  - apply orb_false_iff in H as (Hx & Hw). rewrite Hx, (IH Hw). reflexivity.
Qed.

Lemma rfind_bound (x : ascii) (s : string) : (-1 <= str.rfind x s)%Z.
Proof.
  induction s as [| y s IH]; simpl; [lia |].
  destruct (0 <=? str.rfind x s)%Z eqn:E; [lia |].
  destruct (Ascii.eqb y x); lia.
Qed.

Lemma rfind_none (x : ascii) (s : string) :
  str.contains x s = false <-> str.rfind x s = (-1)%Z.
Proof.
  induction s as [| y s IH]; simpl; [tauto |].
  pose proof (rfind_bound x s) as Hb.
  rewrite orb_false_iff, IH.
  destruct (0 <=? str.rfind x s)%Z eqn:E.
  - apply Z.leb_le in E. split; [intros (_ & H) |]; lia.
  - apply Z.leb_gt in E. destruct (Ascii.eqb y x).
    + split; [intros (H & _); discriminate | discriminate].
    + split; [reflexivity | intros _; split; [reflexivity | lia]].
Qed.

Lemma basename_cons (y : ascii) (s : string) :
  os_path.basename (String y s) =
    if str.contains "/" s then os_path.basename s
    else if Ascii.eqb y "/" then s else String y s.
Proof.
  unfold os_path.basename. cbn [str.rfind].
  pose proof (rfind_bound "/" s) as Hb.
  destruct (str.contains "/" s) eqn:Hc.
  - assert (H : (0 <= str.rfind "/" s)%Z).
    { destruct (Z.eq_dec (str.rfind "/" s) (-1)) as [E | E]; [| lia].
      apply rfind_none in E. congruence. }
    apply Z.leb_le in H as H'. rewrite H'.
    replace (Z.to_nat (str.rfind "/" s + 1 + 1)) with (S (Z.to_nat (str.rfind "/" s + 1)))
      by lia.
    reflexivity.
  - apply rfind_none in Hc. rewrite Hc. simpl.
    destruct (Ascii.eqb y "/"); reflexivity.
Qed.

Lemma basename_none (name : string) :
  str.contains "/" name = false -> os_path.basename name = name.
Proof.
  intros H. unfold os_path.basename. apply rfind_none in H. rewrite H. reflexivity.
Qed.

Lemma contains_app (x : ascii) (s t : string) :
  str.contains x (s ++ t) = str.contains x s || str.contains x t.
Proof.
  induction s as [| y s IH]; simpl; [reflexivity |].
  rewrite IH, orb_assoc. reflexivity.
Qed.

Lemma basename_app (dir name : string) :
  str.contains "/" name = false ->
  os_path.basename (dir ++ String "/" name) = name.
Proof.
  intros H. induction dir as [| y dir IH]; simpl.
  - rewrite basename_cons, H. reflexivity.
  - rewrite basename_cons, contains_app. simpl.
    rewrite orb_true_r. exact IH.
Qed.

Lemma basename_split (p : string) :
  exists dir,
    p = (dir ++ os_path.basename p)%string /\
    str.contains "/" (os_path.basename p) = false /\
    (dir = EmptyString \/ exists d, dir = (d ++ "/")%string).
Proof.
  induction p as [| y p (dir & E & Hn & Hd)].
  - exists EmptyString. repeat split. left. reflexivity.
  - rewrite basename_cons.
    destruct (str.contains "/" p) eqn:Hc.
    + exists (String y dir). split; [simpl; f_equal; exact E |]. split; [exact Hn |].
      right. destruct Hd as [-> | (d & ->)].
      * exfalso. simpl in E. rewrite <- E in Hn. congruence.
      * exists (String y d). reflexivity.
    + destruct (Ascii.eqb y "/") eqn:Ey.
      * apply Ascii.eqb_eq in Ey as ->. exists "/"%string.
        split; [reflexivity |]. split; [exact Hc |]. right. exists EmptyString. reflexivity.
      * exists EmptyString. split; [reflexivity |].
        split; [simpl; rewrite Ey, Hc; reflexivity | left; reflexivity].
Qed.

(** X10: the artifact of a load string is read without an error, whatever
    the string: the format is what precedes the first space and has no
    space, the file has no slash and is the end of what follows the first
    space, after a directory part that is empty or ends in a slash; a load
    string without a space is all format, with an empty file. *)
Theorem artifact_parts (load : string) :
  exists file format rest dir,
    artifact load = Ok (file, format) /\
    str.contains " " format = false /\
    str.contains "/" file = false /\
    rest = (dir ++ file)%string /\
    (dir = EmptyString \/ exists d, dir = (d ++ "/")%string) /\
    (if str.contains " " load then load = (format ++ " " ++ rest)%string
     else load = format /\ rest = EmptyString).
Proof.
  unfold artifact.
  destruct (split_cons " " load) as (w & ws & E & Hw).
  pose proof (join_split " " load) as Hj. rewrite E in *.
  destruct (basename_split (str.join " " (tl (w :: ws)))) as (dir & Ed & Hn & Hd).
  exists (os_path.basename (str.join " " (tl (w :: ws)))), w,
    (str.join " " (tl (w :: ws))), dir.
  split; [reflexivity |]. split; [exact Hw |]. split; [exact Hn |].
  split; [exact Ed |]. split; [exact Hd |].
  cbn [tl]. destruct ws as [| w' ws].
  - simpl in Hj. subst w. rewrite Hw. split; reflexivity.
  - change (str.join " " (w :: w' :: ws))
      with (w ++ " " ++ str.join " " (w' :: ws))%string in Hj.
    clear E Ed Hn. subst load. rewrite contains_app. simpl. rewrite orb_true_r.
    reflexivity.
Qed.

(** X11: a path is recorded by its last component, spaces included: for
    a format without a space and a name without a slash, the load string
    of the format, a space, and the name in any directory (whose name may
    have spaces) gives back the name and the format. *)
Theorem artifact_of_path (format dir name : string) :
  str.contains " " format = false ->
  str.contains "/" name = false ->
  artifact (format ++ " " ++ dir ++ "/" ++ name) = Ok (name, format) /\
  artifact (format ++ " " ++ name) = Ok (name, format).
Proof.
  intros Hf Hn. unfold artifact.
  change (" " ++ dir ++ "/" ++ name)%string with (String " " (dir ++ String "/" name)).
  change (" " ++ name)%string with (String " " name).
  rewrite !split_app by exact Hf. cbn [tl first_item bindR].
  rewrite !join_split, basename_app, basename_none by exact Hn.
  split; reflexivity.
Qed.

Lemma artifact_of_path_witness :
  artifact "system_model data/relaxed cells/Al fcc.json" = Ok ("Al fcc.json", "system_model")%string /\
  artifact "system_model Al fcc.json" = Ok ("Al fcc.json", "system_model")%string.
Proof.
  apply (artifact_of_path "system_model" "data/relaxed cells" "Al fcc.json");
    reflexivity.
Defined.

(** * The parameters of a dislocation monopole *)

(** [dislocationmonopole] works on the dictionary of the input terms, an
    object that it shares with its caller: what it has written when it
    raises stays written.  The dictionary is the state of a state and error
    monad. *)

Module py.

Inductive exception : Type :=
| AssertionError (msg : string)
| KeyError (key : string)
| UnboundLocalError (name : string)
| TypeError
| ValueError
| AttributeError
| IndexError
| LoadError (msg : string).

End py.

Inductive Outcome (A : Type) : Type :=
| Returned (x : A)
| Raised (e : py.exception).

Arguments Returned {A} x.
Arguments Raised {A} e.

Definition vector : Type := Q * Q * Q.

(** [x * v] and [u + v] on arrays of three numbers. *)
Definition vscale (x : Q) (v : vector) : vector :=
  let '(v0, v1, v2) := v in (x * v0, x * v1, x * v2).

Definition vadd (u v : vector) : vector :=
  let '(u0, u1, u2) := u in
  let '(v0, v1, v2) := v in (u0 + v0, u1 + v1, u2 + v2).

(** What is read of [ucell.box]. *)
Record Cell : Type := {
  box_a : Q;
  box_avect : vector;
  box_bvect : vector;
  box_cvect : vector
}.

(** The content of a data model: [None], strings, numbers and
    dictionaries. *)
Inductive node : Type :=
| Null
| Text (s : string)
| Number (x : Q)
| Dict (entries : members)
with members : Type :=
| no_member
| member (key : string) (value : node) (rest : members).

(** The objects of the dictionary of input terms: the content of data
    models, arrays of three numbers, and systems. *)
Inductive object : Type :=
| Data (n : node)
| Vector (v : vector)
| Ucell (c : Cell).

Definition None_ : object := Data Null.
Definition Str (s : string) : object := Data (Text s).
Definition Float (x : Q) : object := Data (Number x).

Definition is_None (o : object) : bool :=
  match o with Data Null => true | _ => false end.

(** A dictionary with strings as keys. *)
Definition dict (V : Type) : Type := string -> option V.

Definition get {V} (d : dict V) (k : string) (default : V) : V :=
  match d k with Some v => v | None => default end.

Definition setitem {V} (k : string) (v : V) (d : dict V) : dict V :=
  fun k' => if String.eqb k' k then Some v else d k'.

(** [k in d]. *)
Definition has_key {V} (d : dict V) (k : string) : bool :=
  match d k with Some _ => true | None => false end.

(** [d[k]]. *)
Definition getitem {V} (d : dict V) (k : string) : Outcome V :=
  match d k with Some v => Returned v | None => Raised (py.KeyError k) end.

(** [n[k]] on the content of a data model. *)
Fixpoint lookup (entries : members) (k : string) : option node :=
  match entries with
  | no_member => None
  | member k' v entries' => if String.eqb k k' then Some v else lookup entries' k
  end.

Definition subscript (n : node) (k : string) : Outcome node :=
  match n with
  | Dict entries =>
      match lookup entries k with
      | Some v => Returned v
      | None => Raised (py.KeyError k)
      end
  | Null | Text _ | Number _ => Raised py.TypeError
  end.

(** The libraries that [dislocationmonopole] calls. *)
Class Library : Type := {
  (** [DM(source).find('dislocation-monopole')] *)
  find_monopole : object -> Outcome node;
  (** [float(s)] on a string *)
  float_of_string : string -> option Q;
  (** [np.array(s.strip().split(), dtype=float)] on a string *)
  floats_of_string : string -> option (list Q)
}.

Section Interpret.

Context {library : Library}.

(** [float(o)]. *)
Definition float (o : object) : Outcome Q :=
  match o with
  | Data (Number x) => Returned x
  | Data (Text s) =>
      match float_of_string s with
      | Some x => Returned x
      | None => Raised py.ValueError
      end
  | Data Null | Data (Dict _) | Vector _ | Ucell _ => Raised py.TypeError
  end.

(** [np.array(o.strip().split(), dtype=float)]. *)
Definition floats (o : object) : Outcome (list Q) :=
  match o with
  | Data (Text s) =>
      match floats_of_string s with
      | Some xs => Returned xs
      | None => Raised py.ValueError
      end
  | Data _ | Vector _ | Ucell _ => Raised py.AttributeError
  end.

(** [xs[i]] on an array. *)
Definition index (xs : list Q) (i : nat) : Outcome Q :=
  match nth_error xs i with
  | Some x => Returned x
  | None => Raised py.IndexError
  end.

(** [o.box]. *)
Definition box_of (o : object) : Outcome Cell :=
  match o with
  | Ucell c => Returned c
  | Data _ | Vector _ => Raised py.AttributeError
  end.

(** ** The monad *)

Definition I (A : Type) : Type := dict object -> Outcome A * dict object.

Definition pure {A} (x : A) : I A := fun d => (Returned x, d).

Definition fail {A} (e : py.exception) : I A := fun d => (Raised e, d).

Definition bindI {A B} (m : I A) (k : A -> I B) : I B :=
  fun d =>
    match m d with
    | (Returned x, d') => k x d'
    | (Raised e, d') => (Raised e, d')
    end.

Local Notation "x <- m ;; k" := (bindI m (fun x => k))
  (at level 61, m at next level, right associativity).

Definition outcome {A} (r : Outcome A) : I A := fun d => (r, d).

Definition read {A} (f : dict object -> A) : I A := fun d => (Returned (f d), d).

Definition write (k : string) (v : object) : I unit :=
  fun d => (Returned tt, setitem k v d).

(** ** The function *)

Definition keynames : list string :=
  ["dislocation_file"; "dislocation_model"; "dislocation_content";
   "dislocation_family"; "a_uvw"; "b_uvw"; "c_uvw"; "atomshift";
   "dislocation_burgersvector"; "dislocation_boundaryshape";
   "dislocation_boundarywidth"; "ucell"; "burgersvector";
   "boundarywidth"]%string.

(** Lines 84-85: [kwargs[keyname] = kwargs.get(keyname, keyname)]. *)
Definition default_keynames (kwargs : dict string) : dict string :=
  fold_left (fun kw keyname => setitem keyname (get kw keyname keyname) kw)
    keynames kwargs.

(** [input_dict.get(kwargs[name], default)]. *)
Definition input_get (kwargs : dict string) (name : string) (default : object) : I object :=
  k <- outcome (getitem kwargs name) ;;
  read (fun d => get d k default).

(** [input_dict[kwargs[name]] = v]. *)
Definition input_set (kwargs : dict string) (name : string) (v : object) : I unit :=
  k <- outcome (getitem kwargs name) ;;
  write k v.

(** Lines 102-106: the competing parameters. *)
Definition competing : list string :=
  ["atomshift"; "a_uvw"; "b_uvw"; "c_uvw"; "dislocation_burgersvector"]%string.

Fixpoint verify (kwargs : dict string) (keys : list string) : I unit :=
  match keys with
  | [] => pure tt
  | key :: keys' =>
      k <- outcome (getitem kwargs key) ;;
      supplied <- read (fun d => has_key d k) ;;
      if supplied then
        f <- outcome (getitem kwargs "dislocation_file") ;;
        fail (py.AssertionError (k ++ " and " ++ f ++ " cannot both be supplied"))
      else verify kwargs keys'
  end.

(** [input_dict[kwargs[name]] = model['calculation-parameter'][key]]. *)
Definition extract (kwargs : dict string) (model : node) (name key : string) : I unit :=
  p <- outcome (subscript model "calculation-parameter") ;;
  v <- outcome (subscript p key) ;;
  input_set kwargs name (Data v).

(** Lines 99-117: the model is loaded and read; the result is the local
    variable [dislocation_model], bound or not. *)
Definition load_model (kwargs : dict string) (dislocation_file : object) : I (option node) :=
  if is_None dislocation_file then pure None
  else
    _ <- verify kwargs competing ;;
    dislocation_model <- outcome (find_monopole dislocation_file) ;;
    v <- outcome (subscript dislocation_model "system-family") ;;
    _ <- input_set kwargs "dislocation_family" (Data v) ;;
    _ <- extract kwargs dislocation_model "a_uvw" "a_uvw" ;;
    _ <- extract kwargs dislocation_model "b_uvw" "b_uvw" ;;
    _ <- extract kwargs dislocation_model "c_uvw" "c_uvw" ;;
    _ <- extract kwargs dislocation_model "atomshift" "atomshift" ;;
    _ <- extract kwargs dislocation_model "dislocation_burgersvector" "burgersvector" ;;
    pure (Some dislocation_model).

(** Lines 123-138: the Cartesian Burgers vector and the boundary width. *)
Definition convert (kwargs : dict string) (ucell : object) (dislocation_boundarywidth : Q) :
    I (object * object) :=
  if is_None ucell then pure (None_, None_)
  else
    k <- outcome (getitem kwargs "dislocation_burgersvector") ;;
    s <- (fun d => (getitem d k, d)) ;;
    dislocation_burgersvector <- outcome (floats s) ;;
    x0 <- outcome (index dislocation_burgersvector 0) ;;
    bx <- outcome (box_of ucell) ;;
    x1 <- outcome (index dislocation_burgersvector 1) ;;
    x2 <- outcome (index dislocation_burgersvector 2) ;;
    pure (Vector (vadd (vadd (vscale x0 (box_avect bx)) (vscale x1 (box_bvect bx)))
                    (vscale x2 (box_cvect bx))),
          Float (box_a bx * dislocation_boundarywidth)).

(** A local variable is read. *)
Definition local {A} (name : string) (v : option A) : I A :=
  match v with
  | Some x => pure x
  | None => fail (py.UnboundLocalError name)
  end.

Definition dislocationmonopole (kwargs0 : dict string) : I unit :=
  let kwargs := default_keynames kwargs0 in
  dislocation_file <- input_get kwargs "dislocation_file" None_ ;;
  dislocation_content <- input_get kwargs "dislocation_content" None_ ;;
  dislocation_boundaryshape <-
    input_get kwargs "dislocation_boundaryshape" (Str "circle") ;;
  w <- input_get kwargs "dislocation_boundarywidth" (Float 3) ;;
  dislocation_boundarywidth <- outcome (float w) ;;
  ucell <- input_get kwargs "ucell" None_ ;;
  let dislocation_file :=
    if is_None dislocation_content then dislocation_file else dislocation_content in
  dislocation_model <- load_model kwargs dislocation_file ;;
  converted <- convert kwargs ucell dislocation_boundarywidth ;;
  model <- local "dislocation_model" dislocation_model ;;
  _ <- input_set kwargs "dislocation_model" (Data model) ;;
  _ <- input_set kwargs "dislocation_boundaryshape" dislocation_boundaryshape ;;
  _ <- input_set kwargs "dislocation_boundarywidth" (Float dislocation_boundarywidth) ;;
  _ <- input_set kwargs "burgersvector" (fst converted) ;;
  input_set kwargs "boundarywidth" (snd converted).

End Interpret.

(** ** Properties *)

Arguments default_keynames : simpl never.

(** The key that a name stands for. *)
Definition keyname (kwargs : dict string) (name : string) : string :=
  get kwargs name name.

(** The names whose keys [dislocationmonopole] writes. *)
Definition written : list string :=
  ["dislocation_family"; "a_uvw"; "b_uvw"; "c_uvw"; "atomshift";
   "dislocation_burgersvector"; "dislocation_model";
   "dislocation_boundaryshape"; "dislocation_boundarywidth";
   "burgersvector"; "boundarywidth"]%string.

Lemma setitem_same {V} (k : string) (v : V) (d : dict V) : setitem k v d k = Some v.
Proof. unfold setitem. rewrite String.eqb_refl. reflexivity. Qed.

Lemma setitem_other {V} (k k' : string) (v : V) (d : dict V) :
  k' <> k -> setitem k v d k' = d k'.
Proof. intros H. unfold setitem. apply String.eqb_neq in H. rewrite H. reflexivity. Qed.

Lemma defaults_get (l : list string) (kwargs : dict string) (name : string) :
  get (fold_left (fun kw keyname => setitem keyname (get kw keyname keyname) kw) l kwargs)
      name name
  = get kwargs name name.
Proof.
  revert kwargs. induction l as [| k l IH]; intros kwargs; [reflexivity |].
  cbn [fold_left]. rewrite IH. unfold get at 1.
  destruct (String.eqb_spec name k) as [-> | Hne].
  - rewrite setitem_same. reflexivity.
  - rewrite setitem_other by exact Hne. reflexivity.
Qed.

Lemma defaults_has (l : list string) (kwargs : dict string) (name : string) :
  In name l \/ kwargs name <> None ->
  fold_left (fun kw keyname => setitem keyname (get kw keyname keyname) kw) l kwargs name
  <> None.
Proof.
  revert kwargs. induction l as [| k l IH]; intros kwargs H.
  - destruct H as [[] | H]. exact H.
  - cbn [fold_left]. apply IH.
    destruct (String.eqb_spec name k) as [-> | Hne].
    + right. rewrite setitem_same. discriminate.
    + destruct H as [[-> | H] | H]; [congruence | left; exact H |].
      right. rewrite setitem_other by exact Hne. exact H.
Qed.

Section InterpretFacts.

Context {library : Library}.

(** After lines 84-85 every name has its key. *)
Lemma getitem_default (kwargs : dict string) (name : string) :
  In name keynames ->
  getitem (default_keynames kwargs) name = Returned (keyname kwargs name).
Proof.
  intros H. unfold getitem, keyname.
  pose proof (defaults_get keynames kwargs name) as Hg.
  pose proof (defaults_has keynames kwargs name (or_introl H)) as Hh.
  fold (default_keynames kwargs) in Hg, Hh. unfold get at 1 in Hg.
  destruct (default_keynames kwargs name); [rewrite Hg; reflexivity | congruence].
Qed.

Ltac a_keyname := simpl; tauto.

Lemma input_get_default kwargs name default d :
  In name keynames ->
  input_get (default_keynames kwargs) name default d
  = (Returned (get d (keyname kwargs name) default), d).
Proof.
  intros H. unfold input_get, bindI, outcome, read.
  rewrite (getitem_default kwargs name H). reflexivity.
Qed.

Lemma input_set_default kwargs name v d :
  In name keynames ->
  input_set (default_keynames kwargs) name v d
  = (Returned tt, setitem (keyname kwargs name) v d).
Proof.
  intros H. unfold input_set, bindI, outcome, write.
  rewrite (getitem_default kwargs name H). reflexivity.
Qed.

(** *** The frame *)

(** A computation that leaves the keys outside of [keys] as they are. *)
Definition frames {A} (keys : list string) (m : I A) : Prop :=
  forall d k, ~ In k keys -> snd (m d) k = d k.

Lemma frames_pure {A} keys (x : A) : frames keys (pure x).
Proof. intros d k _. reflexivity. Qed.

Lemma frames_fail {A} keys e : frames keys (@fail A e).
Proof. intros d k _. reflexivity. Qed.

Lemma frames_outcome {A} keys (r : Outcome A) : frames keys (outcome r).
Proof. intros d k _. reflexivity. Qed.

Lemma frames_read {A} keys (f : dict object -> A) : frames keys (read f).
Proof. intros d k _. reflexivity. Qed.

Lemma frames_bindI {A B} keys (m : I A) (f : A -> I B) :
  frames keys m -> (forall x, frames keys (f x)) -> frames keys (bindI m f).
Proof.
  intros Hm Hf d k Hk. unfold bindI. specialize (Hm d k Hk).
  destruct (m d) as [[x | e] d']; cbn [snd] in *.
  - rewrite (Hf x d' k Hk). exact Hm.
  - exact Hm.
Qed.

Lemma frames_input_get keys kwargs name default :
  frames keys (input_get kwargs name default).
Proof.
  apply frames_bindI; [apply frames_outcome | intros; apply frames_read].
Qed.

Lemma frames_input_set kwargs name v :
  In name written ->
  frames (map (keyname kwargs) written) (input_set (default_keynames kwargs) name v).
Proof.
  intros H d k Hk. rewrite input_set_default.
  - cbn [snd]. apply setitem_other. intros ->. apply Hk.
    apply in_map. exact H.
  - revert H. unfold written, keynames. simpl. tauto.
Qed.

Lemma frames_verify keys kwargs l : frames keys (verify kwargs l).
Proof.
  induction l as [| key l IH]; cbn [verify]; [apply frames_pure |].
  apply frames_bindI; [apply frames_outcome | intros k].
  apply frames_bindI; [apply frames_read | intros [|]]; [| exact IH].
  apply frames_bindI; [apply frames_outcome | intros; apply frames_fail].
Qed.

Lemma frames_local {A} keys name (v : option A) : frames keys (local name v).
Proof. destruct v; [apply frames_pure | apply frames_fail]. Qed.

Ltac frame :=
  repeat first
    [ apply frames_pure | apply frames_fail | apply frames_outcome | apply frames_read
    | apply frames_input_get | apply frames_verify | apply frames_local
    | apply frames_input_set; simpl; tauto
    | apply frames_bindI; [| intros ?] ].

Lemma frames_load_model kwargs source :
  frames (map (keyname kwargs) written) (load_model (default_keynames kwargs) source).
Proof.
  unfold load_model, extract. destruct (is_None source); frame.
Qed.

Lemma frames_convert keys kwargs ucell width :
  frames keys (convert kwargs ucell width).
Proof.
  unfold convert. destruct (is_None ucell); frame.
  intros d k _. reflexivity.
Qed.

(** X12: whatever its outcome, [dislocationmonopole] changes the
    dictionary at no key other than the eleven that it writes; the file,
    the content and the unit cell stay as they were unless a key was renamed
    to one of those. *)
Theorem dislocationmonopole_frame (kwargs : dict string) (d : dict object) (k : string) :
  ~ In k (map (keyname kwargs) written) ->
  snd (dislocationmonopole kwargs d) k = d k.
Proof.
  revert d k. change (frames (map (keyname kwargs) written) (dislocationmonopole kwargs)).
  unfold dislocationmonopole. cbv zeta.
  frame; [apply frames_load_model | apply frames_convert].
Qed.

(** *** Without a model *)

Lemma bindI_input_get {B} kwargs name default (f : object -> I B) d :
  In name keynames ->
  bindI (input_get (default_keynames kwargs) name default) f d
  = f (get d (keyname kwargs name) default) d.
Proof. intros H. unfold bindI. rewrite input_get_default by exact H. reflexivity. Qed.

Lemma bindI_input_set {B} kwargs name v (f : unit -> I B) d :
  In name keynames ->
  bindI (input_set (default_keynames kwargs) name v) f d
  = f tt (setitem (keyname kwargs name) v d).
Proof. intros H. unfold bindI. rewrite input_set_default by exact H. reflexivity. Qed.

Lemma bindI_outcome {A B} (r : Outcome A) (f : A -> I B) d :
  bindI (outcome r) f d
  = match r with Returned x => f x d | Raised e => (Raised e, d) end.
Proof. unfold bindI, outcome. destruct r; reflexivity. Qed.

(** The source of the model: the content if there is one, the file
    otherwise. *)
Definition source (kwargs : dict string) (d : dict object) : object :=
  if is_None (get d (keyname kwargs "dislocation_content") None_)
  then get d (keyname kwargs "dislocation_file") None_
  else get d (keyname kwargs "dislocation_content") None_.

(** The boundary width that is read. *)
Definition width (kwargs : dict string) (d : dict object) : Outcome Q :=
  float (get d (keyname kwargs "dislocation_boundarywidth") (Float 3)).

(** The function after its first lines, 88-96. *)
Lemma dislocationmonopole_eq kwargs d :
  dislocationmonopole kwargs d =
    match width kwargs d with
    | Raised e => (Raised e, d)
    | Returned w =>
        bindI (load_model (default_keynames kwargs) (source kwargs d))
          (fun dislocation_model =>
             bindI (convert (default_keynames kwargs)
                      (get d (keyname kwargs "ucell") None_) w)
               (fun converted =>
                  bindI (local "dislocation_model" dislocation_model)
                    (fun model =>
                       bindI (input_set (default_keynames kwargs) "dislocation_model"
                                (Data model))
                         (fun _ =>
                            bindI (input_set (default_keynames kwargs)
                                     "dislocation_boundaryshape"
                                     (get d (keyname kwargs "dislocation_boundaryshape")
                                        (Str "circle")))
                              (fun _ =>
                                 bindI (input_set (default_keynames kwargs)
                                          "dislocation_boundarywidth" (Float w))
                                   (fun _ =>
                                      bindI (input_set (default_keynames kwargs)
                                               "burgersvector" (fst converted))
                                        (fun _ =>
                                           input_set (default_keynames kwargs)
                                             "boundarywidth" (snd converted)))))))) d
    end.
Proof.
  unfold dislocationmonopole. cbv zeta.
  rewrite !bindI_input_get by a_keyname.
  rewrite bindI_outcome. fold (width kwargs d).
  destruct (width kwargs d) as [w | e]; [| reflexivity].
  rewrite bindI_input_get by a_keyname. reflexivity.
Qed.

(** A computation that only reads the dictionary. *)
Definition reads {A} (m : I A) : Prop := forall d, snd (m d) = d.

Lemma reads_bindI {A B} (m : I A) (f : A -> I B) :
  reads m -> (forall x, reads (f x)) -> reads (bindI m f).
Proof.
  intros Hm Hf d. unfold bindI. specialize (Hm d).
  destruct (m d) as [[x | e] d']; cbn [snd] in *; [rewrite (Hf x d') |]; exact Hm.
Qed.

Lemma reads_convert kwargs ucell w : reads (convert kwargs ucell w).
Proof.
  unfold convert. destruct (is_None ucell); [intros d; reflexivity |].
  repeat (apply reads_bindI; [intros d; reflexivity | intros ?]).
  intros d. reflexivity.
Qed.

Lemma bindI_pure {A B} (x : A) (f : A -> I B) d : bindI (pure x) f d = f x d.
Proof. reflexivity. Qed.

Lemma bindI_raises {A B} (m : I A) (f : A -> I B) d :
  reads m -> (forall x d', exists e, f x d' = (Raised e, d')) ->
  (exists e, fst (bindI m f d) = Raised e) /\ snd (bindI m f d) = d.
Proof.
  intros Hm Hf. unfold bindI. specialize (Hm d).
  destruct (m d) as [[x | e] d']; cbn [snd] in Hm; subst d'.
  - destruct (Hf x d) as (e & ->). split; [exists e |]; reflexivity.
  - split; [exists e |]; reflexivity.
Qed.

(** X13: without a file and without a content, [dislocationmonopole]
    does not return: the variable [dislocation_model] is bound only when a
    model is loaded, and it is read at the end in every case.  The
    dictionary is left as it was.  When there is no unit cell either and
    the boundary width is a number, the error is that of the unbound
    variable. *)
Theorem dislocationmonopole_without_model (kwargs : dict string) (d : dict object) :
  is_None (get d (keyname kwargs "dislocation_file") None_) = true ->
  is_None (get d (keyname kwargs "dislocation_content") None_) = true ->
  (exists e, fst (dislocationmonopole kwargs d) = Raised e) /\
  snd (dislocationmonopole kwargs d) = d /\
  (is_None (get d (keyname kwargs "ucell") None_) = true ->
   (exists w, width kwargs d = Returned w) ->
   fst (dislocationmonopole kwargs d) = Raised (py.UnboundLocalError "dislocation_model")).
Proof.
  intros Hf Hc. rewrite dislocationmonopole_eq.
  unfold source, load_model. rewrite Hc, Hf.
  destruct (width kwargs d) as [w | e].
  2:{ split; [eexists; reflexivity |]. split; [reflexivity |].
      intros _ (w & H). discriminate H. }
  rewrite bindI_pure.
  lazymatch goal with
  | |- context [bindI ?m ?f d] =>
      destruct (bindI_raises m f d) as (He & Hd);
        [apply reads_convert | intros x d'; eexists; reflexivity |]
  end.
  split; [exact He |]. split; [exact Hd |].
  intros Hu _. unfold convert. rewrite Hu. reflexivity.
Qed.

(** *** Competing parameters *)

Definition supplied_with (kwargs : dict string) (key : string) : py.exception :=
  py.AssertionError
    (keyname kwargs key ++ " and " ++ keyname kwargs "dislocation_file"
       ++ " cannot both be supplied").

Lemma verify_eq kwargs keys d :
  (forall key, In key keys -> In key keynames) ->
  verify (default_keynames kwargs) keys d =
    match find (fun key => has_key d (keyname kwargs key)) keys with
    | Some key => (Raised (supplied_with kwargs key), d)
    | None => (Returned tt, d)
    end.
Proof.
  induction keys as [| key keys IH]; intros Hin; [reflexivity |].
  cbn [verify find]. rewrite bindI_outcome, getitem_default by (apply Hin; left; reflexivity).
  unfold bindI at 1, read at 1.
  destruct (has_key d (keyname kwargs key)).
  - rewrite bindI_outcome, getitem_default by a_keyname. reflexivity.
  - apply IH. intros k Hk. apply Hin. right. exact Hk.
Qed.

(** X14: when a model is given, by a file or by a content, and one of
    the parameters that it defines is in the dictionary as well, whatever
    its value, [dislocationmonopole] fails its assertion on the first such
    parameter, in the order of the source, before it loads the model, and
    leaves the dictionary as it was. *)
Theorem dislocationmonopole_competing (kwargs : dict string) (d : dict object) (key : string) :
  is_None (source kwargs d) = false ->
  (exists w, width kwargs d = Returned w) ->
  find (fun key => has_key d (keyname kwargs key)) competing = Some key ->
  dislocationmonopole kwargs d = (Raised (supplied_with kwargs key), d).
Proof.
  intros Hs (w & Hw) Hk. rewrite dislocationmonopole_eq, Hw.
  unfold load_model. rewrite Hs.
  unfold bindI at 1. unfold bindI at 1.
  rewrite verify_eq, Hk; [reflexivity |].
  unfold competing, keynames. simpl. tauto.
Qed.

(** *** What is written *)

(** The dictionary after the model has been read, lines 112-117. *)
Definition loaded (kwargs : dict string) (family a b c shift burgers : node)
    (d : dict object) : dict object :=
  setitem (keyname kwargs "dislocation_burgersvector") (Data burgers)
    (setitem (keyname kwargs "atomshift") (Data shift)
       (setitem (keyname kwargs "c_uvw") (Data c)
          (setitem (keyname kwargs "b_uvw") (Data b)
             (setitem (keyname kwargs "a_uvw") (Data a)
                (setitem (keyname kwargs "dislocation_family") (Data family) d))))).

(** The dictionary after lines 141-145. *)
Definition saved (kwargs : dict string) (model : node) (shape : object) (w : Q)
    (converted : object * object) (d : dict object) : dict object :=
  setitem (keyname kwargs "boundarywidth") (snd converted)
    (setitem (keyname kwargs "burgersvector") (fst converted)
       (setitem (keyname kwargs "dislocation_boundarywidth") (Float w)
          (setitem (keyname kwargs "dislocation_boundaryshape") shape
             (setitem (keyname kwargs "dislocation_model") (Data model) d)))).

Ltac run_outcome H :=
  rewrite bindI_outcome in H;
  lazymatch type of H with
  | context [match ?r with Returned _ => _ | Raised _ => _ end] =>
      let E := fresh "E" in
      destruct r eqn:E; [| discriminate H]
  end.

Lemma bindI_extract {B} kwargs model name key (f : unit -> I B) d :
  In name keynames ->
  bindI (extract (default_keynames kwargs) model name key) f d =
    match subscript model "calculation-parameter" with
    | Returned p =>
        match subscript p key with
        | Returned v => f tt (setitem (keyname kwargs name) (Data v) d)
        | Raised e => (Raised e, d)
        end
    | Raised e => (Raised e, d)
    end.
Proof.
  intros H. unfold extract, bindI at 1. rewrite bindI_outcome.
  destruct (subscript model "calculation-parameter") as [p | e]; [| reflexivity].
  rewrite bindI_outcome. destruct (subscript p key) as [v | e]; [| reflexivity].
  rewrite input_set_default by exact H. reflexivity.
Qed.

Lemma load_model_returns kwargs src d m d1 :
  load_model (default_keynames kwargs) src d = (Returned m, d1) ->
  (is_None src = true /\ m = None /\ d1 = d) \/
  (exists model params family a b c shift burgers,
      is_None src = false /\
      find (fun key => has_key d (keyname kwargs key)) competing = None /\
      find_monopole src = Returned model /\
      subscript model "system-family" = Returned family /\
      subscript model "calculation-parameter" = Returned params /\
      subscript params "a_uvw" = Returned a /\
      subscript params "b_uvw" = Returned b /\
      subscript params "c_uvw" = Returned c /\
      subscript params "atomshift" = Returned shift /\
      subscript params "burgersvector" = Returned burgers /\
      m = Some model /\
      d1 = loaded kwargs family a b c shift burgers d).
Proof.
  unfold load_model. destruct (is_None src) eqn:Hs.
  - intros [= <- <-]. left. repeat split.
  - intros H. right. unfold bindI at 1 in H.
    rewrite verify_eq in H by (unfold competing, keynames; simpl; tauto).
    destruct (find _ competing) as [key |] eqn:Hk; [discriminate H |].
    run_outcome H. run_outcome H.
    rewrite bindI_input_set in H by a_keyname.
    rewrite bindI_extract in H by a_keyname.
    destruct (subscript _ "calculation-parameter") as [params |] eqn:Ep; [| discriminate H].
    destruct (subscript params "a_uvw") as [a |] eqn:Ea; [| discriminate H].
    rewrite bindI_extract, Ep in H by a_keyname.
    destruct (subscript params "b_uvw") as [b |] eqn:Eb; [| discriminate H].
    rewrite bindI_extract, Ep in H by a_keyname.
    destruct (subscript params "c_uvw") as [c |] eqn:Ec; [| discriminate H].
    rewrite bindI_extract, Ep in H by a_keyname.
    destruct (subscript params "atomshift") as [shift |] eqn:Es; [| discriminate H].
    rewrite bindI_extract, Ep in H by a_keyname.
    destruct (subscript params "burgersvector") as [burgers |] eqn:Ev; [| discriminate H].
    injection H as <- <-.
    eexists _, _, _, _, _, _, _, _. repeat split; eassumption || reflexivity.
Qed.

(** The Cartesian vector of lines 129-131. *)
Definition cartesian (x0 x1 x2 : Q) (bx : Cell) : vector :=
  vadd (vadd (vscale x0 (box_avect bx)) (vscale x1 (box_bvect bx)))
    (vscale x2 (box_cvect bx)).

Lemma convert_returns kwargs ucell w d conv d1 :
  convert (default_keynames kwargs) ucell w d = (Returned conv, d1) ->
  d1 = d /\
  ((is_None ucell = true /\ conv = (None_, None_)) \/
   (exists bx s xs x0 x1 x2,
       ucell = Ucell bx /\
       d (keyname kwargs "dislocation_burgersvector") = Some (Str s) /\
       floats_of_string s = Some xs /\
       nth_error xs 0 = Some x0 /\ nth_error xs 1 = Some x1 /\
       nth_error xs 2 = Some x2 /\
       conv = (Vector (cartesian x0 x1 x2 bx), Float (box_a bx * w)))).
Proof.
  intros H.
  pose proof (reads_convert (default_keynames kwargs) ucell w d) as Hr.
  rewrite H in Hr. cbn [snd] in Hr. split; [exact Hr |]. clear Hr.
  unfold convert in H. destruct (is_None ucell) eqn:Hu.
  - injection H as <- _. left. split; reflexivity.
  - right. rewrite bindI_outcome, getitem_default in H by a_keyname.
    unfold bindI at 1 in H. unfold getitem in H.
    destruct (d (keyname kwargs "dislocation_burgersvector")) as [o |] eqn:Ed;
      [| discriminate H].
    rewrite bindI_outcome in H. unfold floats in H.
    destruct o as [[| s | |] | |]; try discriminate H.
    destruct (floats_of_string s) as [xs |] eqn:Ef; [| discriminate H].
    rewrite bindI_outcome in H. unfold index in H.
    destruct (nth_error xs 0) as [x0 |] eqn:E0; [| discriminate H].
    rewrite bindI_outcome in H. unfold box_of in H.
    destruct ucell as [| | bx]; try discriminate H.
    rewrite bindI_outcome in H.
    destruct (nth_error xs 1) as [x1 |] eqn:E1; [| discriminate H].
    rewrite bindI_outcome in H.
    destruct (nth_error xs 2) as [x2 |] eqn:E2; [| discriminate H].
    injection H as <- _.
    exists bx, s, xs, x0, x1, x2. repeat split; assumption.
Qed.

(** The function when it returns. *)
Lemma dislocationmonopole_run kwargs d :
  fst (dislocationmonopole kwargs d) = Returned tt ->
  exists model params family a b c shift burgers w conv,
    is_None (source kwargs d) = false /\
    find (fun key => has_key d (keyname kwargs key)) competing = None /\
    find_monopole (source kwargs d) = Returned model /\
    subscript model "system-family" = Returned family /\
    subscript model "calculation-parameter" = Returned params /\
    subscript params "a_uvw" = Returned a /\
    subscript params "b_uvw" = Returned b /\
    subscript params "c_uvw" = Returned c /\
    subscript params "atomshift" = Returned shift /\
    subscript params "burgersvector" = Returned burgers /\
    width kwargs d = Returned w /\
    convert (default_keynames kwargs) (get d (keyname kwargs "ucell") None_) w
      (loaded kwargs family a b c shift burgers d)
    = (Returned conv, loaded kwargs family a b c shift burgers d) /\
    snd (dislocationmonopole kwargs d)
    = saved kwargs model
        (get d (keyname kwargs "dislocation_boundaryshape") (Str "circle")) w conv
        (loaded kwargs family a b c shift burgers d).
Proof.
  destruct (dislocationmonopole kwargs d) as [r d'] eqn:H. cbn [fst snd]. intros ->.
  rewrite dislocationmonopole_eq in H.
  destruct (width kwargs d) as [w | e] eqn:Hw; [| discriminate H].
  unfold bindI at 1 in H.
  destruct (load_model _ _ d) as [[m | e] d1] eqn:Hl; [| discriminate H].
  apply load_model_returns in Hl
    as [(_ & -> & ->)
       | (model & params & family & a & b & c & shift & burgers
          & Hs & Hk & Hm & Hf & Hp & Ha & Hb & Hc & Hsh & Hbv & -> & ->)].
  { unfold bindI at 1 in H.
    destruct (convert _ _ _ d) as [[conv | e] d2]; discriminate H. }
  unfold bindI at 1 in H.
  destruct (convert _ _ _ _) as [[conv | e] d2] eqn:Hcv; [| discriminate H].
  destruct (convert_returns _ _ _ _ _ _ Hcv) as (-> & _).
  unfold local in H. rewrite bindI_pure in H.
  rewrite !bindI_input_set, input_set_default in H by a_keyname.
  injection H as <-.
  exists model, params, family, a, b, c, shift, burgers, w, conv.
  repeat split; first [assumption | reflexivity].
Qed.

Lemma keyname_distinct (kwargs : dict string) (l : list string) (x y : string) :
  NoDup (map (keyname kwargs) l) -> In x l -> In y l -> x <> y ->
  keyname kwargs x <> keyname kwargs y.
Proof.
  induction l as [| z l IH]; intros Hnd Hx Hy Hne; [destruct Hx |].
  cbn [map] in Hnd. apply NoDup_cons_iff in Hnd as (Hz & Hnd).
  destruct Hx as [-> | Hx], Hy as [-> | Hy].
  - congruence.
  - intros E. apply Hz. rewrite E. apply in_map, Hy.
  - intros E. apply Hz. rewrite <- E. apply in_map, Hx.
  - apply IH; assumption.
Qed.

Ltac other_key Hnd :=
  apply (keyname_distinct _ keynames _ _ Hnd); [a_keyname | a_keyname | discriminate].

Ltac look Hnd :=
  unfold saved, loaded;
  repeat (rewrite setitem_other by other_key Hnd);
  rewrite setitem_same; reflexivity.

(** [Data v] for the value that a subscript returns. *)
Definition data (r : Outcome node) : option object :=
  match r with
  | Returned v => Some (Data v)
  | Raised _ => None
  end.

(** X15: when [dislocationmonopole] returns, for keys that are distinct:
    a model was given, that of the content if there is one, and none of
    the competing parameters; the dictionary has the model, its family and
    its five parameters, all of them found in the model; it has the
    boundary shape that it had, or 'circle', and the boundary width that
    it had as a float, or 3.0. *)
Theorem dislocationmonopole_returns (kwargs : dict string) (d : dict object) :
  NoDup (map (keyname kwargs) keynames) ->
  fst (dislocationmonopole kwargs d) = Returned tt ->
  exists model params w,
    is_None (source kwargs d) = false /\
    find (fun key => has_key d (keyname kwargs key)) competing = None /\
    find_monopole (source kwargs d) = Returned model /\
    subscript model "calculation-parameter" = Returned params /\
    width kwargs d = Returned w /\
    (let d' := snd (dislocationmonopole kwargs d) in
     d' (keyname kwargs "dislocation_model") = Some (Data model) /\
     d' (keyname kwargs "dislocation_family") = data (subscript model "system-family") /\
     d' (keyname kwargs "a_uvw") = data (subscript params "a_uvw") /\
     d' (keyname kwargs "b_uvw") = data (subscript params "b_uvw") /\
     d' (keyname kwargs "c_uvw") = data (subscript params "c_uvw") /\
     d' (keyname kwargs "atomshift") = data (subscript params "atomshift") /\
     d' (keyname kwargs "dislocation_burgersvector")
       = data (subscript params "burgersvector") /\
     d' (keyname kwargs "dislocation_boundaryshape")
       = Some (get d (keyname kwargs "dislocation_boundaryshape") (Str "circle")) /\
     d' (keyname kwargs "dislocation_boundarywidth") = Some (Float w)).
Proof.
  intros Hnd H.
  destruct (dislocationmonopole_run kwargs d H)
    as (model & params & family & a & b & c & shift & burgers & w & conv
        & Hs & Hk & Hm & Hf & Hp & Ha & Hb & Hc & Hsh & Hbv & Hw & _ & ->).
  exists model, params, w.
  rewrite Hf, Ha, Hb, Hc, Hsh, Hbv. cbn [data].
  split; [exact Hs |]. split; [exact Hk |]. split; [exact Hm |].
  split; [exact Hp |]. split; [exact Hw |].
  cbv zeta. repeat split; look Hnd.
Qed.

(** X16: when [dislocationmonopole] returns, for keys that are distinct:
    without a unit cell the Cartesian Burgers vector and the boundary width
    are [None]; with one, the Burgers vector of the model is a string of at
    least three numbers, the vector is their combination of the box
    vectors, and the width is the boundary width in units of the [a] of
    the box. *)
Theorem dislocationmonopole_converts (kwargs : dict string) (d : dict object) :
  NoDup (map (keyname kwargs) keynames) ->
  fst (dislocationmonopole kwargs d) = Returned tt ->
  let d' := snd (dislocationmonopole kwargs d) in
  let ucell := get d (keyname kwargs "ucell") None_ in
  (is_None ucell = true /\
   d' (keyname kwargs "burgersvector") = Some None_ /\
   d' (keyname kwargs "boundarywidth") = Some None_) \/
  (exists bx s xs x0 x1 x2 w,
      ucell = Ucell bx /\
      d' (keyname kwargs "dislocation_burgersvector") = Some (Str s) /\
      floats_of_string s = Some xs /\
      nth_error xs 0 = Some x0 /\ nth_error xs 1 = Some x1 /\
      nth_error xs 2 = Some x2 /\
      width kwargs d = Returned w /\
      d' (keyname kwargs "burgersvector") = Some (Vector (cartesian x0 x1 x2 bx)) /\
      d' (keyname kwargs "boundarywidth") = Some (Float (box_a bx * w))).
Proof.
  intros Hnd H.
  destruct (dislocationmonopole_run kwargs d H)
    as (model & params & family & a & b & c & shift & burgers & w & conv
        & _ & _ & _ & _ & _ & _ & _ & _ & _ & _ & Hw & Hcv & ->).
  cbv zeta.
  apply convert_returns in Hcv
    as (_ & [(Hu & ->) | (bx & s & xs & x0 & x1 & x2 & Hu & Hd & Hf & H0 & H1 & H2 & ->)]).
  - left. split; [exact Hu |]. split; look Hnd.
  - right. exists bx, s, xs, x0, x1, x2, w.
    split; [exact Hu |]. split.
    { rewrite <- Hd. unfold saved.
      repeat (rewrite setitem_other by other_key Hnd). reflexivity. }
    repeat (split; [assumption |]). split; look Hnd.
Qed.

End InterpretFacts.

(** ** A library for the examples *)

(** Natural numbers in decimal digits. *)
Fixpoint digits (s : string) (acc : nat) : option nat :=
  match s with
  | EmptyString => Some acc
  | String x s' =>
      let n := nat_of_ascii x in
      if (48 <=? n)%nat && (n <=? 57)%nat
      then digits s' (10 * acc + (n - 48))%nat
      else None
  end.

Definition number_of_string (s : string) : option Q :=
  match s with
  | EmptyString => None
  | _ => option_map (fun n => inject_Z (Z.of_nat n)) (digits s 0)
  end.

Fixpoint numbers (words : list string) : option (list Q) :=
  match words with
  | [] => Some []
  | EmptyString :: words' => numbers words'
  | word :: words' =>
      match number_of_string word, numbers words' with
      | Some x, Some xs => Some (x :: xs)
      | _, _ => None
      end
  end.

(** The record of a monopole in a cubic crystal. *)
Definition monopole : node :=
  Dict (member "system-family" (Text "cubic")
    (member "calculation-parameter"
       (Dict (member "a_uvw" (Text "1 0 0")
         (member "b_uvw" (Text "0 1 0")
           (member "c_uvw" (Text "0 0 1")
             (member "atomshift" (Text "0 0 0")
               (member "burgersvector" (Text "1 1 0") no_member))))))
       no_member)).

(** A library that knows one record, and numbers without sign or
    fraction. *)
Definition one_record : Library :=
  {| find_monopole o :=
       match o with
       | Data (Text "monopole.json") => Returned monopole
       | _ => Raised (py.LoadError "no such record")
       end;
     float_of_string := number_of_string;
     floats_of_string s := numbers (str.split " " s) |}.

Definition no_items {V} : dict V := fun _ => None.

(** A cubic cell of edge 4. *)
Definition cubic : Cell :=
  {| box_a := 4; box_avect := (4, 0, 0); box_bvect := (0, 4, 0); box_cvect := (0, 0, 4) |}.

(** Input terms with a cell only; with a cell and a record; with a width
    and an orientation of their own besides. *)
Definition terms_cell : dict object := setitem "ucell" (Ucell cubic) no_items.

Definition terms_record : dict object :=
  setitem "dislocation_file" (Str "monopole.json") terms_cell.

Definition terms_competing : dict object :=
  setitem "dislocation_boundarywidth" (Str "5") (setitem "b_uvw" None_ terms_record).

Definition interpreted (d : dict object) : Outcome unit * dict object :=
  dislocationmonopole (library := one_record) no_items d.

Lemma default_keys_distinct : NoDup (map (keyname no_items) keynames).
Proof.
  unfold keynames. cbn [map keyname get no_items].
  repeat (constructor; [simpl; intuition discriminate |]). constructor.
Qed.

Lemma dislocationmonopole_frame_witness :
  snd (interpreted terms_record) "dislocation_file"%string
  = terms_record "dislocation_file"%string /\
  snd (interpreted terms_record) "ucell"%string = terms_record "ucell"%string.
Proof.
  split;
    apply (dislocationmonopole_frame (library := one_record) no_items terms_record);
    simpl; intuition discriminate.
Defined.

Lemma dislocationmonopole_without_model_witness :
  (exists e, fst (interpreted no_items) = Raised e) /\
  snd (interpreted no_items) = no_items /\
  (is_None (get no_items (keyname no_items "ucell") None_) = true ->
   (exists w, width (library := one_record) no_items no_items = Returned w) ->
   fst (interpreted no_items) = Raised (py.UnboundLocalError "dislocation_model")).
Proof.
  apply (dislocationmonopole_without_model (library := one_record) no_items no_items);
    reflexivity.
Defined.

Lemma dislocationmonopole_competing_witness :
  interpreted terms_competing
  = (Raised (supplied_with no_items "b_uvw"), terms_competing).
Proof.
  apply (dislocationmonopole_competing (library := one_record) no_items terms_competing).
  - reflexivity.
  - exists 5. reflexivity.
  - reflexivity.
Defined.

Lemma dislocationmonopole_returns_witness :
  exists model params w,
    is_None (source no_items terms_record) = false /\
    find (fun key => has_key terms_record (keyname no_items key)) competing = None /\
    find_monopole (Library := one_record) (source no_items terms_record) = Returned model /\
    subscript model "calculation-parameter" = Returned params /\
    width (library := one_record) no_items terms_record = Returned w /\
    (let d' := snd (interpreted terms_record) in
     d' (keyname no_items "dislocation_model") = Some (Data model) /\
     d' (keyname no_items "dislocation_family") = data (subscript model "system-family") /\
     d' (keyname no_items "a_uvw") = data (subscript params "a_uvw") /\
     d' (keyname no_items "b_uvw") = data (subscript params "b_uvw") /\
     d' (keyname no_items "c_uvw") = data (subscript params "c_uvw") /\
     d' (keyname no_items "atomshift") = data (subscript params "atomshift") /\
     d' (keyname no_items "dislocation_burgersvector")
       = data (subscript params "burgersvector") /\
     d' (keyname no_items "dislocation_boundaryshape")
       = Some (get terms_record (keyname no_items "dislocation_boundaryshape")
                 (Str "circle")) /\
     d' (keyname no_items "dislocation_boundarywidth") = Some (Float w)).
Proof.
  apply (dislocationmonopole_returns (library := one_record) no_items terms_record).
  - exact default_keys_distinct.
  - vm_compute. reflexivity.
Defined.

Lemma dislocationmonopole_converts_witness :
  let d' := snd (interpreted terms_record) in
  let ucell := get terms_record (keyname no_items "ucell") None_ in
  (is_None ucell = true /\
   d' (keyname no_items "burgersvector") = Some None_ /\
   d' (keyname no_items "boundarywidth") = Some None_) \/
  (exists bx s xs x0 x1 x2 w,
      ucell = Ucell bx /\
      d' (keyname no_items "dislocation_burgersvector") = Some (Str s) /\
      floats_of_string (Library := one_record) s = Some xs /\
      nth_error xs 0 = Some x0 /\ nth_error xs 1 = Some x1 /\
      nth_error xs 2 = Some x2 /\
      width (library := one_record) no_items terms_record = Returned w /\
      d' (keyname no_items "burgersvector") = Some (Vector (cartesian x0 x1 x2 bx)) /\
      d' (keyname no_items "boundarywidth") = Some (Float (box_a bx * w))).
Proof.
  apply (dislocationmonopole_converts (library := one_record) no_items terms_record).
  - exact default_keys_distinct.
  - vm_compute. reflexivity.
Defined.

(** * The configuration check of a point defect *)

(** [check_config] of calc_point_defect_formation_static.py (lines
    118-169) compares the relaxed configuration of [ptd.dump] with the
    defect that was inserted, and the data model records what it found
    (lines 272-278).

    The parameter sets are taken as [main] prepares them (lines 28-34):
    [pos] and [db_vect], where a set has them, are three floats.  The
    dump file, the distances of the periodic system and the Euclidean norm
    belong to atomman and numpy; they are the members of [Dump].  A
    division by a norm that is zero gives an array of [inf] and [nan] in
    numpy, with a warning and no exception: [NotFinite] stands for such
    an array. *)

Definition vsub (u v : vector) : vector :=
  let '(u0, u1, u2) := u in
  let '(v0, v1, v2) := v in (u0 - v0, u1 - v1, u2 - v2).

(** [v / x] for a number [x] that is not zero. *)
Definition vover (v : vector) (x : Q) : vector :=
  let '(v0, v1, v2) := v in (v0 / x, v1 / x, v2 / x).

(** [np.sum(rows, axis=0)] on rows of three numbers. *)
Definition vsum (rows : list vector) : vector :=
  fold_left vadd rows (0, 0, 0).

(** One set of [atomman-defect-point-parameters]: the keys that
    [check_config] reads, [None] for a key that the set does not have. *)
Record Params : Type := {
  ptd_type : option string;
  pos : option vector;
  db_vect : option vector
}.

(** [params['pos'] = x]. *)
Definition with_pos (p : Params) (x : vector) : Params :=
  {| ptd_type := ptd_type p; pos := Some x; db_vect := db_vect p |}.

(** The values of [results_dict]: booleans, floats (the energies of
    [ptd_energy]) and arrays of three numbers. *)
Inductive entry : Type :=
| Flag (b : bool)
| Scalar (x : Q)
| Array (v : vector)
| NotFinite.

(** The two objects that [check_config] is passed by reference and
    changes in place: the parameter sets of [ptd], in the order of
    [ptd.finds('atomman-defect-point-parameters')], and [results_dict].
    The default of [results_dict] is one dictionary, made when the
    function is defined: calls that leave the argument out share it as
    calls that pass one dictionary do. *)
Record Shared : Type := {
  ptd : list Params;
  results_dict : dict entry
}.

Class Dump : Type := {
  (** a system that was read from a dump file *)
  Snapshot : Type;
  (** [lmp.atom_dump.load(dump_file)] *)
  atom_dump_load : string -> Outcome Snapshot;
  (** [system.dvect(system.atoms.view['pos'], pos)], a row for each atom *)
  dvect : Snapshot -> vector -> list vector;
  (** [system.natoms] *)
  natoms : Snapshot -> Z;
  (** [system.atoms_prop(a_id=i, key='pos')] *)
  atoms_prop_pos : Snapshot -> Z -> Outcome vector;
  (** [np.linalg.norm] of three numbers *)
  norm : vector -> Q
}.

(** [v / np.linalg.norm(v)]. *)
Definition over_norm {dump : Dump} (v : vector) : option vector :=
  if Qeq_bool (norm v) 0 then None else Some (vover v (norm v)).

(** [u - v] when either may have components that are not finite. *)
Definition difference (u v : option vector) : entry :=
  match u, v with
  | Some u', Some v' => Array (vsub u' v')
  | _, _ => NotFinite
  end.

(** [np.allclose(e, np.zeros(3), atol=1e-5)], with the default [rtol] of
    1e-5: [absolute(a - b) <= atol + rtol * absolute(b)] for every
    component, a scalar being broadcast. *)
Definition close_to_zero (x : Q) : bool :=
  Qle_bool (Qabs (x - 0)) ((1 # 100000) + (1 # 100000) * Qabs 0).

Definition allclose_zeros (e : entry) : bool :=
  match e with
  | Array (x, y, z) => close_to_zero x && close_to_zero y && close_to_zero z
  | Scalar x => close_to_zero x
  | Flag b => close_to_zero (if b then 1 else 0)
  | NotFinite => false
  end.

(** The key of the shift that is computed for a defect type. *)
Definition shift_key (t : string) : option string :=
  if (t =? "i")%string || (t =? "s")%string then Some "position_shift"%string
  else if (t =? "db")%string then Some "db_vect_shift"%string
  else None.

Section CheckConfig.

Context {dump : Dump}.

Definition K (A : Type) : Type := Shared -> Outcome A * Shared.

Definition retK {A} (x : A) : K A := fun s => (Returned x, s).

Definition raiseK {A} (e : py.exception) : K A := fun s => (Raised e, s).

Definition bindK {A B} (m : K A) (k : A -> K B) : K B :=
  fun s =>
    match m s with
    | (Returned x, s') => k x s'
    | (Raised e, s') => (Raised e, s')
    end.

Local Notation "x <- m ;; k" := (bindK m (fun x => k))
  (at level 61, m at next level, right associativity).

Definition called {A} (r : Outcome A) : K A := fun s => (r, s).

(** [results_dict[k] = v] and [results_dict[k]]. *)
Definition results_set (k : string) (v : entry) : K unit :=
  fun s => (Returned tt, {| ptd := ptd s; results_dict := setitem k v (results_dict s) |}).

Definition results_get (k : string) : K entry :=
  fun s => (getitem (results_dict s) k, s).

(** [d[key]] on the value of a key that may be missing. *)
Definition key_of {A} (key : string) (v : option A) : K A :=
  match v with
  | Some x => retK x
  | None => raiseK (py.KeyError key)
  end.

(** Lines 120-129.  With one set, [params] is that set; with two, the
    position of the first is replaced, in [ptd], by the mean of the two
    positions, and [params] is the first set; otherwise [params] stays the
    list ([None]).  No line after these changes a set, so that the set is
    read here as it stays. *)
Definition choose : K (option Params) :=
  fun s =>
    match ptd s with
    | [p] => (Returned (Some p), s)
    | [p0; p1] =>
        (x0 <- key_of "pos" (pos p0) ;;
         x1 <- key_of "pos" (pos p1) ;;
         let di_pos := vover (vadd x0 x1) 2 in
         let p := with_pos p0 di_pos in
         fun s => (Returned (Some p), {| ptd := [p; p1]; results_dict := results_dict s |})) s
    | _ => (Returned None, s)
    end.

(** [params[key]]: a list cannot be subscripted by a string. *)
Definition subscript_params {A} (params : option Params) (key : string)
    (value : Params -> option A) : K A :=
  match params with
  | Some p => key_of key (value p)
  | None => raiseK py.TypeError
  end.

(** [if not np.allclose(results_dict[k], np.zeros(3), atol=1e-5):
    results_dict['has_reconfigured'] = True]. *)
Definition flag_unless_zero (k : string) : K unit :=
  e <- results_get k ;;
  if negb (allclose_zeros e) then results_set "has_reconfigured" (Flag true)
  else retK tt.

Definition check_config (dump_file : string) (cutoff : Q) : K (dict entry) :=
  params <- choose ;;
  pos_ <- subscript_params params "pos" pos ;;
  system <- called (atom_dump_load dump_file) ;;
  let pos_vects := dvect system pos_ in
  let close := filter (fun v => Qlt_bool (norm v) cutoff) pos_vects in
  _ <- results_set "centrosummation" (Array (vsum close)) ;;
  _ <- results_set "has_reconfigured" (Flag false) ;;
  _ <- flag_unless_zero "centrosummation" ;;
  t <- subscript_params params "ptd_type" ptd_type ;;
  _ <- (if (t =? "i")%string || (t =? "s")%string then
          new_pos <- called (atoms_prop_pos system (natoms system - 1)) ;;
          _ <- results_set "position_shift" (Array (vsub pos_ new_pos)) ;;
          flag_unless_zero "position_shift"
        else if (t =? "db")%string then
          v <- subscript_params params "db_vect" db_vect ;;
          let db_vect_ := over_norm v in
          new_pos1 <- called (atoms_prop_pos system (natoms system - 1)) ;;
          new_pos2 <- called (atoms_prop_pos system (natoms system - 2)) ;;
          let new_db_vect := over_norm (vsub new_pos1 new_pos2) in
          _ <- results_set "db_vect_shift" (difference db_vect_ new_db_vect) ;;
          flag_unless_zero "db_vect_shift"
        else retK tt) ;;
  fun s => (Returned (results_dict s), s).

End CheckConfig.

(** [list(a)] of an array. *)
Definition as_list (e : entry) : Outcome entry :=
  match e with
  | Array _ | NotFinite => Returned e
  | Flag _ | Scalar _ => Raised py.TypeError
  end.

Definition bindO {A B} (m : Outcome A) (k : A -> Outcome B) : Outcome B :=
  match m with
  | Returned x => k x
  | Raised e => Raised e
  end.

(** Lines 272-278 of [data_model]: the entries of
    [reconfiguration-check], in their order. *)
Definition reconfiguration_check (results : dict entry) : Outcome (list (string * entry)) :=
  bindO (getitem results "has_reconfigured") (fun has_reconfigured =>
  bindO (getitem results "centrosummation") (fun c =>
  bindO (as_list c) (fun centrosummation =>
  let r_c := [("has_reconfigured", has_reconfigured);
              ("centrosummation", centrosummation)]%string in
  if has_key results "position_shift" then
    bindO (getitem results "position_shift") (fun p =>
    bindO (as_list p) (fun position_shift =>
    Returned (r_c ++ [("position_shift"%string, position_shift)])))
  else if has_key results "db_vect_shift" then
    bindO (getitem results "db_vect_shift") (fun v =>
    bindO (as_list v) (fun db_vect_shift =>
    Returned (r_c ++ [("db_vect_shift"%string, db_vect_shift)])))
  else Returned r_c))).

(** ** Properties *)

Section CheckConfigFacts.

Context {dump : Dump}.

Lemma close_to_zero_iff (x : Q) :
  close_to_zero x = true <-> Qabs x <= 1 # 100000.
Proof.
  unfold close_to_zero. rewrite Qle_bool_iff.
  assert (E : Qabs (x - 0) == Qabs x) by (apply Qabs_wd; ring).
  rewrite E. change (Qabs 0) with 0.
  assert (E' : (1 # 100000) + (1 # 100000) * 0 == 1 # 100000) by ring.
  rewrite E'. reflexivity.
Qed.

(** X17: [check_config] takes one parameter set, or two.  With none, or
    with more than two, it raises [TypeError] (the list of the sets is
    subscripted by a string) before the dump file is read, and changes
    neither the sets nor the results. *)
Theorem check_config_sets (dump_file : string) (cutoff : Q) (s : Shared) :
  length (ptd s) <> 1%nat -> length (ptd s) <> 2%nat ->
  check_config dump_file cutoff s = (Raised py.TypeError, s).
Proof.
  intros H1 H2. unfold check_config, bindK, choose.
  destruct (ptd s) as [| p0 [| p1 [| p2 l]]]; simpl in *; try reflexivity; congruence.
Qed.

(** Lines 131-169, after [params] is chosen. *)
Definition after_choose (dump_file : string) (cutoff : Q) (params : option Params) :
    K (dict entry) :=
  bindK (subscript_params params "pos" pos) (fun pos_ =>
  bindK (called (atom_dump_load dump_file)) (fun system =>
  bindK (results_set "centrosummation"
           (Array (vsum (filter (fun v => Qlt_bool (norm v) cutoff)
                           (dvect system pos_))))) (fun _ =>
  bindK (results_set "has_reconfigured" (Flag false)) (fun _ =>
  bindK (flag_unless_zero "centrosummation") (fun _ =>
  bindK (subscript_params params "ptd_type" ptd_type) (fun t =>
  bindK (if (t =? "i")%string || (t =? "s")%string then
           bindK (called (atoms_prop_pos system (natoms system - 1))) (fun new_pos =>
           bindK (results_set "position_shift" (Array (vsub pos_ new_pos))) (fun _ =>
           flag_unless_zero "position_shift"))
         else if (t =? "db")%string then
           bindK (subscript_params params "db_vect" db_vect) (fun v =>
           bindK (called (atoms_prop_pos system (natoms system - 1))) (fun new_pos1 =>
           bindK (called (atoms_prop_pos system (natoms system - 2))) (fun new_pos2 =>
           bindK (results_set "db_vect_shift"
                    (difference (over_norm v) (over_norm (vsub new_pos1 new_pos2))))
             (fun _ => flag_unless_zero "db_vect_shift"))))
         else retK tt) (fun _ =>
  fun s => (Returned (results_dict s), s)))))))).

Lemma check_config_eq (dump_file : string) (cutoff : Q) :
  check_config dump_file cutoff = bindK choose (after_choose dump_file cutoff).
Proof. reflexivity. Qed.

(** The mean of two positions, as line 127 computes it. *)
Definition midpoint (u v : vector) : vector := vover (vadd u v) 2.

Lemma choose_two (s : Shared) (p0 p1 : Params) (x0 x1 : vector) :
  ptd s = [p0; p1] -> pos p0 = Some x0 -> pos p1 = Some x1 ->
  choose s = (Returned (Some (with_pos p0 (midpoint x0 x1))),
              {| ptd := [with_pos p0 (midpoint x0 x1); p1];
                 results_dict := results_dict s |}).
Proof.
  intros Hs H0 H1. unfold choose, bindK. rewrite Hs, H0, H1. reflexivity.
Qed.

(** After [choose], the sets stay as they are. *)
Definition keeps_ptd {A} (m : K A) : Prop :=
  forall s, ptd (snd (m s)) = ptd s.

Lemma keeps_retK {A} (x : A) : keeps_ptd (retK x).
Proof. intros s. reflexivity. Qed.

Lemma keeps_raiseK {A} (e : py.exception) : keeps_ptd (@raiseK A e).
Proof. intros s. reflexivity. Qed.

Lemma keeps_called {A} (r : Outcome A) : keeps_ptd (called r).
Proof. intros s. reflexivity. Qed.

Lemma keeps_bindK {A B} (m : K A) (k : A -> K B) :
  keeps_ptd m -> (forall x, keeps_ptd (k x)) -> keeps_ptd (bindK m k).
Proof.
  intros Hm Hk s. unfold bindK. specialize (Hm s).
  destruct (m s) as [[x | e] s1]; simpl in *.
  - rewrite Hk. exact Hm.
  - exact Hm.
Qed.

Lemma keeps_results_set (k : string) (v : entry) : keeps_ptd (results_set k v).
Proof. intros s. reflexivity. Qed.

Lemma keeps_results_get (k : string) : keeps_ptd (results_get k).
Proof. intros s. reflexivity. Qed.

Lemma keeps_key_of {A} (key : string) (v : option A) : keeps_ptd (key_of key v).
Proof. destruct v; [apply keeps_retK | apply keeps_raiseK]. Qed.

Lemma keeps_subscript_params {A} params key (value : Params -> option A) :
  keeps_ptd (subscript_params params key value).
Proof. destruct params; [apply keeps_key_of | apply keeps_raiseK]. Qed.

Lemma keeps_flag_unless_zero (k : string) : keeps_ptd (flag_unless_zero k).
Proof.
  apply keeps_bindK; [apply keeps_results_get |].
  intros e. destruct (negb (allclose_zeros e)); [apply keeps_results_set | apply keeps_retK].
Qed.

Ltac keeps :=
  repeat first
    [ apply keeps_retK | apply keeps_raiseK | apply keeps_called
    | apply keeps_results_set | apply keeps_results_get
    | apply keeps_subscript_params | apply keeps_flag_unless_zero
    | apply keeps_bindK; [| intros ?]
    | match goal with |- keeps_ptd (if ?b then _ else _) => destruct b end
    | (intros ?; reflexivity) ].

Lemma keeps_after_choose dump_file cutoff params :
  keeps_ptd (after_choose dump_file cutoff params).
Proof. unfold after_choose. keeps. Qed.

Lemma check_config_two dump_file cutoff s p0 p1 x0 x1 :
  ptd s = [p0; p1] -> pos p0 = Some x0 -> pos p1 = Some x1 ->
  ptd (snd (check_config dump_file cutoff s)) = [with_pos p0 (midpoint x0 x1); p1].
Proof.
  intros Hs H0 H1. rewrite check_config_eq. unfold bindK.
  rewrite (choose_two s p0 p1 x0 x1 Hs H0 H1).
  rewrite keeps_after_choose. reflexivity.
Qed.

(** X18: with two parameter sets that have a position, [check_config]
    writes the mean of the two positions into the first set of the
    caller's [ptd], whatever its outcome, and leaves the second as it is:
    a second check of the same [ptd] is made around another point, the
    mean of that mean and the second position. *)
Theorem check_config_divacancy dump_file dump_file' cutoff cutoff' s p0 p1 x0 x1 :
  ptd s = [p0; p1] -> pos p0 = Some x0 -> pos p1 = Some x1 ->
  let s1 := snd (check_config dump_file cutoff s) in
  let s2 := snd (check_config dump_file' cutoff' s1) in
  ptd s1 = [with_pos p0 (midpoint x0 x1); p1] /\
  ptd s2 = [with_pos p0 (midpoint (midpoint x0 x1) x1); p1].
Proof.
  intros Hs H0 H1 s1 s2.
  assert (E1 : ptd s1 = [with_pos p0 (midpoint x0 x1); p1])
    by (apply check_config_two; assumption).
  split; [exact E1 |].
  unfold s2. rewrite (check_config_two _ _ s1 _ _ (midpoint x0 x1) x1 E1);
    first [reflexivity | assumption].
Qed.

(** *** What a call that returns has done *)

Lemma bindK_returned {A B} (m : K A) (k : A -> K B) (s s' : Shared) (r : B) :
  bindK m k s = (Returned r, s') ->
  exists x s1, m s = (Returned x, s1) /\ k x s1 = (Returned r, s').
Proof.
  unfold bindK. destruct (m s) as [[x | e] s1]; [eauto | discriminate].
Qed.

Lemma subscript_params_returned {A} params key (value : Params -> option A) s x s1 :
  subscript_params params key value s = (Returned x, s1) ->
  s1 = s /\ exists p, params = Some p /\ value p = Some x.
Proof.
  destruct params as [p |]; simpl; [| discriminate].
  unfold key_of. destruct (value p) as [v |] eqn:E; [| discriminate].
  intros [= -> ->]. eauto.
Qed.

Lemma called_returned {A} (o : Outcome A) s x s1 :
  called o s = (Returned x, s1) -> s1 = s /\ o = Returned x.
Proof. unfold called. intros [= -> ->]. split; reflexivity. Qed.

(** The results after [flag_unless_zero]. *)
Definition flagged (e : entry) (d : dict entry) : dict entry :=
  if negb (allclose_zeros e) then setitem "has_reconfigured" (Flag true) d else d.

Lemma flag_unless_zero_returned k s u s1 :
  flag_unless_zero k s = (Returned u, s1) ->
  exists e, results_dict s k = Some e /\
            ptd s1 = ptd s /\ results_dict s1 = flagged e (results_dict s).
Proof.
  unfold flag_unless_zero, bindK, results_get, getitem, flagged.
  destruct (results_dict s k) as [e |]; [| discriminate].
  intros H. exists e.
  destruct (negb (allclose_zeros e)); injection H as <- <-; repeat split.
Qed.

Lemma flagged_other e d k :
  k <> "has_reconfigured"%string -> flagged e d k = d k.
Proof.
  intros H. unfold flagged. destruct (negb (allclose_zeros e)); [| reflexivity].
  apply setitem_other. exact H.
Qed.

Lemma flagged_flag e d b :
  d "has_reconfigured"%string = Some (Flag b) ->
  flagged e d "has_reconfigured"%string = Some (Flag (b || negb (allclose_zeros e))).
Proof.
  intros H. unfold flagged. destruct (negb (allclose_zeros e)).
  - rewrite orb_true_r. reflexivity.
  - rewrite orb_false_r. exact H.
Qed.

(** What the type of the defect adds to the check: the entry that is
    written, and whether it is far from zero. *)
Definition shifted (system : Snapshot) (p : Params) (x : vector) (t : string)
    (r : dict entry) (moved : bool) : Prop :=
  match shift_key t with
  | Some "position_shift"%string =>
      exists new_pos,
        atoms_prop_pos system (natoms system - 1) = Returned new_pos /\
        r "position_shift"%string = Some (Array (vsub x new_pos)) /\
        moved = negb (allclose_zeros (Array (vsub x new_pos)))
  | Some _ =>
      exists v new_pos1 new_pos2,
        db_vect p = Some v /\
        atoms_prop_pos system (natoms system - 1) = Returned new_pos1 /\
        atoms_prop_pos system (natoms system - 2) = Returned new_pos2 /\
        let shift := difference (over_norm v) (over_norm (vsub new_pos1 new_pos2)) in
        r "db_vect_shift"%string = Some shift /\
        moved = negb (allclose_zeros shift)
  | None => moved = false
  end.

Lemma after_choose_returned dump_file cutoff p s r s' :
  after_choose dump_file cutoff (Some p) s = (Returned r, s') ->
  exists x system t moved,
    pos p = Some x /\ ptd_type p = Some t /\
    atom_dump_load dump_file = Returned system /\
    r = results_dict s' /\
    let centro := vsum (filter (fun v => Qlt_bool (norm v) cutoff) (dvect system x)) in
    r "centrosummation"%string = Some (Array centro) /\
    r "has_reconfigured"%string
      = Some (Flag (negb (allclose_zeros (Array centro)) || moved)) /\
    shifted system p x t r moved.
Proof.
  unfold after_choose. intros H.
  apply bindK_returned in H as (x & s1 & H1 & H).
  apply subscript_params_returned in H1 as (-> & p' & [= <-] & Hx).
  apply bindK_returned in H as (system & s1 & H1 & H).
  apply called_returned in H1 as (-> & Hl).
  apply bindK_returned in H as ([] & s1 & [= <-] & H).
  apply bindK_returned in H as ([] & s2 & [= <-] & H).
  apply bindK_returned in H as ([] & s3 & H3 & H).
  apply flag_unless_zero_returned in H3 as (e & He & Hp3 & Hr3).
  cbn in He. injection He as <-. cbn [results_dict] in Hr3.
  apply bindK_returned in H as (t & s4 & H4 & H).
  apply subscript_params_returned in H4 as (-> & p' & [= <-] & Ht).
  apply bindK_returned in H as ([] & s5 & H5 & [= <- <-]).
  set (centro := vsum (filter (fun v => Qlt_bool (norm v) cutoff) (dvect system x))) in *.
  assert (Hc3 : results_dict s3 "centrosummation"%string = Some (Array centro))
    by (rewrite Hr3, flagged_other by discriminate; reflexivity).
  assert (Hf3 : results_dict s3 "has_reconfigured"%string
                = Some (Flag (negb (allclose_zeros (Array centro)))))
    by (rewrite Hr3; apply (flagged_flag _ _ false); reflexivity).
  clear Hr3 Hp3.
  exists x, system, t. unfold shifted, shift_key.
  destruct ((t =? "i")%string || (t =? "s")%string).
  - apply bindK_returned in H5 as (new_pos & s4 & H4 & H5).
    apply called_returned in H4 as (-> & Hn).
    apply bindK_returned in H5 as ([] & s4 & [= <-] & H5).
    apply flag_unless_zero_returned in H5 as (e & He & _ & Hr5).
    cbn in He. injection He as <-. cbn [results_dict] in Hr5.
    exists (negb (allclose_zeros (Array (vsub x new_pos)))).
    repeat split; try assumption.
    + rewrite Hr5, flagged_other, setitem_other by discriminate. exact Hc3.
    + rewrite Hr5. apply flagged_flag. rewrite setitem_other by discriminate. exact Hf3.
    + exists new_pos. repeat split; [exact Hn |].
      rewrite Hr5, flagged_other by discriminate. apply setitem_same.
  - destruct (t =? "db")%string.
    + apply bindK_returned in H5 as (v & s4 & H4 & H5).
      apply subscript_params_returned in H4 as (-> & p' & [= <-] & Hv).
      apply bindK_returned in H5 as (new_pos1 & s4 & H4 & H5).
      apply called_returned in H4 as (-> & Hn1).
      apply bindK_returned in H5 as (new_pos2 & s4 & H4 & H5).
      apply called_returned in H4 as (-> & Hn2).
      apply bindK_returned in H5 as ([] & s4 & [= <-] & H5).
      apply flag_unless_zero_returned in H5 as (e & He & _ & Hr5).
      cbn in He. injection He as <-. cbn [results_dict] in Hr5.
      exists (negb (allclose_zeros
                      (difference (over_norm v) (over_norm (vsub new_pos1 new_pos2))))).
      repeat split; try assumption.
      * rewrite Hr5, flagged_other, setitem_other by discriminate. exact Hc3.
      * rewrite Hr5. apply flagged_flag. rewrite setitem_other by discriminate. exact Hf3.
      * exists v, new_pos1, new_pos2. repeat split; try assumption.
        rewrite Hr5, flagged_other by discriminate. apply setitem_same.
    + injection H5 as <-. exists false. rewrite orb_false_r.
      repeat split; assumption.
Qed.

Lemma choose_returned s params s1 :
  choose s = (Returned params, s1) ->
  results_dict s1 = results_dict s /\
  (forall p, params = Some p ->
     hd_error (ptd s1) = Some p /\
     exists p0, hd_error (ptd s) = Some p0 /\ ptd_type p = ptd_type p0).
Proof.
  unfold choose, bindK, key_of.
  destruct (ptd s) as [| p0 [| p1 [| p2 l]]] eqn:Hs.
  - intros [= <- <-]. split; [reflexivity | discriminate].
  - intros [= <- <-]. split; [reflexivity |]. intros p [= <-]. rewrite Hs.
    split; [reflexivity | exists p0; split; reflexivity].
  - destruct (pos p0) as [x0 |]; [| discriminate].
    destruct (pos p1) as [x1 |]; [| discriminate].
    intros [= <- <-]. split; [reflexivity |]. intros p [= <-]. simpl.
    split; [reflexivity | exists p0; split; reflexivity].
  - intros [= <- <-]. split; [reflexivity | discriminate].
Qed.

Lemma check_config_run dump_file cutoff s r s' :
  check_config dump_file cutoff s = (Returned r, s') ->
  exists p x system t moved,
    hd_error (ptd s') = Some p /\
    pos p = Some x /\ ptd_type p = Some t /\
    atom_dump_load dump_file = Returned system /\
    r = results_dict s' /\
    let centro := vsum (filter (fun v => Qlt_bool (norm v) cutoff) (dvect system x)) in
    r "centrosummation"%string = Some (Array centro) /\
    r "has_reconfigured"%string
      = Some (Flag (negb (allclose_zeros (Array centro)) || moved)) /\
    shifted system p x t r moved.
Proof.
  rewrite check_config_eq. intros H.
  apply bindK_returned in H as (params & s1 & Hc & H).
  apply choose_returned in Hc as (_ & Hp).
  destruct params as [p |].
  - destruct (Hp p eq_refl) as (Hh & _).
    pose proof (keeps_after_choose dump_file cutoff (Some p) s1) as Hk.
    rewrite H in Hk. simpl in Hk.
    apply after_choose_returned in H as (x & system & t & moved & H).
    exists p, x, system, t, moved. rewrite Hk. split; [exact Hh | exact H].
  - discriminate H.
Qed.

(** X19: when [check_config] returns, it returns the dictionary that it
    was passed, and: there were one or two parameter sets, the first has a
    type and a position (the mean of the two, with two sets), and the dump
    file was read; [centrosummation] is the sum of the rows of
    [system.dvect] whose norm is below the cutoff; [position_shift] (types
    i and s) is the position less that of the last atom, [db_vect_shift]
    (type db) the difference of the two normalised vectors; and
    [has_reconfigured] is true exactly when one of the arrays that were
    computed is not close to zero: no later test resets it. *)
Theorem check_config_returns dump_file cutoff s r s' :
  check_config dump_file cutoff s = (Returned r, s') ->
  exists p x system t moved,
    hd_error (ptd s') = Some p /\
    pos p = Some x /\ ptd_type p = Some t /\
    atom_dump_load dump_file = Returned system /\
    r = results_dict s' /\
    let centro := vsum (filter (fun v => Qlt_bool (norm v) cutoff) (dvect system x)) in
    r "centrosummation"%string = Some (Array centro) /\
    r "has_reconfigured"%string
      = Some (Flag (negb (allclose_zeros (Array centro)) || moved)) /\
    shifted system p x t r moved.
Proof. apply check_config_run. Qed.

(** *** What a call leaves as it was *)

Definition leaves {A} (k : string) (m : K A) : Prop :=
  forall s, results_dict (snd (m s)) k = results_dict s k.

Lemma leaves_retK {A} k (x : A) : leaves k (retK x).
Proof. intros s. reflexivity. Qed.

Lemma leaves_raiseK {A} k (e : py.exception) : leaves k (@raiseK A e).
Proof. intros s. reflexivity. Qed.

Lemma leaves_called {A} k (r : Outcome A) : leaves k (called r).
Proof. intros s. reflexivity. Qed.

Lemma leaves_bindK {A B} k (m : K A) (f : A -> K B) :
  leaves k m ->
  (forall s x s1, m s = (Returned x, s1) -> leaves k (f x)) ->
  leaves k (bindK m f).
Proof.
  intros Hm Hf s. unfold bindK. specialize (Hm s). specialize (Hf s).
  destruct (m s) as [[x | e] s1]; simpl in *.
  - rewrite (Hf x s1 eq_refl). exact Hm.
  - exact Hm.
Qed.

Lemma leaves_results_set k k' (v : entry) : k <> k' -> leaves k (results_set k' v).
Proof. intros H s. simpl. apply setitem_other. exact H. Qed.

Lemma leaves_results_get k k' : leaves k (results_get k').
Proof. intros s. reflexivity. Qed.

Lemma leaves_key_of {A} k key (v : option A) : leaves k (key_of key v).
Proof. destruct v; [apply leaves_retK | apply leaves_raiseK]. Qed.

Lemma leaves_subscript_params {A} k params key (value : Params -> option A) :
  leaves k (subscript_params params key value).
Proof. destruct params; [apply leaves_key_of | apply leaves_raiseK]. Qed.

Lemma leaves_flag_unless_zero k k' :
  k <> "has_reconfigured"%string -> leaves k (flag_unless_zero k').
Proof.
  intros H. apply leaves_bindK; [apply leaves_results_get |].
  intros _ e _ _. destruct (negb (allclose_zeros e));
    [apply leaves_results_set; exact H | apply leaves_retK].
Qed.

Lemma leaves_choose k : leaves k choose.
Proof.
  intros s. unfold choose, bindK, key_of.
  destruct (ptd s) as [| p0 [| p1 [| p2 l]]]; try reflexivity.
  destruct (pos p0); [| reflexivity]. destruct (pos p1); reflexivity.
Qed.

Lemma leaves_after_choose dump_file cutoff params k :
  k <> "centrosummation"%string -> k <> "has_reconfigured"%string ->
  (forall p t, params = Some p -> ptd_type p = Some t -> shift_key t <> Some k) ->
  leaves k (after_choose dump_file cutoff params).
Proof.
  intros Hc Hf Hk. unfold after_choose.
  apply leaves_bindK; [apply leaves_subscript_params | intros _ x _ _].
  apply leaves_bindK; [apply leaves_called | intros _ system _ _].
  apply leaves_bindK; [apply leaves_results_set; exact Hc | intros _ _ _ _].
  apply leaves_bindK; [apply leaves_results_set; exact Hf | intros _ _ _ _].
  apply leaves_bindK; [apply leaves_flag_unless_zero; exact Hf | intros _ _ _ _].
  apply leaves_bindK; [apply leaves_subscript_params | intros s0 t s1 Ht].
  apply subscript_params_returned in Ht as (_ & p & -> & Ht).
  specialize (Hk p t eq_refl Ht). unfold shift_key in Hk.
  apply leaves_bindK; [| intros; intros ?; reflexivity].
  destruct ((t =? "i")%string || (t =? "s")%string).
  - apply leaves_bindK; [apply leaves_called | intros _ new_pos _ _].
    apply leaves_bindK; [apply leaves_results_set; congruence | intros _ _ _ _].
    apply leaves_flag_unless_zero; exact Hf.
  - destruct (t =? "db")%string; [| apply leaves_retK].
    apply leaves_bindK; [apply leaves_subscript_params | intros _ v _ _].
    apply leaves_bindK; [apply leaves_called | intros _ new_pos1 _ _].
    apply leaves_bindK; [apply leaves_called | intros _ new_pos2 _ _].
    apply leaves_bindK; [apply leaves_results_set; congruence | intros _ _ _ _].
    apply leaves_flag_unless_zero; exact Hf.
Qed.

Lemma check_config_leaves dump_file cutoff s k :
  k <> "centrosummation"%string -> k <> "has_reconfigured"%string ->
  (forall p t, hd_error (ptd s) = Some p -> ptd_type p = Some t ->
               shift_key t <> Some k) ->
  results_dict (snd (check_config dump_file cutoff s)) k = results_dict s k.
Proof.
  intros Hc Hf Hk. rewrite check_config_eq. unfold bindK.
  pose proof (leaves_choose k s) as H0.
  destruct (choose s) as [[params | e] s1] eqn:Hs; simpl in H0; [| exact H0].
  rewrite leaves_after_choose; [exact H0 | exact Hc | exact Hf |].
  intros p t -> Ht. apply choose_returned in Hs as (_ & Hs).
  destruct (Hs p eq_refl) as (_ & p0 & Hp0 & E).
  apply (Hk p0 t Hp0). rewrite <- E. exact Ht.
Qed.

(** X20: whatever its outcome, [check_config] changes [results_dict] at
    no key other than [centrosummation], [has_reconfigured] and the shift
    of the type of the first parameter set.  The shift of another type is
    neither written nor removed: in a dictionary that is used again (the
    default argument is one) the [position_shift] of an interstitial
    outlives the check of a vacancy. *)
Theorem check_config_frame dump_file cutoff s k :
  k <> "centrosummation"%string -> k <> "has_reconfigured"%string ->
  (forall p t, hd_error (ptd s) = Some p -> ptd_type p = Some t ->
               shift_key t <> Some k) ->
  results_dict (snd (check_config dump_file cutoff s)) k = results_dict s k.
Proof. apply check_config_leaves. Qed.

Lemma check_config_head dump_file cutoff s r s' p :
  check_config dump_file cutoff s = (Returned r, s') ->
  hd_error (ptd s') = Some p ->
  exists p0, hd_error (ptd s) = Some p0 /\ ptd_type p0 = ptd_type p.
Proof.
  rewrite check_config_eq. intros H Hp.
  apply bindK_returned in H as (params & s1 & Hch & H).
  pose proof (keeps_after_choose dump_file cutoff params s1) as Hk.
  rewrite H in Hk. simpl in Hk. rewrite Hk in Hp.
  apply choose_returned in Hch as (_ & Hch).
  destruct params as [p' |]; [| discriminate H].
  destruct (Hch p' eq_refl) as (Hh & p0 & Hp0 & E).
  rewrite Hh in Hp. injection Hp as <-. exists p0. split; [exact Hp0 | symmetry; exact E].
Qed.

Lemma shifted_key system p x t r moved key :
  shifted system p x t r moved -> shift_key t = Some key ->
  exists e, r key = Some e /\ as_list e = Returned e /\
            (key = "position_shift" \/ key = "db_vect_shift")%string.
Proof.
  unfold shifted, shift_key.
  destruct ((t =? "i")%string || (t =? "s")%string).
  - intros (new_pos & _ & H & _) [= <-]. rewrite H. eexists. repeat split. left. reflexivity.
  - destruct (t =? "db")%string; [| discriminate].
    intros (v & n1 & n2 & _ & _ & _ & H & _) [= <-]. rewrite H.
    eexists. split; [reflexivity |]. split; [| right; reflexivity].
    destruct (over_norm v), (over_norm (vsub n1 n2)); reflexivity.
Qed.

(** X21: [main] passes [check_config] the dictionary of [ptd_energy],
    which has no shift.  When the check of such a dictionary returns, the
    [reconfiguration-check] of the data model is made without an error and
    holds, in this order, [has_reconfigured], [centrosummation] and, for
    the types i, s and db only, the one shift of the type. *)
Theorem check_config_recorded dump_file cutoff s r s' :
  results_dict s "position_shift"%string = None ->
  results_dict s "db_vect_shift"%string = None ->
  check_config dump_file cutoff s = (Returned r, s') ->
  exists p t flag centro,
    hd_error (ptd s') = Some p /\ ptd_type p = Some t /\
    r "has_reconfigured"%string = Some (Flag flag) /\
    r "centrosummation"%string = Some (Array centro) /\
    (forall key, shift_key t = Some key -> exists e, r key = Some e) /\
    reconfiguration_check r
      = Returned (("has_reconfigured"%string, Flag flag)
                  :: ("centrosummation"%string, Array centro)
                  :: match shift_key t with
                     | Some key => match r key with
                                   | Some e => [(key, e)]
                                   | None => []
                                   end
                     | None => []
                     end).
Proof.
  intros Hp Hd H.
  pose proof (check_config_leaves dump_file cutoff s) as Hl. rewrite H in Hl. simpl in Hl.
  pose proof (fun p => check_config_head dump_file cutoff s r s' p H) as Hhead.
  apply check_config_run in H
    as (p & x & system & t & moved & Hh & Hx & Ht & _ & -> & Hc & Hf & Hs).
  cbv zeta in Hc, Hf.
  destruct (Hhead p Hh) as (p0 & Hp0 & E). clear Hhead.
  assert (Hother : forall k, (k = "position_shift" \/ k = "db_vect_shift")%string ->
                             shift_key t <> Some k -> results_dict s' k = None).
  { intros k Hk Hne. rewrite Hl.
    - destruct Hk as [-> | ->]; assumption.
    - destruct Hk as [-> | ->]; discriminate.
    - destruct Hk as [-> | ->]; discriminate.
    - intros p1 t1 Hp1 Ht1. rewrite Hp0 in Hp1. injection Hp1 as <-.
      rewrite E, Ht in Ht1. injection Ht1 as <-. exact Hne. }
  exists p, t. eexists. eexists.
  split; [exact Hh |]. split; [exact Ht |]. split; [exact Hf |]. split; [exact Hc |].
  split.
  { intros key Hkey. destruct (shifted_key _ _ _ _ _ _ key Hs Hkey) as (e & He & _).
    eauto. }
  unfold reconfiguration_check, bindO, getitem, has_key. rewrite Hf, Hc. cbn [as_list].
  destruct (shift_key t) as [key |] eqn:Hkey.
  - destruct (shifted_key _ _ _ _ _ _ key Hs Hkey) as (e & He & Hl' & [-> | ->]).
    + rewrite He, Hl'. reflexivity.
    + rewrite (Hother "position_shift"%string) by (auto; discriminate).
      rewrite He, Hl'. reflexivity.
  - rewrite !Hother by (auto; discriminate). reflexivity.
Qed.

End CheckConfigFacts.

(** ** A relaxed configuration *)

(** The square root of a rational square; of another number, the roots of
    its numerator and denominator rounded down. *)
Definition root (x : Q) : Q :=
  let r := Qred x in Z.sqrt (Qnum r) # Pos.sqrt (Qden r).

(** A dump file of four atoms in a box without periodic images: the
    vectors of [dvect] go from the atoms to the position, a negative index
    counts from the end, as in numpy. *)
Definition four_atoms : list vector :=
  [(1, 0, 0); (-1 # 1, 0, 0); (0, 3, 4); (0, 0, 0)].

Definition relaxed : Dump := {|
  Snapshot := list vector;
  atom_dump_load f :=
    if (f =? "ptd.dump")%string then Returned four_atoms else Raised (py.LoadError f);
  dvect system x := map (fun a => vsub x a) system;
  natoms system := Z.of_nat (length system);
  atoms_prop_pos system i :=
    let n := Z.of_nat (length system) in
    let j := if (i <? 0)%Z then (i + n)%Z else i in
    if (j <? 0)%Z then Raised py.IndexError
    else match nth_error system (Z.to_nat j) with
         | Some a => Returned a
         | None => Raised py.IndexError
         end;
  norm v := let '(x, y, z) := v in root (x * x + y * y + z * z)
|}.

(** The dictionary that [ptd_energy] returns. *)
Definition energies : dict entry :=
  setitem "e_ptd_f" (Scalar 3) (setitem "e_coh" (Scalar (-4 # 1)) (fun _ => None)).

Definition vacancy (x : vector) : Params :=
  {| ptd_type := Some "v"%string; pos := Some x; db_vect := None |}.

Definition interstitial (x : vector) : Params :=
  {| ptd_type := Some "i"%string; pos := Some x; db_vect := None |}.

(** The check of an interstitial that stayed where it was put. *)
Definition interstitial_check : Outcome (dict entry) * Shared :=
  check_config (dump := relaxed) "ptd.dump" 2
    {| ptd := [interstitial (0, 0, 0)]; results_dict := energies |}.

Lemma check_config_sets_witness :
  check_config (dump := relaxed) "ptd.dump" 2
    {| ptd := [vacancy (0, 0, 0); vacancy (2, 0, 0); vacancy (0, 2, 0)];
       results_dict := energies |}
  = (Raised py.TypeError,
     {| ptd := [vacancy (0, 0, 0); vacancy (2, 0, 0); vacancy (0, 2, 0)];
        results_dict := energies |}).
Proof. apply check_config_sets; simpl; discriminate. Defined.

Lemma check_config_divacancy_witness :
  let s := {| ptd := [vacancy (0, 0, 0); vacancy (2, 0, 0)]; results_dict := energies |} in
  let s1 := snd (check_config (dump := relaxed) "ptd.dump" 2 s) in
  let s2 := snd (check_config (dump := relaxed) "ptd.dump" 2 s1) in
  ptd s1 = [with_pos (vacancy (0, 0, 0)) (midpoint (0, 0, 0) (2, 0, 0)); vacancy (2, 0, 0)] /\
  ptd s2 = [with_pos (vacancy (0, 0, 0))
              (midpoint (midpoint (0, 0, 0) (2, 0, 0)) (2, 0, 0));
            vacancy (2, 0, 0)].
Proof.
  apply (check_config_divacancy (dump := relaxed) "ptd.dump" "ptd.dump" 2 2
           {| ptd := [vacancy (0, 0, 0); vacancy (2, 0, 0)]; results_dict := energies |});
    reflexivity.
Defined.

Lemma check_config_returns_witness :
  let r := results_dict (snd interstitial_check) in
  exists p x system t moved,
    hd_error (ptd (snd interstitial_check)) = Some p /\
    pos p = Some x /\ ptd_type p = Some t /\
    atom_dump_load (Dump := relaxed) "ptd.dump" = Returned system /\
    r = results_dict (snd interstitial_check) /\
    let centro :=
      vsum (filter (fun v => Qlt_bool (norm (Dump := relaxed) v) 2)
              (dvect (Dump := relaxed) system x)) in
    r "centrosummation"%string = Some (Array centro) /\
    r "has_reconfigured"%string
      = Some (Flag (negb (allclose_zeros (Array centro)) || moved)) /\
    shifted (dump := relaxed) system p x t r moved.
Proof.
  apply (check_config_returns (dump := relaxed) "ptd.dump" 2
           {| ptd := [interstitial (0, 0, 0)]; results_dict := energies |}).
  by_running.
Defined.

Lemma check_config_frame_witness :
  let stale :=
    {| ptd := [vacancy (0, 0, 0)];
       results_dict := setitem "position_shift" (Array (1, 0, 0)) energies |} in
  results_dict (snd (check_config (dump := relaxed) "ptd.dump" 2 stale))
    "position_shift"%string
  = results_dict stale "position_shift"%string.
Proof.
  apply (check_config_frame (dump := relaxed)); [discriminate | discriminate |].
  intros p t [= <-] [= <-]. discriminate.
Defined.

Lemma check_config_recorded_witness :
  let r := results_dict (snd interstitial_check) in
  exists p t flag centro,
    hd_error (ptd (snd interstitial_check)) = Some p /\ ptd_type p = Some t /\
    r "has_reconfigured"%string = Some (Flag flag) /\
    r "centrosummation"%string = Some (Array centro) /\
    (forall key, shift_key t = Some key -> exists e, r key = Some e) /\
    reconfiguration_check r
      = Returned (("has_reconfigured"%string, Flag flag)
                  :: ("centrosummation"%string, Array centro)
                  :: match shift_key t with
                     | Some key => match r key with
                                   | Some e => [(key, e)]
                                   | None => []
                                   end
                     | None => []
                     end).
Proof.
  apply (check_config_recorded (dump := relaxed) "ptd.dump" 2
           {| ptd := [interstitial (0, 0, 0)]; results_dict := energies |});
    [reflexivity | reflexivity | by_running].
Defined.
